(** * Flight price monitor (flight_monitor.py): a shallow embedding

    The Python module queries a flight-offer search API for each date of a
    range, normalises the offers into deals, ranks them and sends a report
    through a messaging endpoint.  This development embeds the functions
    [parse_duration], [get_airline_name], [parse_amadeus_response],
    [send_telegram_message], [send_long_message],
    [format_results_message], [Config.validate],
    [generate_dates_in_range], [search_flights_amadeus] and
    [search_all_dates] and proves properties of them.

    Conventions of the embedding:
    - a Python [str] is a Rocq [string], one [ascii] per character; the
      non-ASCII characters of the source's literals are kept as their UTF-8
      bytes, which changes the length of those literals only;
    - a Python [int] is a [Z]; a Python [float] is an IEEE 754 binary64
      value, [spec_float] with precision 53 and maximal exponent 1024;
    - a call that may raise returns a [pyresult]; [try]/[except] is a match
      on it;
    - a list that the code mutates is threaded through explicitly: the
      function returns the final contents of the list next to its result;
    - logging and sleeping do not influence any value and are left out,
      except for the pauses of [search_all_dates], which are recorded in a
      trace of the run;
    - a [while] loop is a function on a fuel that returns [None] when the
      fuel runs out. *)

From Stdlib Require Import ZArith List String Ascii Bool Lia Arith.
From Stdlib Require Import Permutation Sorted.
From Stdlib Require Import DecimalString DecimalZ DecimalN DecimalPos.
From Stdlib Require Import SpecFloat.
Import ListNotations.

Local Open Scope string_scope.
Local Open Scope Z_scope.

(** ** Python layer: exceptions and results *)

Module Py.

(** The exception classes the embedded code can meet.  All of them derive
    from [Exception], so an [except Exception] clause and a bare [except]
    both catch every one of them. *)
Inductive exn : Type :=
| AttributeError
| TypeError
| ValueError
| KeyError
| IndexError
| ZeroDivisionError
| OverflowError.

Inductive pyresult (A : Type) : Type :=
| Ok (a : A)
| Raise (e : exn).
Arguments Ok {A} a.
Arguments Raise {A} e.

Definition bind {A B : Type} (m : pyresult A) (k : A -> pyresult B) : pyresult B :=
  match m with
  | Ok a => k a
  | Raise e => Raise e
  end.

End Py.
Import Py.

Notation "x <- m ;; k" := (bind m (fun x => k))
  (at level 61, m at next level, right associativity).
Notation "' p <- m ;; k" := (bind m (fun p => k))
  (at level 61, p pattern, m at next level, right associativity).

(** ** Python layer: strings *)

Definition LF : ascii := ascii_of_nat 10.
Definition nl : string := String LF EmptyString.

(** [len(s)] is [String.length s]; [a + b] is [a ++ b]. *)

(** [needle in hay] for two strings. *)
Fixpoint str_in (needle hay : string) : bool :=
  prefix needle hay ||
  match hay with
  | EmptyString => false
  | String _ hay' => str_in needle hay'
  end.

(** [s.split(sep)] for a separator of one character. *)
Fixpoint str_split (sep : ascii) (s : string) : list string :=
  match s with
  | EmptyString => [EmptyString]
  | String c s' =>
      if Ascii.eqb c sep then EmptyString :: str_split sep s'
      else match str_split sep s' with
           | [] => [String c EmptyString]
           | w :: ws => String c w :: ws
           end
  end.

(** [s.replace(old, new)] for a non-empty [old]: occurrences are found from
    the left and do not overlap.  [skip] counts the characters of an
    occurrence that are still to be dropped. *)
Fixpoint str_replace_from (old new : string) (skip : nat) (s : string) : string :=
  match s with
  | EmptyString => EmptyString
  | String c s' =>
      match skip with
      | S k => str_replace_from old new k s'
      | O =>
          if prefix old s
          then new ++ str_replace_from old new (Nat.pred (String.length old)) s'
          else String c (str_replace_from old new 0 s')
      end
  end.

Definition str_replace (old new s : string) : string :=
  str_replace_from old new 0 s.

(** [s[:n]]. *)
Definition str_take (n : nat) (s : string) : string := substring 0 n s.

(** The blanks that [int()] drops around a number; a character of a
    received text is a code point below 256.  [int()] drops the ASCII blanks
    9 to 13 and 32; it turns every other blank into a space before it reads
    the number, but only outside ASCII, so that U+0085 and U+00A0 are
    dropped and the separators 28 to 31 are not. *)
Definition is_space (c : ascii) : bool :=
  let n := nat_of_ascii c in
  ((9 <=? n) && (n <=? 13) || (n =? 32) || (n =? 133) || (n =? 160))%nat.

Fixpoint str_lstrip (s : string) : string :=
  match s with
  | EmptyString => EmptyString
  | String c s' => if is_space c then str_lstrip s' else s
  end.

Fixpoint str_rstrip (s : string) : string :=
  match s with
  | EmptyString => EmptyString
  | String c s' =>
      match str_rstrip s' with
      | EmptyString => if is_space c then EmptyString else String c EmptyString
      | r => String c r
      end
  end.

Definition str_strip (s : string) : string := str_rstrip (str_lstrip s).

(** ** Python layer: integers and their decimal text *)

(** [str(z)] and the [{z}] of an f-string. *)
Definition str_of_int (z : Z) : string := NilZero.string_of_int (Z.to_int z).

Definition digit_of_ascii (c : ascii) : option Z :=
  let n := nat_of_ascii c in
  if ((48 <=? n) && (n <=? 57))%nat then Some (Z.of_nat n - 48) else None.

(** The digits of an integer literal, [digit (["_"] digit)*], read from the
    left; [after_digit] tells whether the previous character was a digit. *)
Fixpoint int_digits (after_digit : bool) (acc : Z) (s : string) : option Z :=
  match s with
  | EmptyString => if after_digit then Some acc else None
  | String c s' =>
      match digit_of_ascii c with
      | Some d => int_digits true (10 * acc + d) s'
      | None =>
          if Ascii.eqb c "_" && after_digit then int_digits false acc s'
          else None
      end
  end.

(** The number of digits of a literal; the underscores do not count. *)
Fixpoint count_digits (s : string) : nat :=
  match s with
  | EmptyString => O
  | String c s' =>
      match digit_of_ascii c with
      | Some _ => S (count_digits s')
      | None => count_digits s'
      end
  end.

(** [sys.get_int_max_str_digits()]: the interpreter's limit on the digits
    of a decimal literal that [int()] converts; the program leaves it at
    its default. *)
Definition max_str_digits : nat := 4300.

(** [int(s)] for a string, base 10: surrounding blanks are dropped, a sign
    is optional, the digits may be separated by single underscores; a
    literal of more than [max_str_digits] digits, leading zeros included,
    and anything else raise [ValueError].  Among the code points below 256
    the decimal digits are the ASCII ones. *)
Definition int_of_str (s : string) : pyresult Z :=
  let s := str_strip s in
  let '(neg, body) :=
    match s with
    | String "-" r => (true, r)
    | String "+" r => (false, r)
    | _ => (false, s)
    end in
  match int_digits false 0 body with
  | Some n =>
      if (max_str_digits <? count_digits body)%nat then Raise ValueError
      else Ok (if neg then - n else n)
  | None => Raise ValueError
  end.

(** ** Python layer: values received from the search API

    [response.data] is decoded JSON: [None], booleans, integers, floats,
    strings, lists and dictionaries with string keys. *)

#[local] Set Warnings "-register-all".

Inductive pyval : Type :=
| VNone
| VBool (b : bool)
| VInt (z : Z)
| VFloat (f : spec_float)
| VStr (s : string)
| VList (l : list pyval)
| VDict (d : list (string * pyval)).

Fixpoint assoc {A : Type} (key : string) (d : list (string * A)) : option A :=
  match d with
  | [] => None
  | (k, v) :: d' => if String.eqb k key then Some v else assoc key d'
  end.

(** [v.get(key, default)]: only a dictionary has the method. *)
Definition py_get (v : pyval) (key : string) (default : pyval) : pyresult pyval :=
  match v with
  | VDict d => Ok (match assoc key d with Some x => x | None => default end)
  | _ => Raise AttributeError
  end.

(** [xs[i]] on a list of the model. *)
Definition list_item {A : Type} (xs : list A) (i : nat) : pyresult A :=
  match nth_error xs i with
  | Some x => Ok x
  | None => Raise IndexError
  end.

(** ** Airline code resolver *)

Definition airlines : list (string * string) :=
  [ ("6E", "IndiGo");
    ("AI", "Air India");
    ("SG", "SpiceJet");
    ("UK", "Vistara");
    ("QP", "Akasa Air");
    ("IX", "Air India Express");
    ("9I", "Alliance Air");
    ("I5", "AirAsia India");
    ("G8", "Go First") ].

(** [get_airline_name(carrier_code)] is [airlines.get(carrier_code,
    carrier_code)].  The keys of the table are strings, so only a string can
    be found; a list or a dictionary cannot be hashed and raises
    [TypeError]; any other value is returned as it is. *)
Definition get_airline_name (carrier_code : pyval) : pyresult pyval :=
  match carrier_code with
  | VStr code =>
      Ok (match assoc code airlines with
          | Some name => VStr name
          | None => carrier_code
          end)
  | VList _ | VDict _ => Raise TypeError
  | _ => Ok carrier_code
  end.

(** ** Duration parser *)

(** [v.replace(old, new)]: only a string has the method. *)
Definition py_replace (v : pyval) (old new : string) : pyresult string :=
  match v with
  | VStr s => Ok (str_replace old new s)
  | _ => Raise AttributeError
  end.

(** The body of the [try] block of [parse_duration]. *)
Definition parse_duration_try (duration_str : pyval) : pyresult string :=
  duration_str <- py_replace duration_str "PT" "" ;;
  let hours := 0 in
  let minutes := 0 in
  '(hours, duration_str) <-
    (if str_in "H" duration_str then
       let parts := str_split "H" duration_str in
       part0 <- list_item parts 0 ;;
       hours <- int_of_str part0 ;;
       duration_str <- list_item parts 1 ;;
       Ok (hours, duration_str)
     else Ok (hours, duration_str)) ;;
  minutes <-
    (if str_in "M" duration_str
     then int_of_str (str_replace "M" "" duration_str)
     else Ok minutes) ;;
  Ok (str_of_int hours ++ "h " ++ str_of_int minutes ++ "m").

(** [parse_duration]: the bare [except] turns every exception into the
    string ["N/A"]. *)
Definition parse_duration (duration_str : pyval) : string :=
  match parse_duration_try duration_str with
  | Ok s => s
  | Raise _ => "N/A"
  end.

(** ** Python layer: floats *)

Definition prec : Z := 53.
Definition emax : Z := 1024.
Definition float : Type := spec_float.

Definition float_is_zero (x : float) : bool :=
  match x with
  | S754_zero _ => true
  | _ => false
  end.

(** [float(z)] for an integer, also the conversion of an integer operand of
    a float operation: rounded to nearest even, [OverflowError] beyond the
    largest float. *)
Definition float_of_int (z : Z) : pyresult float :=
  match binary_normalize prec emax z 0 false with
  | S754_infinity _ => Raise OverflowError
  | f => Ok f
  end.

(** [x / y] for a float [x] and an integer [y]. *)
Definition float_div_int (x : float) (y : Z) : pyresult float :=
  b <- float_of_int y ;;
  if float_is_zero b then Raise ZeroDivisionError
  else Ok (SFdiv prec emax x b).

(** [x <= z] for a float [x] and an integer [z]: Python compares the two
    exact values; a NaN compares false. *)
Definition float_le_int (x : float) (z : Z) : bool :=
  match x with
  | S754_nan => false
  | S754_infinity s => s
  | S754_zero _ => 0 <=? z
  | S754_finite s m e =>
      let sm := if s then Zneg m else Zpos m in
      match e with
      | Zneg k => sm <=? z * 2 ^ Zpos k
      | _ => sm * 2 ^ e <=? z
      end
  end.

(** [int(x)] for a float: truncation towards zero. *)
Definition int_of_float (x : float) : pyresult Z :=
  match x with
  | S754_nan => Raise ValueError
  | S754_infinity _ => Raise OverflowError
  | S754_zero _ => Ok 0
  | S754_finite s m e =>
      let a :=
        match e with
        | Zneg k => Zpos m / 2 ^ Zpos k
        | _ => Zpos m * 2 ^ e
        end in
      Ok (if s then - a else a)
  end.

(** [a / b] for two integers: the exact quotient rounded once to the nearest
    float. *)
Definition int_truediv (a b : Z) : pyresult float :=
  match b with
  | Z0 => Raise ZeroDivisionError
  | _ =>
      match a with
      | Z0 => Ok (S754_zero (b <? 0))
      | _ =>
          match SFdiv prec emax
                  (S754_finite (a <? 0) (Z.to_pos (Z.abs a)) 0)
                  (S754_finite (b <? 0) (Z.to_pos (Z.abs b)) 0) with
          | S754_infinity _ => Raise OverflowError
          | f => Ok f
          end
      end
  end.

(** A fragment of [float(s)], used where the code is evaluated on concrete
    offers: the plain decimal literals [[sign] digits [. digits]], rounded
    correctly; every other string raises [ValueError] here. *)
Fixpoint decimal_digits (acc : Z) (s : string) : option (Z * string) :=
  match s with
  | EmptyString => Some (acc, EmptyString)
  | String c s' =>
      match digit_of_ascii c with
      | Some d => decimal_digits (10 * acc + d) s'
      | None => if Ascii.eqb c "." then Some (acc, s') else None
      end
  end.

Definition float_of_decimal (s : string) : pyresult float :=
  let '(neg, body) :=
    match s with
    | String "-" r => (true, r)
    | String "+" r => (false, r)
    | _ => (false, s)
    end in
  match body with
  | EmptyString => Raise ValueError
  | String c _ =>
      match digit_of_ascii c, decimal_digits 0 body with
      | Some _, Some (ip, frac) =>
          match frac with
          | EmptyString =>
              Ok (binary_normalize prec emax (if neg then - ip else ip) 0 neg)
          | _ =>
              match int_digits false ip frac with
              | Some m =>
                  match m with
                  | Z0 => Ok (S754_zero neg)
                  | _ =>
                      Ok (SFdiv prec emax
                            (S754_finite neg (Z.to_pos m) 0)
                            (S754_finite false
                               (Z.to_pos (10 ^ Z.of_nat (String.length frac))) 0))
                  end
              | None => Raise ValueError
              end
          end
      | _, _ => Raise ValueError
      end
  end.

(** ** Python layer: operations on API values *)

(** Truth value of [v], as [not v] tests it. *)
Definition py_truthy (v : pyval) : bool :=
  match v with
  | VNone => false
  | VBool b => b
  | VInt z => negb (z =? 0)
  | VFloat f => negb (float_is_zero f)
  | VStr s => negb (String.eqb s "")
  | VList l => match l with [] => false | _ => true end
  | VDict d => match d with [] => false | _ => true end
  end.

(** [v[0]]: the first element of a list, the first character of a string;
    a decoded JSON dictionary has no key [0]; other values cannot be
    subscripted. *)
Definition py_first (v : pyval) : pyresult pyval :=
  match v with
  | VList (x :: _) => Ok x
  | VList [] => Raise IndexError
  | VStr (String c _) => Ok (VStr (String c EmptyString))
  | VStr EmptyString => Raise IndexError
  | VDict _ => Raise KeyError
  | _ => Raise TypeError
  end.

Fixpoint str_last (c : ascii) (s : string) : ascii :=
  match s with
  | EmptyString => c
  | String c' s' => str_last c' s'
  end.

(** [v[-1]]. *)
Definition py_last (v : pyval) : pyresult pyval :=
  match v with
  | VList (x :: l) => Ok (last l x)
  | VList [] => Raise IndexError
  | VStr (String c s) => Ok (VStr (String (str_last c s) EmptyString))
  | VStr EmptyString => Raise IndexError
  | VDict _ => Raise KeyError
  | _ => Raise TypeError
  end.

(** [v[:n]]: strings and lists can be sliced. *)
Definition py_slice_to (n : nat) (v : pyval) : pyresult pyval :=
  match v with
  | VStr s => Ok (VStr (str_take n s))
  | VList l => Ok (VList (firstn n l))
  | VDict _ => Raise KeyError
  | _ => Raise TypeError
  end.

Definition is_str (t : string) (v : pyval) : bool :=
  match v with
  | VStr s => String.eqb s t
  | _ => false
  end.

(** [t in v] for a string [t] and a sliced value [v] (a string or a list). *)
Definition py_contains (t : string) (v : pyval) : pyresult bool :=
  match v with
  | VStr s => Ok (str_in t s)
  | VList l => Ok (existsb (is_str t) l)
  | VDict d => Ok (existsb (fun kv => String.eqb (fst kv) t) d)
  | _ => Raise TypeError
  end.

(** [v.split(sep)[i]]: only a string has the method. *)
Definition py_split_item (v : pyval) (sep : ascii) (i : nat) : pyresult string :=
  match v with
  | VStr s => list_item (str_split sep s) i
  | _ => Raise AttributeError
  end.

(** [len(v)]. *)
Definition py_len (v : pyval) : pyresult Z :=
  match v with
  | VStr s => Ok (Z.of_nat (String.length s))
  | VList l => Ok (Z.of_nat (List.length l))
  | VDict d => Ok (Z.of_nat (List.length d))
  | _ => Raise TypeError
  end.

(** The values a [for] loop over [v] visits. *)
Definition py_iter (v : pyval) : pyresult (list pyval) :=
  match v with
  | VList l => Ok l
  | VStr s => Ok (map (fun c => VStr (String c EmptyString)) (list_ascii_of_string s))
  | VDict d => Ok (map (fun kv => VStr (fst kv)) d)
  | _ => Raise TypeError
  end.

(** ** Configuration and deals *)

(** The attributes of the class [Config] that the embedded functions read. *)
Record Config : Type := {
  FROM_CITY : string;
  FROM_CODE : string;
  TO_CITY : string;
  TO_CODE : string;
  DATE_RANGE_START : string;
  DATE_RANGE_END : string;
  PASSENGERS : Z;
  MAX_PRICE : Z
}.

(** The dictionary built for one qualifying offer.  [V] is the type of the
    values that are stored as the API supplied them (airline, carrier code,
    cabin); the normaliser produces [Deal pyval]. *)
Record Deal (V : Type) : Type := {
  date : string;
  price : Z;
  total_price : Z;
  airline : V;
  carrier_code : V;
  duration : string;
  stops : Z;
  departure_time : string;
  cabin_class : V;
  source : string
}.
Arguments date {V} _.
Arguments price {V} _.
Arguments total_price {V} _.
Arguments airline {V} _.
Arguments carrier_code {V} _.
Arguments duration {V} _.
Arguments stops {V} _.
Arguments departure_time {V} _.
Arguments cabin_class {V} _.
Arguments source {V} _.

(** ** Offer normaliser *)

Section Normaliser.

(** [float(s)] on a string is the interpreter's; the normaliser is embedded
    for any behaviour of it. *)
Variable float_of_str : string -> pyresult float.
Variable cfg : Config.

(** [float(v)]. *)
Definition py_float (v : pyval) : pyresult float :=
  match v with
  | VStr s => float_of_str s
  | VInt z => float_of_int z
  | VBool b => float_of_int (if b then 1 else 0)
  | VFloat f => Ok f
  | VNone | VList _ | VDict _ => Raise TypeError
  end.

(** The body of the [for] loop for one offer: [Ok (Some deal)] when a deal
    is appended, [Ok None] when the offer is passed over (above the budget,
    or a [continue]), [Raise e] when a statement of the body raises. *)
Definition parse_offer (date : string) (offer : pyval)
  : pyresult (option (Deal pyval)) :=
  price_obj <- py_get offer "price" (VDict []) ;;
  total_price_str <- py_get price_obj "total" (VStr "0") ;;
  total_price <- py_float total_price_str ;;
  price_per_person <- float_div_int total_price (PASSENGERS cfg) ;;
  if float_le_int price_per_person (MAX_PRICE cfg) then
    itineraries <- py_get offer "itineraries" (VList []) ;;
    if negb (py_truthy itineraries) then Ok None else
    first_itinerary <- py_first itineraries ;;
    segments <- py_get first_itinerary "segments" (VList []) ;;
    if negb (py_truthy segments) then Ok None else
    first_segment <- py_first segments ;;
    carrier_code <- py_get first_segment "carrierCode" (VStr "XX") ;;
    airline_name <- get_airline_name carrier_code ;;
    departure <- py_get first_segment "departure" (VDict []) ;;
    segments_again <- py_get first_itinerary "segments" (VList [VDict []]) ;;
    last_segment <- py_last segments_again ;;
    arrival_time <- py_get last_segment "arrival" (VDict []) ;;
    departure_at <- py_get departure "at" (VStr "") ;;
    departure_time <- py_slice_to 16 departure_at ;;
    has_T <- py_contains "T" departure_time ;;
    departure_hour <-
      (if has_T then py_split_item departure_time "T" 1 else Ok "N/A") ;;
    duration_str <- py_get first_itinerary "duration" (VStr "PT0H0M") ;;
    let duration := parse_duration duration_str in
    n_segments <- py_len segments ;;
    let stops := n_segments - 1 in
    segment0 <- py_first segments ;;
    booking_class <- py_get segment0 "cabin" (VStr "ECONOMY") ;;
    price_int <- int_of_float price_per_person ;;
    total_int <- int_of_float total_price ;;
    Ok (Some {| date := date;
                price := price_int;
                total_price := total_int;
                airline := airline_name;
                carrier_code := carrier_code;
                duration := duration;
                stops := stops;
                departure_time := departure_hour;
                cabin_class := booking_class;
                source := "Amadeus" |})
  else Ok None.

(** The [for] loop: [deals] is the list built so far.  The loop stops at
    the first offer whose body raises and hands the exception on, together
    with the deals appended before it. *)
Fixpoint parse_offers (date : string) (offers : list pyval)
  (deals : list (Deal pyval)) : list (Deal pyval) * option exn :=
  match offers with
  | [] => (deals, None)
  | offer :: rest =>
      match parse_offer date offer with
      | Raise e => (deals, Some e)
      | Ok None => parse_offers date rest deals
      | Ok (Some deal) => parse_offers date rest (deals ++ [deal])%list
      end
  end.

(** The [try] block of [parse_amadeus_response]: the contents of [deals]
    when the block is left, and the exception that left it, if any. *)
Definition parse_amadeus_response_try (data : pyval) (date : string)
  : list (Deal pyval) * option exn :=
  match py_iter data with
  | Raise e => ([], Some e)
  | Ok offers => parse_offers date offers []
  end.

(** [parse_amadeus_response(data, date)]: the handler of the [try] block
    logs the exception; the function then returns [deals]. *)
Definition parse_amadeus_response (data : pyval) (date : string)
  : list (Deal pyval) :=
  fst (parse_amadeus_response_try data date).

End Normaliser.

(** ** Message delivery *)

(** What [requests.post] does for one delivery call: it returns a response
    with a status code and a text, or it raises. *)
Inductive post_outcome : Type :=
| Response (status_code : Z) (text : string)
| PostRaises.

(** The transport layer accepts a request when it answers with status 200. *)
Definition accepted (o : post_outcome) : bool :=
  match o with
  | Response code _ => code =? 200
  | PostRaises => false
  end.

Definition max_length : nat := 4000.

(** One turn of the loop that builds the chunks of a long message. *)
Definition chunk_step (st : list string * string) (line : string)
  : list string * string :=
  let '(parts, current_part) := st in
  if (max_length <? String.length current_part + String.length line + 1)%nat
  then ((parts ++ [current_part])%list, line ++ nl)
  else (parts, current_part ++ line ++ nl).

(** The list [parts] of [send_long_message] when the sending starts. *)
Definition message_parts (message : string) : list string :=
  let '(parts, current_part) :=
    fold_left chunk_step (str_split LF message) ([], EmptyString) in
  if negb (String.eqb current_part EmptyString)
  then (parts ++ [current_part])%list
  else parts.

Section Messaging.

(** The endpoint: the outcome of the delivery call number [k] of the run
    (counted from 0) when it carries [text]. *)
Variable post : nat -> string -> post_outcome.

(** [send_telegram_message(message)]; [calls] is the list of the texts
    posted so far, which the call extends. *)
Definition send_telegram_message (message : string) (calls : list string)
  : bool * list string :=
  match post (List.length calls) message with
  | Response status_code _ =>
      if status_code =? 200 then (true, (calls ++ [message])%list)
      else (false, (calls ++ [message])%list)
  | PostRaises => (false, (calls ++ [message])%list)
  end.

(** The loop that sends the parts: the result of each call is dropped. *)
Fixpoint send_parts (parts : list string) (calls : list string) : list string :=
  match parts with
  | [] => calls
  | part :: rest =>
      let '(_, calls) := send_telegram_message part calls in
      send_parts rest calls
  end.

(** [send_long_message(message)]. *)
Definition send_long_message (message : string) (calls : list string)
  : bool * list string :=
  if (String.length message <=? max_length)%nat
  then send_telegram_message message calls
  else (true, send_parts (message_parts message) calls).

End Messaging.

(** ** Dates of deals: [strptime(s, '%Y-%m-%d')] and [strftime('%b %d, %a')] *)

Definition is_digit (c : ascii) : bool :=
  match digit_of_ascii c with
  | Some _ => true
  | None => false
  end.

(** The year field: exactly four digits. *)
Definition year_field (s : string) : option Z :=
  match s with
  | String a (String b (String c (String d EmptyString))) =>
      if is_digit a && is_digit b && is_digit c && is_digit d
      then int_digits false 0 s
      else None
  | _ => None
  end.

(** The month field: [1[0-2]], [0[1-9]] or [[1-9]]. *)
Definition month_field (s : string) : option Z :=
  match s with
  | String a EmptyString =>
      match digit_of_ascii a with
      | Some d => if 1 <=? d then Some d else None
      | None => None
      end
  | String a (String b EmptyString) =>
      match digit_of_ascii a, digit_of_ascii b with
      | Some 0, Some d => if 1 <=? d then Some d else None
      | Some 1, Some d => if d <=? 2 then Some (10 + d) else None
      | _, _ => None
      end
  | _ => None
  end.

(** The day field: [3[0-1]], [[1-2]\d], [0[1-9]], [[1-9]] or a space and
    [[1-9]]. *)
Definition day_field (s : string) : option Z :=
  match s with
  | String a EmptyString =>
      match digit_of_ascii a with
      | Some d => if 1 <=? d then Some d else None
      | None => None
      end
  | String a (String b EmptyString) =>
      match digit_of_ascii b with
      | Some d =>
          if Ascii.eqb a " " then (if 1 <=? d then Some d else None)
          else
            match digit_of_ascii a with
            | Some 0 => if 1 <=? d then Some d else None
            | Some 1 => Some (10 + d)
            | Some 2 => Some (20 + d)
            | Some 3 => if d <=? 1 then Some (30 + d) else None
            | _ => None
            end
      | None => None
      end
  | _ => None
  end.

Definition is_leap (y : Z) : bool :=
  (y mod 4 =? 0) && (negb (y mod 100 =? 0) || (y mod 400 =? 0)).

Definition days_in_month (y m : Z) : Z :=
  if m =? 2 then (if is_leap y then 29 else 28)
  else if (m =? 4) || (m =? 6) || (m =? 9) || (m =? 11) then 30
  else 31.

Definition days_before_year (y : Z) : Z :=
  let y1 := y - 1 in
  y1 * 365 + y1 / 4 - y1 / 100 + y1 / 400.

Fixpoint days_before_month_to (y : Z) (months : nat) : Z :=
  match months with
  | O => 0
  | S k => days_before_month_to y k + days_in_month y (Z.of_nat (S k))
  end.

(** The proleptic Gregorian ordinal of a date, 1 for 0001-01-01. *)
Definition ymd2ord (y m d : Z) : Z :=
  days_before_year y + days_before_month_to y (Z.to_nat (m - 1)) + d.

(** Monday is 0. *)
Definition weekday (y m d : Z) : Z := (ymd2ord y m d + 6) mod 7.

Definition month_abbr : list string :=
  ["Jan"; "Feb"; "Mar"; "Apr"; "May"; "Jun";
   "Jul"; "Aug"; "Sep"; "Oct"; "Nov"; "Dec"].

Definition day_abbr : list string :=
  ["Mon"; "Tue"; "Wed"; "Thu"; "Fri"; "Sat"; "Sun"].

(** [datetime.strptime(s, '%Y-%m-%d')]: the three fields, when they form a
    date of the calendar. *)
Definition strptime_ymd (s : string) : pyresult (Z * Z * Z) :=
  match str_split "-" s with
  | [ys; ms; ds] =>
      match year_field ys, month_field ms, day_field ds with
      | Some y, Some m, Some d =>
          if (1 <=? y) && (d <=? days_in_month y m) then Ok (y, m, d)
          else Raise ValueError
      | _, _, _ => Raise ValueError
      end
  | _ => Raise ValueError
  end.

(** [strftime('%b %d, %a')] in the default locale. *)
Definition strftime_bda (ymd : Z * Z * Z) : string :=
  let '(y, m, d) := ymd in
  nth (Z.to_nat (m - 1)) month_abbr EmptyString ++ " "
  ++ (if d <? 10 then "0" else EmptyString) ++ str_of_int d ++ ", "
  ++ nth (Z.to_nat (weekday y m d)) day_abbr EmptyString.

(** ** Integers with thousands separators: the [{n:,}] of an f-string *)

Fixpoint group3 (digits : string) : string :=
  match digits with
  | EmptyString => EmptyString
  | String c rest =>
      let k := String.length rest in
      String c (if (0 <? k)%nat && (k mod 3 =? 0)%nat
                then "," ++ group3 rest
                else group3 rest)
  end.

Definition str_of_int_grouped (z : Z) : string :=
  if z <? 0 then "-" ++ group3 (str_of_int (- z))
  else group3 (str_of_int z).

(** ** Ranking and reporting *)

Section Reporting.

Context {V : Type}.
(** Equality of the airlines, as the keys of [airline_counts] need it. *)
Variable V_eq_dec : forall a b : V, {a = b} + {a <> b}.
(** The text that an f-string puts for a value of type [V]. *)
Variable str_of : V -> string.
Variable cfg : Config.
(** [datetime.now().strftime('%I:%M %p, %b %d, %Y')]. *)
Variable checked_at : string.

(** [deals.sort(key=lambda x: x['price'])]: the sort of Python lists is
    stable; it is embedded as a stable insertion sort.  [insert_deal d l]
    puts [d], which stood before every element of [l], in front of the
    first element whose price is not smaller. *)
Fixpoint insert_deal (d : Deal V) (l : list (Deal V)) : list (Deal V) :=
  match l with
  | [] => [d]
  | x :: l' => if price d <=? price x then d :: l else x :: insert_deal d l'
  end.

Definition sort_by_price (deals : list (Deal V)) : list (Deal V) :=
  fold_right insert_deal [] deals.

(** The report for an empty collection. *)
Definition no_deals_message : string :=
  "❌ *No Deals Found*" ++ nl ++ nl
  ++ "🛫 " ++ FROM_CITY cfg ++ " → " ++ TO_CITY cfg ++ nl
  ++ "📅 " ++ DATE_RANGE_START cfg ++ " to " ++ DATE_RANGE_END cfg ++ nl
  ++ "👥 " ++ str_of_int (PASSENGERS cfg) ++ " passengers" ++ nl
  ++ "💰 Target: ≤ ₹" ++ str_of_int (MAX_PRICE cfg) ++ "/person" ++ nl ++ nl
  ++ "💡 *Suggestions:*" ++ nl
  ++ "• Increase your budget in .env file" ++ nl
  ++ "• Try different dates" ++ nl
  ++ "• Check again later (prices change!)" ++ nl ++ nl
  ++ "_Using Amadeus API - Real prices from 400+ airlines_".

(** The head of the report, up to the title of the highlighted list. *)
Definition report_header (deals : list (Deal V)) : string :=
  "✈️ *FLIGHT DEALS FOUND!*" ++ nl
  ++ "━━━━━━━━━━━━━━━━━━━━" ++ nl ++ nl
  ++ "🛫 *" ++ FROM_CITY cfg ++ " (" ++ FROM_CODE cfg ++ ") → "
  ++ TO_CITY cfg ++ " (" ++ TO_CODE cfg ++ ")*" ++ nl
  ++ "📅 " ++ DATE_RANGE_START cfg ++ " to " ++ DATE_RANGE_END cfg ++ nl
  ++ "👥 " ++ str_of_int (PASSENGERS cfg) ++ " passengers" ++ nl
  ++ "🎯 *" ++ str_of_int (Z.of_nat (List.length deals)) ++ " deals* under ₹"
  ++ str_of_int (MAX_PRICE cfg) ++ nl ++ nl
  ++ "━━━━━━━━━━━━━━━━━━━━" ++ nl ++ nl
  ++ "*🏆 TOP 15 BEST DEALS:*" ++ nl ++ nl.

(** The text that one turn of the loop over [deals[:15]] adds. *)
Definition format_deal (i : Z) (deal : Deal V) : pyresult string :=
  date_obj <- strptime_ymd (date deal) ;;
  let formatted_date := strftime_bda date_obj in
  Ok ("*" ++ str_of_int i ++ ". ₹" ++ str_of_int (price deal) ++ "/person* ("
      ++ formatted_date ++ ")" ++ nl
      ++ "   💰 Total: ₹" ++ str_of_int_grouped (total_price deal) ++ " for "
      ++ str_of_int (PASSENGERS cfg) ++ " pax" ++ nl
      ++ "   ✈️ " ++ str_of (airline deal) ++ " (" ++ str_of (carrier_code deal) ++ ")"
      ++ (if stops deal =? 0 then " • Non-stop" ++ nl
          else " • " ++ str_of_int (stops deal) ++ " stop(s)" ++ nl)
      ++ "   🕐 Departs " ++ departure_time deal ++ " • " ++ duration deal ++ nl
      ++ "   💺 " ++ str_of (cabin_class deal) ++ nl ++ nl).

(** The loop [for i, deal in enumerate(deals[:15], 1)], started at rank
    [i] with the message built so far. *)
Fixpoint format_deals (i : Z) (top : list (Deal V)) (message : string)
  : pyresult string :=
  match top with
  | [] => Ok message
  | deal :: rest =>
      entry <- format_deal i deal ;;
      format_deals (i + 1) rest (message ++ entry)
  end.

(** The note on the deals beyond the highlighted ones. *)
Definition more_deals_note (deals : list (Deal V)) : string :=
  if (15 <? List.length deals)%nat
  then nl ++ "_...and " ++ str_of_int (Z.of_nat (List.length deals) - 15)
       ++ " more deals available!_" ++ nl
  else EmptyString.

(** [airline_counts[airline] = airline_counts.get(airline, 0) + 1] on a
    dictionary kept in insertion order. *)
Fixpoint count_airline (a : V) (counts : list (V * Z)) : list (V * Z) :=
  match counts with
  | [] => [(a, 1)]
  | (k, c) :: counts' =>
      if V_eq_dec k a then (k, c + 1) :: counts'
      else (k, c) :: count_airline a counts'
  end.

Definition airline_counts (deals : list (Deal V)) : list (V * Z) :=
  fold_left (fun counts deal => count_airline (airline deal) counts) deals [].

(** [max(items, key=lambda x: x[1])]: the scan keeps the first item among
    those with the greatest count. *)
Fixpoint max_by_count (best : V * Z) (items : list (V * Z)) : V * Z :=
  match items with
  | [] => best
  | x :: items' =>
      if snd best <? snd x then max_by_count x items'
      else max_by_count best items'
  end.

(** The line on the most frequent airline. *)
Definition most_deals_line (deals : list (Deal V)) : string :=
  match airline_counts deals with
  | [] => EmptyString
  | item :: items =>
      let best_airline := max_by_count item items in
      "✈️ Most deals: " ++ str_of (fst best_airline) ++ " ("
      ++ str_of_int (snd best_airline) ++ " flights)" ++ nl
  end.

(** [sum(1 for d in deals if d['stops'] == 0)]. *)
Definition nonstop_count (deals : list (Deal V)) : Z :=
  Z.of_nat (List.length (filter (fun d => stops d =? 0) deals)).

(** The line on the non-stop flights. *)
Definition nonstop_line (deals : list (Deal V)) : string :=
  let nonstop := nonstop_count deals in
  if 0 <? nonstop
  then "🚀 Non-stop flights: " ++ str_of_int nonstop ++ nl
  else EmptyString.

(** [sum(d['price'] for d in deals)]. *)
Definition sum_prices (deals : list (Deal V)) : Z :=
  fold_left (fun acc d => acc + price d) deals 0.

(** The statistics block and the closing lines. *)
Definition statistics (deals : list (Deal V)) : pyresult string :=
  best <- list_item deals 0 ;;
  avg <- int_truediv (sum_prices deals) (Z.of_nat (List.length deals)) ;;
  avg_int <- int_of_float avg ;;
  Ok (nl ++ "━━━━━━━━━━━━━━━━━━━━" ++ nl
      ++ "*📊 STATISTICS:*" ++ nl ++ nl
      ++ "🏆 Cheapest: ₹" ++ str_of_int (price best) ++ " ("
      ++ str_of (airline best) ++ ")" ++ nl
      ++ "📊 Average: ₹" ++ str_of_int avg_int ++ nl
      ++ most_deals_line deals
      ++ nonstop_line deals
      ++ nl ++ "🕐 Checked: " ++ checked_at ++ nl
      ++ "🌐 Source: Amadeus (400+ airlines)" ++ nl
      ++ "💡 Run again anytime to refresh prices").

(** The message for a non-empty collection that has been sorted. *)
Definition render_sorted (deals : list (Deal V)) : pyresult string :=
  message <- format_deals 1 (firstn 15 deals) (report_header deals) ;;
  let message := message ++ more_deals_note deals in
  stats <- statistics deals ;;
  Ok (message ++ stats).

(** [format_results_message(deals)]: the first component is the list
    object [deals] as the call leaves it, the second what the call returns
    or raises. *)
Definition format_results_message (deals : list (Deal V))
  : list (Deal V) * pyresult string :=
  match deals with
  | [] => (deals, Ok no_deals_message)
  | _ =>
      let deals := sort_by_price deals in
      (deals, render_sorted deals)
  end.

End Reporting.


(** * The rest of the module *)

(** ** Validation of the credentials *)

(** The attributes of the class [Config] that [validate] reads: each is
    what [os.getenv] returned, a string or [None]. *)
Record Credentials : Type := {
  TELEGRAM_BOT_TOKEN : option string;
  TELEGRAM_CHAT_ID : option string;
  AMADEUS_API_KEY : option string;
  AMADEUS_API_SECRET : option string
}.

(** [not v or v == placeholder]. *)
Definition unset_or_placeholder (v : option string) (placeholder : string)
  : bool :=
  match v with
  | None => true
  | Some s => String.eqb s EmptyString || String.eqb s placeholder
  end.

Definition bot_token_error : string :=
  "❌ TELEGRAM_BOT_TOKEN not set in .env file".
Definition chat_id_error : string :=
  "❌ TELEGRAM_CHAT_ID not set in .env file".
Definition api_key_error : string :=
  "❌ AMADEUS_API_KEY not set in .env file".
Definition api_secret_error : string :=
  "❌ AMADEUS_API_SECRET not set in .env file".

(** [Config.validate()]. *)
Definition validate (c : Credentials) : list string :=
  let errors := [] in
  let errors :=
    if unset_or_placeholder (TELEGRAM_BOT_TOKEN c) "your_bot_token_here"
    then (errors ++ [bot_token_error])%list else errors in
  let errors :=
    if unset_or_placeholder (TELEGRAM_CHAT_ID c) "your_chat_id_here"
    then (errors ++ [chat_id_error])%list else errors in
  let errors :=
    if unset_or_placeholder (AMADEUS_API_KEY c) "your_amadeus_api_key_here"
    then (errors ++ [api_key_error])%list else errors in
  let errors :=
    if unset_or_placeholder (AMADEUS_API_SECRET c)
         "your_amadeus_api_secret_here"
    then (errors ++ [api_secret_error])%list else errors in
  errors.

(** ** The dates of the range *)

(** A [datetime] at midnight: year, month, day. *)
Definition calendar_day : Type := (Z * Z * Z)%type.

(** [a <= b] for two datetimes: the fields are compared in order. *)
Definition date_leb (a b : calendar_day) : bool :=
  let '(y1, m1, d1) := a in
  let '(y2, m2, d2) := b in
  (y1 <? y2) || (y1 =? y2) && ((m1 <? m2) || (m1 =? m2) && (d1 <=? d2)).

(** [current + timedelta(days=1)]: the next day of the calendar; there is
    no day after 9999-12-31, the addition raises [OverflowError]. *)
Definition add_one_day (current : calendar_day) : pyresult calendar_day :=
  let '(y, m, d) := current in
  if d <? days_in_month y m then Ok (y, m, d + 1)
  else if m <? 12 then Ok (y, m + 1, 1)
  else if y <? 9999 then Ok (y + 1, 1, 1)
  else Raise OverflowError.

(** A field of two digits, padded with a zero. *)
Definition pad2 (n : Z) : string :=
  (if n <? 10 then "0" else EmptyString) ++ str_of_int n.

(** [strftime('%Y-%m-%d')].  The year is printed without padding, as
    glibc prints it; other platforms pad a year below 1000 with zeros, and
    from the year 1000 on every platform prints the same four digits. *)
Definition strftime_ymd (date : calendar_day) : string :=
  let '(y, m, d) := date in
  str_of_int y ++ "-" ++ pad2 m ++ "-" ++ pad2 d.

(** The [while] loop of [generate_dates_in_range]: [fuel] bounds the
    number of times the condition is tested; [None] when it runs out. *)
Fixpoint dates_loop (fuel : nat) (current end_ : calendar_day)
  (dates : list string) : option (pyresult (list string)) :=
  match fuel with
  | O => None
  | S fuel' =>
      if date_leb current end_ then
        let dates := (dates ++ [strftime_ymd current])%list in
        match add_one_day current with
        | Ok next => dates_loop fuel' next end_ dates
        | Raise e => Some (Raise e)
        end
      else Some (Ok dates)
  end.

(** [generate_dates_in_range()]. *)
Definition generate_dates_in_range (fuel : nat) (cfg : Config)
  : option (pyresult (list string)) :=
  match strptime_ymd (DATE_RANGE_START cfg) with
  | Raise e => Some (Raise e)
  | Ok start =>
      match strptime_ymd (DATE_RANGE_END cfg) with
      | Raise e => Some (Raise e)
      | Ok end_ => dates_loop fuel start end_ []
      end
  end.

(** ** The search over the dates *)

(** What happens inside [search_flights_amadeus] for one date: no client
    could be built, the request returned data, it raised [ResponseError],
    or it raised another exception. *)
Inductive search_outcome : Type :=
| NoClient
| SearchData (data : pyval)
| SearchResponseError
| SearchRaises (e : exn).

(** What the loop of [search_all_dates] does in a turn: it calls
    [search_flights_amadeus] for a date, and it sleeps for a second. *)
Inductive event : Type :=
| Queried (date : string)
| Slept.

Section Search.

Variable float_of_str : string -> pyresult float.
Variable cfg : Config.
(** The provider: the outcome of the search number [k] of the run (counted
    from 0) when it asks for [date]. *)
Variable provider : nat -> string -> search_outcome.

(** [search_flights_amadeus(date)], as the search number [k] of the run. *)
Definition search_flights_amadeus (k : nat) (date : string)
  : list (Deal pyval) :=
  match provider k date with
  | NoClient => []
  | SearchData data => parse_amadeus_response float_of_str cfg data date
  | SearchResponseError => []
  | SearchRaises _ => []
  end.

(** The [for] loop of [search_all_dates] from the date number [i] on
    (counted from 1, as [enumerate(dates, 1)] does); [n] is [len(dates)],
    [all_deals] and [trace] are the deals and the events so far. *)
Fixpoint search_dates_from (i n : nat) (dates : list string)
  (all_deals : list (Deal pyval)) (trace : list event)
  : list (Deal pyval) * list event :=
  match dates with
  | [] => (all_deals, trace)
  | date :: rest =>
      let deals := search_flights_amadeus (Nat.pred i) date in
      let trace := (trace ++ [Queried date])%list in
      let all_deals := (all_deals ++ deals)%list in
      let trace := if (i <? n)%nat then (trace ++ [Slept])%list else trace in
      search_dates_from (S i) n rest all_deals trace
  end.

(** The loop over a list of dates. *)
Definition search_dates (dates : list string)
  : list (Deal pyval) * list event :=
  search_dates_from 1 (List.length dates) dates [] [].

(** [search_all_dates()]: the deals found and the events of the run. *)
Definition search_all_dates (fuel : nat)
  : option (pyresult (list (Deal pyval) * list event)) :=
  match generate_dates_in_range fuel cfg with
  | None => None
  | Some (Raise e) => Some (Raise e)
  | Some (Ok dates) => Some (Ok (search_dates dates))
  end.

End Search.

(** * Vocabulary of the properties *)

(** ** Strings and decimal text *)

Fixpoint str_forall (P : ascii -> bool) (s : string) : bool :=
  match s with
  | EmptyString => true
  | String c s' => P c && str_forall P s'
  end.

Definition differs_from (x : ascii) (c : ascii) : bool := negb (Ascii.eqb c x).

(** ["".join(parts)]. *)
Definition str_concat (parts : list string) : string :=
  fold_right append EmptyString parts.

(** The text of a group of lines, each followed by a newline. *)
Definition join_lines (lines : list string) : string :=
  str_concat (map (fun line => line ++ nl) lines).

Fixpoint str_repeat (c : ascii) (n : nat) : string :=
  match n with
  | O => EmptyString
  | S k => String c (str_repeat c k)
  end.

(** The value of a run of decimal digits read after [acc]. *)
Fixpoint horner (d : Decimal.uint) (acc : Z) : Z :=
  match d with
  | Decimal.Nil => acc
  | Decimal.D0 d' => horner d' (10 * acc)
  | Decimal.D1 d' => horner d' (10 * acc + 1)
  | Decimal.D2 d' => horner d' (10 * acc + 2)
  | Decimal.D3 d' => horner d' (10 * acc + 3)
  | Decimal.D4 d' => horner d' (10 * acc + 4)
  | Decimal.D5 d' => horner d' (10 * acc + 5)
  | Decimal.D6 d' => horner d' (10 * acc + 6)
  | Decimal.D7 d' => horner d' (10 * acc + 7)
  | Decimal.D8 d' => horner d' (10 * acc + 8)
  | Decimal.D9 d' => horner d' (10 * acc + 9)
  end.

(** The decimal text of a natural number. *)
Definition dec (n : N) : string := NilZero.string_of_uint (N.to_uint n).

(** ** Duration tokens *)

(** A duration token [PT{h}H{m}M], either component optional. *)
Definition duration_token (h m : option N) : string :=
  "PT" ++ match h with Some h => dec h ++ "H" | None => EmptyString end
       ++ match m with Some m => dec m ++ "M" | None => EmptyString end.

Definition component (x : option N) : Z :=
  match x with
  | Some n => Z.of_N n
  | None => 0
  end.

(** The component, when present, has no more digits than [int()]
    converts. *)
Definition within_cap (x : option N) : Prop :=
  match x with
  | Some n => (String.length (dec n) <= max_str_digits)%nat
  | None => True
  end.

(** A token of one component of [n] digits 1, hours or minutes. *)
Definition long_token (unit : ascii) (n : nat) : string :=
  "PT" ++ str_repeat "1" n ++ String unit EmptyString.

(** ** Floats *)

(** Zero or a finite number: neither an infinity nor a NaN. *)
Definition is_finite (f : float) : bool :=
  match f with
  | S754_zero _ | S754_finite _ _ _ => true
  | _ => false
  end.

(** ** Offers *)

Section NormaliserVocabulary.

Variable float_of_str : string -> pyresult float.
Variable cfg : Config.
Variable date : string.

(** What the per-offer reading asks for: an offer whose body raises is
    passed over, every other offer contributes its deal, if it has one. *)
Definition isolated_deals (offers : list pyval) : list (Deal pyval) :=
  flat_map (fun offer =>
              match parse_offer float_of_str cfg date offer with
              | Ok (Some deal) => [deal]
              | _ => []
              end) offers.

(** The body of the loop raises for [offer]. *)
Definition raises (offer : pyval) : Prop :=
  exists e, parse_offer float_of_str cfg date offer = Raise e.

End NormaliserVocabulary.

(** ** Deals and reports *)

(** [enumerate(l, i)]. *)
Fixpoint enumerate_from {A : Type} (i : Z) (l : list A) : list (Z * A) :=
  match l with
  | [] => []
  | x :: l' => (i, x) :: enumerate_from (i + 1) l'
  end.

Section ReportVocabulary.

Context {V : Type}.
Variable V_eq_dec : forall a b : V, {a = b} + {a <> b}.
Variable str_of : V -> string.
Variable cfg : Config.
Variable checked_at : string.

Definition price_le (a b : Deal V) : Prop := price a <= price b.

Definition same_price (p : Z) (d : Deal V) : bool := price d =? p.

(** The date of the deal is a date of the calendar, written [YYYY-MM-DD]. *)
Definition valid_date (d : Deal V) : Prop :=
  exists ymd, strptime_ymd (date d) = Ok ymd.

(** [int(sum(prices) / len(deals))]. *)
Definition mean_price (deals : list (Deal V)) : pyresult Z :=
  avg <- int_truediv (sum_prices deals) (Z.of_nat (List.length deals)) ;;
  int_of_float avg.

(** The entry of rank [fst ranked] for the deal [snd ranked] is [entry]. *)
Definition is_entry (ranked : Z * Deal V) (entry : string) : Prop :=
  format_deal str_of cfg (fst ranked) (snd ranked) = Ok entry.


(** The lines of the statistics block before the line on the airlines. *)
Definition statistics_head (best : Deal V) (avg : Z) : string :=
  nl ++ "━━━━━━━━━━━━━━━━━━━━" ++ nl
  ++ "*📊 STATISTICS:*" ++ nl ++ nl
  ++ "🏆 Cheapest: ₹" ++ str_of_int (price best) ++ " ("
  ++ str_of (airline best) ++ ")" ++ nl
  ++ "📊 Average: ₹" ++ str_of_int avg ++ nl.

(** The closing lines of the report. *)
Definition statistics_tail : string :=
  nl ++ "🕐 Checked: " ++ checked_at ++ nl
  ++ "🌐 Source: Amadeus (400+ airlines)" ++ nl
  ++ "💡 Run again anytime to refresh prices".

Definition same_airline (a : V) (d : Deal V) : bool :=
  if V_eq_dec (airline d) a then true else false.

(** The number of deals of [l] whose airline is [a]. *)
Definition occurrences (a : V) (l : list (Deal V)) : Z :=
  Z.of_nat (List.length (filter (same_airline a) l)).

End ReportVocabulary.

(** ** Inputs on which the code is evaluated *)

(** The endpoint that answers every delivery call with status 500. *)
Definition post_rejects (k : nat) (text : string) : post_outcome :=
  Response 500 "Internal Server Error".

(** Two lines of 3000 characters: 6001 characters in all. *)
Definition two_long_lines : string :=
  str_repeat "a" 3000 ++ nl ++ str_repeat "b" 3000.

Definition sample_config : Config :=
  {| FROM_CITY := "Hyderabad"; FROM_CODE := "HYD";
     TO_CITY := "Varanasi"; TO_CODE := "VNS";
     DATE_RANGE_START := "2026-02-01"; DATE_RANGE_END := "2026-02-15";
     PASSENGERS := 5; MAX_PRICE := 1000 |}.

(** The sample configuration with no passenger. *)
Definition no_passenger_config : Config :=
  {| FROM_CITY := "Hyderabad"; FROM_CODE := "HYD";
     TO_CITY := "Varanasi"; TO_CODE := "VNS";
     DATE_RANGE_START := "2026-02-01"; DATE_RANGE_END := "2026-02-15";
     PASSENGERS := 0; MAX_PRICE := 1000 |}.

(** An offer of one itinerary with one segment, as the API sends it. *)
Definition sample_offer (total carrier : string) : pyval :=
  VDict
    [("price", VDict [("total", VStr total)]);
     ("itineraries",
      VList
        [VDict
           [("duration", VStr "PT2H5M");
            ("segments",
             VList
               [VDict
                  [("carrierCode", VStr carrier);
                   ("departure", VDict [("at", VStr "2026-02-01T06:30:00")]);
                   ("arrival", VDict [("at", VStr "2026-02-01T08:35:00")]);
                   ("cabin", VStr "ECONOMY")]])]])].

(** An offer whose total price is not a number, and a well-formed one. *)
Definition malformed_offer : pyval := sample_offer "n/a" "6E".
Definition cheap_offer : pyval := sample_offer "2500.00" "AI".

Definition sample_deal (day : string) (p : Z) (name : string) (n_stops : Z)
  : Deal string :=
  {| date := day; price := p; total_price := 5 * p;
     airline := name; carrier_code := "XX";
     duration := "2h 5m"; stops := n_stops;
     departure_time := "06:30"; cabin_class := "ECONOMY";
     source := "Amadeus" |}.

Definition sample_time : string := "10:00 AM, Feb 01, 2026".

(** Twenty deals of one day, in the order in which they were found. *)
Definition twenty_deals : list (Deal string) :=
  map (fun p => sample_deal "2026-02-01" p "IndiGo" 0)
    [900; 850; 990; 410; 700; 655; 820; 730; 999; 505;
     450; 610; 780; 560; 940; 875; 690; 515; 760; 600].

(** Three deals, two of one airline; none of them is non-stop. *)
Definition three_deals : list (Deal string) :=
  [sample_deal "2026-02-03" 300 "B" 1;
   sample_deal "2026-02-01" 100 "A" 2;
   sample_deal "2026-02-02" 200 "A" 1].

(** ** Dates, searches and credentials *)

(** The ordinal of a date: 1 for 0001-01-01. *)
Definition ordinal (date : calendar_day) : Z :=
  let '(y, m, d) := date in ymd2ord y m d.

(** A date of the calendar of [datetime]. *)
Definition valid_ymd (date : calendar_day) : Prop :=
  let '(y, m, d) := date in
  1 <= y <= 9999 /\ 1 <= m <= 12 /\ 1 <= d <= days_in_month y m.

Definition year_of (date : calendar_day) : Z := fst (fst date).

(** [n] consecutive days from [start] on. *)
Fixpoint days_from (n : nat) (start : calendar_day) : list calendar_day :=
  match n with
  | O => []
  | S k =>
      start :: match add_one_day start with
               | Ok next => days_from k next
               | Raise _ => []
               end
  end.

(** One search for each date, a pause between two searches. *)
Definition queries_with_pauses (dates : list string) : list event :=
  match dates with
  | [] => []
  | date :: rest =>
      Queried date :: flat_map (fun d => [Slept; Queried d]) rest
  end.

(** A credential that [validate] accepts: set, not empty, not the
    placeholder of the template. *)
Definition credential_set (v : option string) (placeholder : string) : Prop :=
  exists s, v = Some s /\ s <> EmptyString /\ s <> placeholder.

(** The last day of the calendar. *)
Definition last_day : calendar_day := (9999, 12, 31).

(** The sample configuration with the bounds exchanged. *)
Definition reversed_config : Config :=
  {| FROM_CITY := "Hyderabad"; FROM_CODE := "HYD";
     TO_CITY := "Varanasi"; TO_CODE := "VNS";
     DATE_RANGE_START := "2026-02-15"; DATE_RANGE_END := "2026-02-01";
     PASSENGERS := 5; MAX_PRICE := 1000 |}.

(** The sample configuration over the last two days of the calendar. *)
Definition end_of_calendar_config : Config :=
  {| FROM_CITY := "Hyderabad"; FROM_CODE := "HYD";
     TO_CITY := "Varanasi"; TO_CODE := "VNS";
     DATE_RANGE_START := "9999-12-30"; DATE_RANGE_END := "9999-12-31";
     PASSENGERS := 5; MAX_PRICE := 1000 |}.

(** The strict order of the fields. *)
Definition date_ltb (a b : calendar_day) : bool := negb (date_leb b a).

(** The fields that [strftime] prints are read back by [strptime];
    checked on every year from 1000 to 9999 and on every number from 1 to
    31. *)
Definition year_text_ok (y : Z) : bool :=
  str_forall (differs_from "-") (str_of_int y) &&
  match year_field (str_of_int y) with
  | Some y' => y' =? y
  | None => false
  end.

Definition field_text_ok (n : Z) : bool :=
  str_forall (differs_from "-") (pad2 n) &&
  match day_field (pad2 n) with
  | Some n' => n' =? n
  | None => false
  end &&
  ((12 <? n) ||
   match month_field (pad2 n) with
   | Some n' => n' =? n
   | None => false
   end).

(** The four messages of [validate], in the order of its tests. *)
Definition credential_errors : list string :=
  [bot_token_error; chat_id_error; api_key_error; api_secret_error].

(** The credential that the message [e] is about is missing. *)
Definition credential_missing (c : Credentials) (e : string) : bool :=
  (String.eqb e bot_token_error &&
   unset_or_placeholder (TELEGRAM_BOT_TOKEN c) "your_bot_token_here") ||
  (String.eqb e chat_id_error &&
   unset_or_placeholder (TELEGRAM_CHAT_ID c) "your_chat_id_here") ||
  (String.eqb e api_key_error &&
   unset_or_placeholder (AMADEUS_API_KEY c) "your_amadeus_api_key_here") ||
  (String.eqb e api_secret_error &&
   unset_or_placeholder (AMADEUS_API_SECRET c) "your_amadeus_api_secret_here").

(** The searches of a run: the search number [k] asks for the [k]-th
    date. *)
Definition numbered (dates : list string) : list (nat * string) :=
  combine (seq 0 (List.length dates)) dates.

Definition is_search (e : event) : bool :=
  match e with
  | Queried _ => true
  | Slept => false
  end.

(** The number of searches and the number of pauses of a run. *)
Definition searches (trace : list event) : nat :=
  List.length (filter is_search trace).

Definition pauses (trace : list event) : nat :=
  List.length (filter (fun e => negb (is_search e)) trace).

(** What every deal of the normaliser satisfies, for the date [day] of the
    request. *)
Definition deal_of_request (cfg : Config) (day : string) (deal : Deal pyval)
  : Prop :=
  date deal = day /\
  source deal = "Amadeus" /\
  price deal <= MAX_PRICE cfg /\
  0 <= stops deal /\
  get_airline_name (carrier_code deal) = Ok (airline deal).

(** [offer['itineraries'][0]['segments']]. *)
Definition first_segments (offer : pyval) : pyresult pyval :=
  itineraries <- py_get offer "itineraries" (VList []) ;;
  first_itinerary <- py_first itineraries ;;
  py_get first_itinerary "segments" (VList []).

(** The offers of a batch. *)
Definition batch_member (data offer : pyval) : Prop :=
  match py_iter data with
  | Ok offers => In offer offers
  | Raise _ => False
  end.

(** The deal was built from [offer] for the request of [day]: beside what
    every deal satisfies, its number of stops is the number of segments of
    the first itinerary of the offer less one. *)
Definition deal_of_offer (cfg : Config) (day : string) (offer : pyval)
  (deal : Deal pyval) : Prop :=
  deal_of_request cfg day deal /\
  exists segments n_segments,
    first_segments offer = Ok segments /\
    py_len segments = Ok n_segments /\
    stops deal = n_segments - 1.

(** A provider that fails on every second search. *)
Definition flaky_provider (k : nat) (day : string) : search_outcome :=
  if Nat.even k then SearchData (VList [cheap_offer]) else SearchResponseError.

(** Two deals; the date of the cheaper one is not a date. *)
Definition undated_deals : list (Deal string) :=
  [sample_deal "2026-02-01" 300 "B" 1;
   sample_deal "tomorrow" 100 "A" 0].

(** A text of ASCII characters. *)
Definition ascii_text (s : string) : Prop :=
  str_forall (fun c => (nat_of_ascii c <? 128)%nat) s = true.

(** * Properties *)

(** ** Strings *)

Lemma str_app_assoc (a b c : string) : (a ++ b) ++ c = a ++ (b ++ c).
Proof. induction a as [|x a IH]; simpl; [reflexivity | now rewrite IH]. Qed.

Lemma str_app_nil_r (a : string) : a ++ "" = a.
Proof. induction a as [|x a IH]; simpl; [reflexivity | now rewrite IH]. Qed.

Lemma str_length_app (a b : string) :
  String.length (a ++ b) = (String.length a + String.length b)%nat.
Proof. induction a as [|x a IH]; simpl; [reflexivity | now rewrite IH]. Qed.

Lemma str_forall_app P a b :
  str_forall P (a ++ b) = str_forall P a && str_forall P b.
Proof.
  induction a as [|x a IH]; simpl; [reflexivity |].
  now rewrite IH, andb_assoc.
Qed.

Lemma str_forall_impl (P Q : ascii -> bool) s :
  (forall c, P c = true -> Q c = true) ->
  str_forall P s = true -> str_forall Q s = true.
Proof.
  intros HPQ. induction s as [|c s IH]; simpl; [reflexivity |].
  rewrite !andb_true_iff. intros [Hc Hs]. split; auto.
Qed.

Lemma prefix_nil (b : string) : prefix "" b = true.
Proof. destruct b; reflexivity. Qed.

Lemma prefix_refl_app (x b : string) : prefix x (x ++ b) = true.
Proof.
  induction x as [|c x IH]; simpl; [apply prefix_nil |].
  destruct (ascii_dec c c) as [_|N]; [exact IH | now destruct N].
Qed.

Lemma str_in_prefix (x h : string) : prefix x h = true -> str_in x h = true.
Proof. intros H. destruct h; cbn [str_in]; rewrite H; reflexivity. Qed.

Lemma str_in_here (x b : string) : str_in x (x ++ b) = true.
Proof. apply str_in_prefix, prefix_refl_app. Qed.

Lemma str_in_app_r (x a b : string) :
  str_in x b = true -> str_in x (a ++ b) = true.
Proof.
  intros H. induction a as [|c a IH]; simpl; [exact H |].
  rewrite IH. apply orb_true_r.
Qed.



(** A string is found inside any text built around it. *)
Lemma str_in_middle (x a b : string) : str_in x (a ++ x ++ b) = true.
Proof. apply str_in_app_r, str_in_here. Qed.

Lemma str_in_absent (x : ascii) (s : string) :
  str_forall (differs_from x) s = true -> str_in (String x "") s = false.
Proof.
  induction s as [|c s IH]; simpl; [reflexivity |].
  rewrite andb_true_iff. intros [Hc Hs]. rewrite (IH Hs), orb_false_r.
  unfold differs_from in Hc. apply negb_true_iff, Ascii.eqb_neq in Hc.
  destruct (ascii_dec x c); [subst; now destruct Hc | reflexivity].
Qed.

Lemma str_split_absent (x : ascii) (s : string) :
  str_forall (differs_from x) s = true -> str_split x s = [s].
Proof.
  induction s as [|c s IH]; simpl; [reflexivity |].
  rewrite andb_true_iff. intros [Hc Hs]. rewrite (IH Hs).
  unfold differs_from in Hc. apply negb_true_iff in Hc. now rewrite Hc.
Qed.

Lemma str_split_at (x : ascii) (a b : string) :
  str_forall (differs_from x) a = true ->
  str_split x (a ++ String x b) = a :: str_split x b.
Proof.
  induction a as [|c a IH]; simpl.
  - intros _. now rewrite Ascii.eqb_refl.
  - rewrite andb_true_iff. intros [Hc Ha]. rewrite (IH Ha).
    unfold differs_from in Hc. apply negb_true_iff in Hc. now rewrite Hc.
Qed.

Lemma str_replace_absent (o : ascii) (old new s : string) :
  str_forall (differs_from o) s = true ->
  str_replace (String o old) new s = s.
Proof.
  unfold str_replace.
  induction s as [|c s IH]; [reflexivity |].
  cbn [str_forall str_replace_from]. rewrite andb_true_iff. intros [Hc Hs].
  unfold differs_from in Hc. apply negb_true_iff, Ascii.eqb_neq in Hc.
  cbn [prefix]. destruct (ascii_dec o c); [subst; now destruct Hc |].
  now rewrite (IH Hs).
Qed.

Lemma str_replace_trailing (o : ascii) (s : string) :
  str_forall (differs_from o) s = true ->
  str_replace (String o "") "" (s ++ String o "") = s.
Proof.
  unfold str_replace.
  induction s as [|c s IH].
  - intros _. cbn. destruct (ascii_dec o o) as [_|N]; [reflexivity | now destruct N].
  - cbn [str_forall append str_replace_from]. rewrite andb_true_iff. intros [Hc Hs].
    unfold differs_from in Hc. apply negb_true_iff, Ascii.eqb_neq in Hc.
    cbn [prefix]. destruct (ascii_dec o c); [subst; now destruct Hc |].
    now rewrite (IH Hs).
Qed.

(** ** Decimal text of integers *)

Lemma horner_of_uint_acc (d : Decimal.uint) (acc : positive) :
  horner d (Zpos acc) = Zpos (Pos.of_uint_acc d acc).
Proof.
  revert acc. induction d; intros acc; cbn [horner Pos.of_uint_acc];
    try reflexivity;
    match goal with
    | |- horner _ ?a = Zpos (Pos.of_uint_acc _ ?b) =>
        replace a with (Zpos b) by lia; apply IHd
    end.
Qed.

Lemma horner_of_uint (d : Decimal.uint) :
  horner d 0 = Z.of_N (Pos.of_uint d).
Proof.
  induction d; cbn [horner Pos.of_uint Z.of_N]; try reflexivity;
    try (rewrite <- (horner_of_uint_acc d); reflexivity).
  exact IHd.
Qed.

Lemma int_digits_step (b : bool) (c : ascii) (k acc : Z) (s : string) :
  digit_of_ascii c = Some k ->
  int_digits b acc (String c s) = int_digits true (10 * acc + k) s.
Proof. intros H. cbn [int_digits]. now rewrite H. Qed.

Lemma int_digits_uint (d : Decimal.uint) (acc : Z) :
  int_digits true acc (NilEmpty.string_of_uint d) = Some (horner d acc).
Proof.
  revert acc. induction d; intros acc; cbn [NilEmpty.string_of_uint horner];
    try reflexivity;
    erewrite int_digits_step by reflexivity;
    rewrite IHd;
    match goal with
    | |- Some (horner _ (10 * _ + ?k)) = _ =>
        let v := eval vm_compute in k in change k with v
    end;
    f_equal; f_equal; lia.
Qed.

Lemma int_digits_first (s : string) (acc : Z) :
  s <> "" -> str_forall is_digit s = true ->
  int_digits false acc s = int_digits true acc s.
Proof.
  destruct s as [|c s]; [congruence |]. intros _. cbn [str_forall int_digits].
  unfold is_digit. destruct (digit_of_ascii c); [reflexivity | discriminate].
Qed.

Lemma uint_digits (d : Decimal.uint) :
  str_forall is_digit (NilEmpty.string_of_uint d) = true.
Proof. induction d; cbn [NilEmpty.string_of_uint str_forall]; auto. Qed.

Lemma dec_cases (n : N) :
  dec n = "0" /\ n = 0%N \/
  exists d, d <> Decimal.Nil /\ dec n = NilEmpty.string_of_uint d /\ N.of_uint d = n.
Proof.
  unfold dec. destruct (N.to_uint n) eqn:E.
  1: { left. split; [reflexivity |].
       rewrite <- (DecimalN.Unsigned.of_to n), E. reflexivity. }
  all: right; eexists; split; [| split; [reflexivity |]];
    [discriminate | rewrite <- E; apply DecimalN.Unsigned.of_to].
Qed.

Lemma dec_digits (n : N) : str_forall is_digit (dec n) = true.
Proof.
  destruct (dec_cases n) as [[E _] | (d & _ & E & _)]; rewrite E;
    [reflexivity | apply uint_digits].
Qed.

Lemma dec_not_empty (n : N) : dec n <> "".
Proof.
  destruct (dec_cases n) as [[E _] | (d & Hd & E & _)]; rewrite E;
    [discriminate |].
  destruct d; try discriminate. now destruct Hd.
Qed.

Lemma int_digits_dec (n : N) : int_digits false 0 (dec n) = Some (Z.of_N n).
Proof.
  destruct (dec_cases n) as [[E ->] | (d & Hd & E & <-)].
  - rewrite E. reflexivity.
  - rewrite int_digits_first by (try apply dec_not_empty; apply dec_digits).
    rewrite E, int_digits_uint, horner_of_uint. reflexivity.
Qed.

Lemma digit_not_space (c : ascii) : is_digit c = true -> is_space c = false.
Proof.
  unfold is_digit, digit_of_ascii, is_space.
  destruct ((48 <=? nat_of_ascii c)%nat && (nat_of_ascii c <=? 57)%nat) eqn:E;
    [| discriminate].
  intros _. apply andb_true_iff in E as [E1 E2].
  apply Nat.leb_le in E1. apply Nat.leb_le in E2.
  repeat (apply orb_false_iff; split).
  - apply andb_false_iff. right. apply Nat.leb_gt. lia.
  - apply Nat.eqb_neq. lia.
  - apply Nat.eqb_neq. lia.
  - apply Nat.eqb_neq. lia.
Qed.

Lemma str_rstrip_digits (s : string) :
  str_forall is_digit s = true -> str_rstrip s = s.
Proof.
  induction s as [|c s IH]; [reflexivity |].
  cbn [str_forall str_rstrip]. rewrite andb_true_iff. intros [Hc Hs].
  rewrite (IH Hs). destruct s; [| reflexivity].
  now rewrite (digit_not_space c Hc).
Qed.

Lemma str_strip_digits (s : string) :
  str_forall is_digit s = true -> str_strip s = s.
Proof.
  intros H. unfold str_strip.
  replace (str_lstrip s) with s; [now apply str_rstrip_digits |].
  destruct s as [|c s]; [reflexivity |]. cbn [str_forall] in H.
  apply andb_true_iff in H as [Hc _].
  cbn [str_lstrip]. now rewrite (digit_not_space c Hc).
Qed.

Lemma count_digits_all (s : string) :
  str_forall is_digit s = true -> count_digits s = String.length s.
Proof.
  induction s as [|c s IH]; [reflexivity |].
  cbn [str_forall count_digits String.length]. unfold is_digit at 1.
  destruct (digit_of_ascii c); [| discriminate].
  intros H. now rewrite (IH H).
Qed.

(** [int()] on the decimal text of a natural number: the number when the
    text is within the limit, [ValueError] beyond it. *)
Lemma int_of_str_dec_cases (n : N) :
  int_of_str (dec n)
  = if (max_str_digits <? String.length (dec n))%nat then Raise ValueError
    else Ok (Z.of_N n).
Proof.
  unfold int_of_str. rewrite (str_strip_digits _ (dec_digits n)).
  pose proof (dec_digits n) as Hd. pose proof (int_digits_dec n) as Hv.
  pose proof (count_digits_all _ Hd) as Hc'.
  destruct (dec n) as [|c s] eqn:E; [discriminate Hv |].
  cbn [str_forall] in Hd. apply andb_true_iff in Hd as [Hc _].
  assert (c <> "-"%char /\ c <> "+"%char) as [N1 N2].
  { split; intros ->; discriminate Hc. }
  destruct c as [[] [] [] [] [] [] [] []]; try (now destruct N1); try (now destruct N2);
    cbv beta iota; rewrite Hv, Hc'; reflexivity.
Qed.

(** [int(str(n)) = n] for a natural number within the limit. *)
Lemma int_of_str_dec (n : N) :
  (String.length (dec n) <= max_str_digits)%nat ->
  int_of_str (dec n) = Ok (Z.of_N n).
Proof.
  intros H. rewrite int_of_str_dec_cases. apply Nat.ltb_ge in H.
  now rewrite H.
Qed.

Lemma int_of_str_dec_beyond (n : N) :
  (max_str_digits < String.length (dec n))%nat ->
  int_of_str (dec n) = Raise ValueError.
Proof.
  intros H. rewrite int_of_str_dec_cases. apply Nat.ltb_lt in H.
  now rewrite H.
Qed.

Lemma digits_differ (x : ascii) (s : string) :
  is_digit x = false ->
  str_forall is_digit s = true -> str_forall (differs_from x) s = true.
Proof.
  intros Hx. apply str_forall_impl. intros c Hc. unfold differs_from.
  apply negb_true_iff, Ascii.eqb_neq. intros ->. congruence.
Qed.

(** ** Airline code resolver *)

Lemma assoc_In {A : Type} (key : string) (d : list (string * A)) (v : A) :
  assoc key d = Some v -> In (key, v) d.
Proof.
  induction d as [|[k x] d IH]; cbn [assoc]; [discriminate |].
  destruct (String.eqb_spec k key) as [->|N].
  - intros [= ->]. now left.
  - intros H. right. auto.
Qed.

Lemma airlines_lookup (code name : string) :
  In (code, name) airlines -> assoc code airlines = Some name.
Proof.
  unfold airlines. cbn [In].
  intros H. repeat destruct H as [[= <- <-] | H]; try reflexivity. destruct H.
Qed.

Lemma airlines_names_are_not_codes (code name : string) :
  In (code, name) airlines -> assoc name airlines = None.
Proof.
  unfold airlines. cbn [In].
  intros H. repeat destruct H as [[= <- <-] | H]; try reflexivity. destruct H.
Qed.

(** C8: for every carrier code of the static table [get_airline_name]
    returns the mapped display name, for every other string it returns the
    string unchanged, and resolving twice gives the same as resolving once,
    for every input (a value that cannot be a dictionary key raises both
    times). *)
Theorem get_airline_name_resolves :
  (forall code name, In (code, name) airlines ->
     get_airline_name (VStr code) = Ok (VStr name)) /\
  (forall code, (forall name, ~ In (code, name) airlines) ->
     get_airline_name (VStr code) = Ok (VStr code)) /\
  (forall code, exists name, get_airline_name (VStr code) = Ok (VStr name)) /\
  (forall x, bind (get_airline_name x) get_airline_name = get_airline_name x).
Proof.
  repeat split.
  - intros code name H. unfold get_airline_name.
    now rewrite (airlines_lookup code name H).
  - intros code H. unfold get_airline_name.
    destruct (assoc code airlines) as [name|] eqn:E; [| reflexivity].
    apply assoc_In in E. now destruct (H name).
  - intros code. unfold get_airline_name.
    destruct (assoc code airlines); eauto.
  - intros [| b | z | f | s | l | d]; try reflexivity.
    cbn [get_airline_name bind].
    destruct (assoc s airlines) as [name|] eqn:E.
    + cbn [get_airline_name].
      now rewrite (airlines_names_are_not_codes s name (assoc_In _ _ _ E)).
    + cbn [get_airline_name]. now rewrite E.
Qed.

(** ** Duration parser *)

Lemma str_replace_leading (old rest : string) :
  old <> "" ->
  str_replace old "" (old ++ rest) = str_replace old "" rest.
Proof.
  intros Hold. unfold str_replace.
  assert (forall pre s, str_replace_from old "" (String.length pre) (pre ++ s)
                        = str_replace_from old "" 0 s) as Hskip.
  { induction pre as [|c pre IH]; intros s; [reflexivity | apply IH]. }
  destruct old as [|c old]; [congruence |].
  change (String c old ++ rest) with (String c (old ++ rest)).
  cbn [str_replace_from].
  change (String c (old ++ rest)) with (String c old ++ rest).
  rewrite prefix_refl_app. cbn [String.length Nat.pred append]. apply Hskip.
Qed.

Lemma component_part_free (x y : ascii) (c : option N) :
  is_digit x = false -> Ascii.eqb y x = false ->
  str_forall (differs_from x)
    match c with Some n => dec n ++ String y "" | None => "" end = true.
Proof.
  intros Hx Hy. destruct c as [n|]; [| reflexivity].
  rewrite str_forall_app, (digits_differ x _ Hx (dec_digits n)).
  cbn. unfold differs_from. now rewrite Hy.
Qed.

(** What the [try] block does with a token: each component is cut out and
    handed to [int()]. *)
Lemma parse_duration_try_token_steps (h m : option N) :
  parse_duration_try (VStr (duration_token h m))
  = (hours <- match h with
              | Some h => int_of_str (dec h)
              | None => Ok 0
              end ;;
     minutes <- match m with
                | Some m => int_of_str (dec m)
                | None => Ok 0
                end ;;
     Ok (str_of_int hours ++ "h " ++ str_of_int minutes ++ "m")).
Proof.
  unfold parse_duration_try, duration_token, py_replace. cbn [bind].
  rewrite str_replace_leading by discriminate.
  set (hpart := match h with Some h => dec h ++ "H" | None => "" end).
  set (mpart := match m with Some m => dec m ++ "M" | None => "" end).
  assert (str_replace "PT" "" (hpart ++ mpart) = hpart ++ mpart) as ->.
  { apply str_replace_absent. rewrite str_forall_app.
    unfold hpart, mpart. now rewrite !component_part_free. }
  assert (str_forall (differs_from "H") mpart = true) as HmH
    by (now apply component_part_free).
  assert ((if str_in "M" mpart
           then int_of_str (str_replace "M" "" mpart) else Ok 0)
          = match m with
            | Some m => int_of_str (dec m)
            | None => Ok 0
            end) as Hminutes.
  { unfold mpart. destruct m as [m|]; [| reflexivity].
    rewrite (str_in_app_r "M" (dec m) "M" eq_refl).
    rewrite str_replace_trailing
      by (apply digits_differ; [reflexivity | apply dec_digits]).
    reflexivity. }
  destruct h as [h|]; unfold hpart.
  - rewrite str_app_assoc.
    rewrite (str_in_middle "H" (dec h) mpart).
    change ("H" ++ mpart) with (String "H" mpart).
    rewrite str_split_at
      by (apply digits_differ; [reflexivity | apply dec_digits]).
    rewrite (str_split_absent _ _ HmH).
    cbn [list_item nth_error bind].
    destruct (int_of_str (dec h)) as [hours|e]; cbn [bind]; [| reflexivity].
    rewrite Hminutes. reflexivity.
  - cbn [append]. rewrite (str_in_absent _ _ HmH). cbn [bind].
    rewrite Hminutes. reflexivity.
Qed.

Lemma parse_duration_try_token (h m : option N) :
  within_cap h -> within_cap m ->
  parse_duration_try (VStr (duration_token h m))
  = Ok (str_of_int (component h) ++ "h " ++ str_of_int (component m) ++ "m").
Proof.
  intros Hh Hm. rewrite parse_duration_try_token_steps.
  destruct h as [h|], m as [m|]; cbn [within_cap component] in *;
    rewrite ?int_of_str_dec by assumption; reflexivity.
Qed.

Lemma parse_duration_try_token_beyond (h m : option N) :
  ~ (within_cap h /\ within_cap m) ->
  parse_duration_try (VStr (duration_token h m)) = Raise ValueError.
Proof.
  intros H. rewrite parse_duration_try_token_steps.
  destruct h as [h|]; cbn [within_cap] in H.
  - destruct (Nat.le_gt_cases (String.length (dec h)) max_str_digits)
      as [Hh | Hh].
    + rewrite (int_of_str_dec h Hh). cbn [bind].
      destruct m as [m|]; cbn [within_cap] in H; [| now destruct H].
      rewrite int_of_str_dec_beyond; [reflexivity |].
      apply Nat.lt_nge. intros Hm. now destruct H.
    + now rewrite (int_of_str_dec_beyond h Hh).
  - cbn [bind]. destruct m as [m|]; cbn [within_cap] in H;
      [| now destruct H].
    rewrite int_of_str_dec_beyond; [reflexivity |].
    apply Nat.lt_nge. intros Hm. now destruct H.
Qed.

Lemma Ok_inj {A : Type} (a b : A) : Ok a = Ok b -> a = b.
Proof. now intros [= ->]. Qed.

Lemma formatted_duration_is_not_NA (a b : string) :
  a ++ "h " ++ b ++ "m" <> "N/A".
Proof.
  destruct a as [|c a]; [discriminate |].
  intros H. apply (f_equal String.length) in H.
  cbn [append String.length] in H.
  rewrite str_length_app in H. cbn [append String.length] in H.
  rewrite str_length_app in H. cbn [String.length] in H. lia.
Qed.

(** C4, amended: for every duration token [PT{h}H{m}M], either component
    optional, whose components have no more than 4300 digits (the limit of
    [int()]), [parse_duration] returns ["{h}h {m}m"] with 0 for a missing
    component; for a token with a longer component it returns ["N/A"]; it
    never raises; it returns ["N/A"] exactly when a statement of its [try]
    block raises (the input is not a string, or a component is not an integer
    literal that [int()] converts); a string with neither [H] nor [M], the
    empty string among them, gives ["0h 0m"]. *)
Theorem parse_duration_spec :
  (forall h m : option N,
     within_cap h -> within_cap m ->
     parse_duration (VStr (duration_token h m))
     = str_of_int (component h) ++ "h " ++ str_of_int (component m) ++ "m") /\
  (forall h m : option N,
     ~ (within_cap h /\ within_cap m) ->
     parse_duration (VStr (duration_token h m)) = "N/A") /\
  (forall v, parse_duration v = "N/A" <-> exists e, parse_duration_try v = Raise e) /\
  (forall s,
     str_in "H" (str_replace "PT" EmptyString s) = false ->
     str_in "M" (str_replace "PT" EmptyString s) = false ->
     parse_duration (VStr s) = "0h 0m") /\
  parse_duration (VStr EmptyString) = "0h 0m" /\
  (forall v, (forall s, v <> VStr s) -> parse_duration v = "N/A").
Proof.
  split; [| split; [| split; [| split; [| split]]]].
  - intros h m Hh Hm. unfold parse_duration.
    now rewrite parse_duration_try_token.
  - intros h m H. unfold parse_duration.
    now rewrite parse_duration_try_token_beyond.
  - intros v. unfold parse_duration.
    destruct (parse_duration_try v) as [s|e] eqn:E; split.
    + intros ->. exfalso. revert E. unfold parse_duration_try.
      destruct (py_replace v "PT" "") as [r|]; cbn [bind]; [| discriminate].
      destruct (str_in "H" r); cbn [bind].
      * destruct (list_item (str_split "H" r) 0); cbn [bind]; [| discriminate].
        destruct (int_of_str a); cbn [bind]; [| discriminate].
        destruct (list_item (str_split "H" r) 1); cbn [bind]; [| discriminate].
        destruct (if str_in "M" a1 then _ else _); cbn [bind]; [| discriminate].
        intros H%Ok_inj. now apply formatted_duration_is_not_NA in H.
      * destruct (if str_in "M" r then _ else _); cbn [bind]; [| discriminate].
        intros H%Ok_inj. now apply formatted_duration_is_not_NA in H.
    + intros [e He]. discriminate He.
    + intros _. now exists e.
    + reflexivity.
  - intros s HH HM. unfold parse_duration, parse_duration_try, py_replace.
    cbn [bind]. rewrite HH. cbn [bind]. rewrite HM. reflexivity.
  - reflexivity.
  - intros v Hv. destruct v; try reflexivity. now destruct (Hv s).
Qed.

(** The example of the source: [PT3H25M -> 3h 25m]. *)
Example parse_duration_example :
  parse_duration (VStr "PT3H25M") = "3h 25m" /\
  parse_duration (VStr "PT45M") = "0h 45m" /\
  parse_duration (VStr "PT2H") = "2h 0m" /\
  parse_duration (VStr "PT1H5M30S") = "N/A" /\
  parse_duration VNone = "N/A".
Proof. repeat split; vm_compute; reflexivity. Qed.

(** What [int()] takes for a number: blanks around it, a sign, single
    underscores, up to 4300 digits; the separator U+001C is no blank for
    it, the no-break space U+00A0 is. *)
Example parse_duration_literals :
  parse_duration (VStr "PT 3 H+2_5M") = "3h 25m" /\
  parse_duration (VStr ("PT" ++ String (ascii_of_nat 160) "3H")) = "3h 0m" /\
  parse_duration (VStr ("PT" ++ String (ascii_of_nat 28) "3H")) = "N/A" /\
  parse_duration (VStr "PT3__0M") = "N/A" /\
  parse_duration (VStr "PTH") = "N/A".
Proof. repeat split; vm_compute; reflexivity. Qed.

(** A component of 4300 digits is converted, one of 4301 is not. *)
Example parse_duration_digit_limit :
  prefix "0h 1111" (parse_duration (VStr (long_token "M" 4300))) = true /\
  parse_duration (VStr (long_token "M" 4301)) = "N/A" /\
  parse_duration (VStr (long_token "H" 4301)) = "N/A".
Proof. split; [| split]; vm_compute; reflexivity. Qed.

(** C4 as stated fails: the empty input does not give ["N/A"]. *)
Lemma parse_duration_empty_is_not_NA :
  parse_duration (VStr "") <> "N/A".
Proof. discriminate. Qed.

(** ** Message delivery *)

Lemma str_concat_app (a b : list string) :
  str_concat (a ++ b)%list = str_concat a ++ str_concat b.
Proof.
  induction a as [|x a IH]; cbn [str_concat fold_right app]; [reflexivity |].
  fold (str_concat (a ++ b)%list). fold (str_concat a).
  now rewrite IH, str_app_assoc.
Qed.

Lemma join_lines_app (a b : list string) :
  join_lines (a ++ b)%list = join_lines a ++ join_lines b.
Proof. unfold join_lines. now rewrite map_app, str_concat_app. Qed.

Lemma join_lines_one (line : string) : join_lines [line] = line ++ nl.
Proof. unfold join_lines. cbn. apply str_app_nil_r. Qed.

Lemma join_lines_empty (g : list string) : join_lines g = EmptyString -> g = [].
Proof.
  destruct g as [|x g]; [reflexivity |]. unfold join_lines. cbn.
  intros H. apply (f_equal String.length) in H.
  rewrite !str_length_app in H. cbn in H. lia.
Qed.

Lemma str_concat_joined (groups : list (list string)) :
  str_concat (map join_lines groups) = join_lines (List.concat groups).
Proof.
  induction groups as [|g groups IH]; [reflexivity |].
  cbn [map List.concat]. rewrite join_lines_app, <- IH. reflexivity.
Qed.

Lemma str_split_not_nil (sep : ascii) (s : string) : str_split sep s <> [].
Proof.
  destruct s as [|c s]; cbn [str_split]; [discriminate |].
  destruct (Ascii.eqb c sep); [discriminate |].
  destruct (str_split sep s); discriminate.
Qed.

(** Every line with its newline again: the text and one more newline. *)
Lemma join_lines_split (s : string) : join_lines (str_split LF s) = s ++ nl.
Proof.
  induction s as [|c s IH]; [reflexivity |].
  cbn [str_split]. destruct (Ascii.eqb_spec c LF) as [->|N].
  - change (join_lines (EmptyString :: str_split LF s))
      with (nl ++ join_lines (str_split LF s)).
    rewrite IH. reflexivity.
  - destruct (str_split LF s) as [|w ws] eqn:E;
      [now destruct (str_split_not_nil LF s) |].
    change (join_lines (String c w :: ws)) with (String c (join_lines (w :: ws))).
    rewrite IH. reflexivity.
Qed.

(** The loop keeps whole lines together: the finished parts and the
    current part are groups of lines, in the order of the text. *)
Lemma chunk_loop_groups (lines : list string) :
  forall groups g,
  exists groups' g',
    fold_left chunk_step lines (map join_lines groups, join_lines g)
    = (map join_lines groups', join_lines g') /\
    (List.concat groups' ++ g' = List.concat groups ++ g ++ lines)%list.
Proof.
  induction lines as [|line lines IH]; intros groups g.
  - exists groups, g. split; [reflexivity | now rewrite app_nil_r].
  - cbn [fold_left chunk_step].
    destruct (max_length <? _)%nat.
    + destruct (IH (groups ++ [g])%list [line]) as (groups' & g' & E & Hc).
      exists groups', g'. split.
      * rewrite <- E. f_equal. rewrite map_app, join_lines_one. reflexivity.
      * rewrite Hc, concat_app. cbn [List.concat]. rewrite app_nil_r, <- !app_assoc.
        reflexivity.
    + destruct (IH groups (g ++ [line])%list) as (groups' & g' & E & Hc).
      exists groups', g'. split.
      * rewrite <- E. f_equal. rewrite join_lines_app, join_lines_one.
        reflexivity.
      * rewrite Hc, <- !app_assoc. reflexivity.
Qed.

Lemma message_parts_groups (message : string) :
  exists groups,
    List.concat groups = str_split LF message /\
    message_parts message = map join_lines groups.
Proof.
  unfold message_parts.
  destruct (chunk_loop_groups (str_split LF message) [] [])
    as (groups & g & E & Hc).
  change (map join_lines [], join_lines []) with (@nil string, EmptyString) in E.
  rewrite E. cbn [List.concat app] in Hc.
  destruct (String.eqb_spec (join_lines g) EmptyString) as [Hg|Hg]; cbn [negb].
  - apply join_lines_empty in Hg. subst g. rewrite app_nil_r in Hc.
    now exists groups.
  - exists (groups ++ [g])%list. split.
    + rewrite concat_app. cbn [List.concat]. now rewrite app_nil_r.
    + now rewrite map_app.
Qed.

(** With lines of at most 3999 characters no part grows beyond the limit. *)
Lemma chunk_loop_bounded (lines : list string) :
  Forall (fun line => String.length line <= 3999)%nat lines ->
  forall parts cur,
    Forall (fun part => String.length part <= 4000)%nat parts ->
    (String.length cur <= 4000)%nat ->
    Forall (fun part => String.length part <= 4000)%nat
      (fst (fold_left chunk_step lines (parts, cur))) /\
    (String.length (snd (fold_left chunk_step lines (parts, cur))) <= 4000)%nat.
Proof.
  induction 1 as [|line lines Hline _ IH]; intros parts cur Hparts Hcur.
  - split; assumption.
  - cbn [fold_left chunk_step]. unfold max_length.
    destruct (Nat.ltb_spec 4000
                (String.length cur + String.length line + 1)) as [Hlt|Hge].
    + apply IH.
      * apply Forall_app. split; [assumption | now constructor].
      * rewrite str_length_app. cbn. lia.
    + apply IH; [assumption |].
      rewrite !str_length_app. cbn. lia.
Qed.

Lemma send_telegram_message_calls post (message : string) (calls : list string) :
  snd (send_telegram_message post message calls) = (calls ++ [message])%list.
Proof.
  unfold send_telegram_message.
  destruct (post _ _) as [code text|]; [destruct (code =? 200) |]; reflexivity.
Qed.

Lemma send_telegram_message_result post (message : string) (calls : list string) :
  fst (send_telegram_message post message calls)
  = accepted (post (List.length calls) message).
Proof.
  unfold send_telegram_message, accepted.
  destruct (post _ _) as [code text|]; [destruct (code =? 200) |]; reflexivity.
Qed.

Lemma send_parts_calls post (parts calls : list string) :
  send_parts post parts calls = (calls ++ parts)%list.
Proof.
  revert calls. induction parts as [|part parts IH]; intros calls.
  - cbn. now rewrite app_nil_r.
  - cbn [send_parts].
    pose proof (send_telegram_message_calls post part calls) as H.
    destruct (send_telegram_message post part calls) as [ok calls'].
    cbn [snd] in H. subst calls'. rewrite IH, <- app_assoc. reflexivity.
Qed.

(** A message within the limit: the result is that of its delivery call. *)
Lemma send_long_message_short post (message : string) (calls : list string) :
  (String.length message <= 4000)%nat ->
  fst (send_long_message post message calls)
  = accepted (post (List.length calls) message).
Proof.
  intros H. unfold send_long_message, max_length.
  apply Nat.leb_le in H. rewrite H. apply send_telegram_message_result.
Qed.

(** A message beyond the limit: every part is posted and the result is
    [True], whatever the delivery calls returned. *)
Lemma send_long_message_long post (message : string) (calls : list string) :
  (4000 < String.length message)%nat ->
  send_long_message post message calls
  = (true, (calls ++ message_parts message)%list).
Proof.
  intros H. unfold send_long_message, max_length.
  apply Nat.leb_gt in H. rewrite H. now rewrite send_parts_calls.
Qed.

(** C3, amended: the chunking of [send_long_message] splits only at line
    boundaries: the parts are groups of whole lines of the text, each line
    followed by a newline, so that the parts put together are the text
    followed by one newline; every part has at most 4000 characters when
    every line of the text has at most 3999; for a message of more than
    4000 characters these parts are what is posted, in order. *)
Theorem message_parts_spec (message : string) :
  (exists groups,
     List.concat groups = str_split LF message /\
     message_parts message = map join_lines groups) /\
  str_concat (message_parts message) = message ++ nl /\
  (Forall (fun line => String.length line <= 3999)%nat (str_split LF message) ->
   Forall (fun part => String.length part <= 4000)%nat (message_parts message)) /\
  (forall post calls,
     (4000 < String.length message)%nat ->
     snd (send_long_message post message calls)
     = (calls ++ message_parts message)%list).
Proof.
  split; [apply message_parts_groups |]. split; [| split].
  - destruct (message_parts_groups message) as (groups & Hc & ->).
    now rewrite str_concat_joined, Hc, join_lines_split.
  - intros Hlines. unfold message_parts.
    destruct (chunk_loop_bounded _ Hlines [] EmptyString) as [Hp Hc];
      [constructor | cbn; lia |].
    destruct (fold_left chunk_step _ _) as [parts cur]. cbn [fst snd] in *.
    destruct (negb _); [| assumption].
    apply Forall_app. split; [assumption | now constructor].
  - intros post calls H. now rewrite send_long_message_long.
Qed.

(** C3 as stated fails: a message of 4001 characters without a newline is
    longer than 4000 characters and has a part of more than 4000. *)
Lemma long_line_part_exceeds_limit :
  ~ (forall message,
       (4000 < String.length message)%nat ->
       Forall (fun part => String.length part <= 4000)%nat
         (message_parts message)).
Proof.
  intros H. specialize (H (str_repeat "a" 4001)).
  assert (forallb (fun part => String.length part <=? 4000)%nat
            (message_parts (str_repeat "a" 4001)) = true) as Hb.
  { apply forallb_forall. intros part Hin. apply Nat.leb_le.
    revert part Hin. apply Forall_forall. apply H.
    apply Nat.ltb_lt. vm_compute. reflexivity. }
  vm_compute in Hb. discriminate Hb.
Qed.

(** C2, the code at the failing input: the message has more than 4000
    characters, it is sent in two parts, the endpoint accepts neither, and
    [send_long_message] still returns [True]. *)
Theorem send_long_message_hides_rejections :
  (forall k text, accepted (post_rejects k text) = false) /\
  (4000 < String.length two_long_lines)%nat /\
  List.length (snd (send_long_message post_rejects two_long_lines [])) = 2%nat /\
  fst (send_long_message post_rejects two_long_lines []) = true.
Proof.
  split; [reflexivity |]. split; [apply Nat.ltb_lt; vm_compute; reflexivity |].
  split; vm_compute; reflexivity.
Qed.

(** ** Offer normaliser *)

(** Truncating a float that is at most an integer gives at most that
    integer, also for a negative float. *)
Lemma int_of_float_le (x : float) (z n : Z) :
  float_le_int x z = true -> int_of_float x = Ok n -> n <= z.
Proof.
  destruct x as [s | s | | s m e]; cbn [float_le_int int_of_float];
    try discriminate.
  - intros H [= <-]. now apply Z.leb_le.
  - destruct s, e as [|p|k]; cbv zeta iota; intros H Hn;
      apply Ok_inj in Hn; subst n;
      apply Z.leb_le in H; change (Zneg m) with (- Zpos m) in H;
      rewrite ?Z.pow_0_r in *; try lia.
    + assert (0 < 2 ^ Zpos k) as Hpos by (apply Z.pow_pos_nonneg; lia).
      assert (- z <= Zpos m / 2 ^ Zpos k); [| lia].
      apply Z.div_le_lower_bound; [exact Hpos | lia].
    + assert (0 < 2 ^ Zpos k) as Hpos by (apply Z.pow_pos_nonneg; lia).
      apply Z.div_le_upper_bound; [exact Hpos | lia].
Qed.

(** Taking a successful monadic computation apart, one call at a time. *)
Ltac bind_inv H :=
  repeat match type of H with
    | bind ?m _ = _ =>
        let E := fresh "E" in
        destruct m eqn:E; cbn [bind] in H; [| discriminate H]
    | (if ?b then _ else _) = _ =>
        let E := fresh "E" in
        destruct b eqn:E; try discriminate H
    end.

Section NormaliserFacts.

Variable float_of_str : string -> pyresult float.
Variable cfg : Config.
Variable date : string.

Lemma parse_offer_within_budget (offer : pyval) (deal : Deal pyval) :
  parse_offer float_of_str cfg date offer = Ok (Some deal) -> price deal <= MAX_PRICE cfg.
Proof.
  unfold parse_offer. intros H. bind_inv H.
  injection H as <-. cbn [price].
  eapply int_of_float_le; eassumption.
Qed.

Lemma parse_offers_invariant (P : Deal pyval -> Prop) :
  (forall offer deal, parse_offer float_of_str cfg date offer = Ok (Some deal) -> P deal) ->
  forall offers deals,
    Forall P deals -> Forall P (fst (parse_offers float_of_str cfg date offers deals)).
Proof.
  intros HP. induction offers as [|offer offers IH]; intros deals Hdeals;
    cbn [parse_offers]; [exact Hdeals |].
  destruct (parse_offer float_of_str cfg date offer) as [[deal|]|e] eqn:E; cbn [fst]; auto.
  apply IH, Forall_app. split; [exact Hdeals |]. constructor; eauto.
Qed.

Lemma parse_offers_no_failure (offers : list pyval) :
  Forall (fun offer => ~ raises float_of_str cfg date offer) offers ->
  forall deals,
    parse_offers float_of_str cfg date offers deals = ((deals ++ isolated_deals float_of_str cfg date offers)%list, None).
Proof.
  induction 1 as [|offer offers Hok _ IH]; intros deals; cbn [parse_offers].
  - cbn. now rewrite app_nil_r.
  - cbn [isolated_deals flat_map]. fold (isolated_deals float_of_str cfg date offers).
    destruct (parse_offer float_of_str cfg date offer) as [[deal|]|e] eqn:E.
    + rewrite IH, <- app_assoc. reflexivity.
    + apply IH.
    + destruct Hok. now exists e.
Qed.

Lemma parse_offers_first_failure (before after : list pyval) (offer : pyval) e :
  Forall (fun offer => ~ raises float_of_str cfg date offer) before ->
  parse_offer float_of_str cfg date offer = Raise e ->
  forall deals,
    parse_offers float_of_str cfg date (before ++ offer :: after) deals
    = ((deals ++ isolated_deals float_of_str cfg date before)%list, Some e).
Proof.
  intros Hbefore Hraise.
  induction Hbefore as [|o before Hok _ IH]; intros deals;
    cbn [app parse_offers].
  - rewrite Hraise. cbn. now rewrite app_nil_r.
  - cbn [isolated_deals flat_map]. fold (isolated_deals float_of_str cfg date before).
    destruct (parse_offer float_of_str cfg date o) as [[deal|]|e'] eqn:E.
    + rewrite IH, <- app_assoc. reflexivity.
    + apply IH.
    + destruct Hok. now exists e'.
Qed.

End NormaliserFacts.

(** C5: every deal that [parse_amadeus_response] returns has a price per
    person of at most [MAX_PRICE]; the budget test precedes the
    construction of the deal, and truncation does not lift the price above
    an integer bound.  This holds for every batch, every configuration and
    every behaviour of [float()] on strings. *)
Theorem deal_price_within_budget
  (float_of_str : string -> pyresult float) (cfg : Config)
  (data : pyval) (date : string) :
  Forall (fun deal => price deal <= MAX_PRICE cfg)
    (parse_amadeus_response float_of_str cfg data date).
Proof.
  unfold parse_amadeus_response, parse_amadeus_response_try.
  destruct (py_iter data) as [offers|e]; [| constructor].
  apply parse_offers_invariant; [| constructor].
  intros offer deal. apply parse_offer_within_budget.
Qed.

(** C1, amended: an exception raised by the body of the loop for one offer
    ends the loop.  When the offers before it raise nothing, the function
    returns the deals of those offers and nothing of the offers after it;
    the exception is caught, the function does not raise. *)
Theorem parse_amadeus_response_first_failure
  (float_of_str : string -> pyresult float) (cfg : Config) (date : string)
  (before after : list pyval) (offer : pyval) (e : exn) :
  Forall (fun o => ~ raises float_of_str cfg date o) before ->
  parse_offer float_of_str cfg date offer = Raise e ->
  parse_amadeus_response_try float_of_str cfg
    (VList (before ++ offer :: after)) date
  = (isolated_deals float_of_str cfg date before, Some e) /\
  parse_amadeus_response float_of_str cfg
    (VList (before ++ offer :: after)) date
  = isolated_deals float_of_str cfg date before.
Proof.
  intros Hbefore Hraise.
  unfold parse_amadeus_response, parse_amadeus_response_try. cbn [py_iter].
  rewrite (parse_offers_first_failure _ _ _ _ _ _ e Hbefore Hraise).
  split; reflexivity.
Qed.

(** When no offer of a batch raises, every offer contributes. *)
Lemma parse_amadeus_response_no_failure
  (float_of_str : string -> pyresult float) (cfg : Config) (date : string)
  (offers : list pyval) :
  Forall (fun o => ~ raises float_of_str cfg date o) offers ->
  parse_amadeus_response float_of_str cfg (VList offers) date
  = isolated_deals float_of_str cfg date offers.
Proof.
  intros H. unfold parse_amadeus_response, parse_amadeus_response_try.
  cbn [py_iter]. now rewrite parse_offers_no_failure.
Qed.

Example cheap_offer_deal :
  parse_offer float_of_decimal sample_config "2026-02-01" cheap_offer
  = Ok (Some {| date := "2026-02-01"; price := 500; total_price := 2500;
                airline := VStr "Air India"; carrier_code := VStr "AI";
                duration := "2h 5m"; stops := 0; departure_time := "06:30";
                cabin_class := VStr "ECONOMY"; source := "Amadeus" |}).
Proof. vm_compute. reflexivity. Qed.

(** Offers of 500, 300, 1900 and 800 per person with a budget of 1000:
    three deals, in the order of the batch. *)
Example budget_filter_example :
  map price
    (parse_amadeus_response float_of_decimal sample_config
       (VList [sample_offer "2500.00" "AI"; sample_offer "1500.00" "6E";
               sample_offer "9500.00" "UK"; sample_offer "4000.00" "SG"])
       "2026-02-01")
  = [500; 300; 800].
Proof. vm_compute. reflexivity. Qed.

Example malformed_offer_raises :
  parse_offer float_of_decimal sample_config "2026-02-01" malformed_offer
  = Raise ValueError.
Proof. vm_compute. reflexivity. Qed.

Lemma parse_amadeus_response_first_failure_witness :
  parse_amadeus_response_try float_of_decimal sample_config
    (VList ([cheap_offer] ++ malformed_offer :: [cheap_offer])) "2026-02-01"
  = (isolated_deals float_of_decimal sample_config "2026-02-01" [cheap_offer],
     Some ValueError) /\
  parse_amadeus_response float_of_decimal sample_config
    (VList ([cheap_offer] ++ malformed_offer :: [cheap_offer])) "2026-02-01"
  = isolated_deals float_of_decimal sample_config "2026-02-01" [cheap_offer].
Proof.
  apply parse_amadeus_response_first_failure.
  - constructor; [| constructor]. intros [e He].
    rewrite cheap_offer_deal in He. discriminate He.
  - exact malformed_offer_raises.
Defined.

(** C1 as stated fails: the first offer of the batch raises, the second one
    qualifies, and its deal is not in the returned list. *)
Lemma malformed_offer_loses_later_deal :
  ~ (forall deal,
       parse_offer float_of_decimal sample_config "2026-02-01" cheap_offer
       = Ok (Some deal) ->
       In deal
         (parse_amadeus_response float_of_decimal sample_config
            (VList [malformed_offer; cheap_offer]) "2026-02-01")).
Proof.
  intros H. specialize (H _ cheap_offer_deal).
  vm_compute in H. exact H.
Qed.

Lemma parse_offer_zero_passengers
  (float_of_str : string -> pyresult float) (cfg : Config) (date : string)
  (offer : pyval) :
  PASSENGERS cfg = 0 ->
  exists e, parse_offer float_of_str cfg date offer = Raise e.
Proof.
  intros H0. unfold parse_offer. rewrite H0.
  destruct (py_get offer "price" (VDict [])) as [price_obj|e];
    cbn [bind]; [| now exists e].
  destruct (py_get price_obj "total" (VStr "0")) as [total|e];
    cbn [bind]; [| now exists e].
  destruct (py_float float_of_str total) as [f|e];
    cbn [bind]; [| now exists e].
  now exists ZeroDivisionError.
Qed.

(** C10: [parse_amadeus_response] returns a list for every input and every
    configuration: whatever a statement of the [try] block raises is
    caught, and the list built so far is returned.  With a passenger count
    of 0 and a batch that is not empty, the first offer raises (the
    division by zero, when its total price is read as a number), the
    handler catches it and the function returns the empty list. *)
Theorem parse_amadeus_response_total :
  (forall float_of_str cfg data date,
     exists deals caught,
       parse_amadeus_response_try float_of_str cfg data date = (deals, caught) /\
       parse_amadeus_response float_of_str cfg data date = deals) /\
  (forall float_of_str cfg data date offer rest,
     PASSENGERS cfg = 0 ->
     py_iter data = Ok (offer :: rest) ->
     parse_amadeus_response float_of_str cfg data date = [] /\
     exists e,
       parse_amadeus_response_try float_of_str cfg data date = ([], Some e)) /\
  (forall float_of_str cfg data date offer rest price_obj total f,
     PASSENGERS cfg = 0 ->
     py_iter data = Ok (offer :: rest) ->
     py_get offer "price" (VDict []) = Ok price_obj ->
     py_get price_obj "total" (VStr "0") = Ok total ->
     py_float float_of_str total = Ok f ->
     parse_amadeus_response_try float_of_str cfg data date
     = ([], Some ZeroDivisionError)).
Proof.
  split; [| split].
  - intros fos cfg data date. unfold parse_amadeus_response.
    destruct (parse_amadeus_response_try fos cfg data date) as [deals caught].
    now exists deals, caught.
  - intros fos cfg data date offer rest H0 Hiter.
    unfold parse_amadeus_response, parse_amadeus_response_try.
    rewrite Hiter. cbn [parse_offers].
    destruct (parse_offer_zero_passengers fos cfg date offer H0) as [e ->].
    split; [reflexivity | now exists e].
  - intros fos cfg data date offer rest price_obj total f H0 Hiter Hp Ht Hf.
    unfold parse_amadeus_response_try. rewrite Hiter. cbn [parse_offers].
    unfold parse_offer. rewrite Hp. cbn [bind]. rewrite Ht. cbn [bind].
    rewrite Hf. cbn [bind]. rewrite H0. reflexivity.
Qed.

Lemma parse_amadeus_response_total_witness :
  parse_amadeus_response float_of_decimal no_passenger_config
    (VList [cheap_offer; cheap_offer]) "2026-02-01" = [] /\
  parse_amadeus_response_try float_of_decimal no_passenger_config
    (VList [cheap_offer; cheap_offer]) "2026-02-01"
  = ([], Some ZeroDivisionError).
Proof.
  destruct parse_amadeus_response_total as (_ & Hempty & Hzero). split.
  - apply (Hempty float_of_decimal no_passenger_config
             (VList [cheap_offer; cheap_offer]) "2026-02-01"
             cheap_offer [cheap_offer]); reflexivity.
  - apply (Hzero float_of_decimal no_passenger_config
             (VList [cheap_offer; cheap_offer]) "2026-02-01"
             cheap_offer [cheap_offer]
             (VDict [("total", VStr "2500.00")]) (VStr "2500.00")
             (S754_finite false 5497558138880000 (-41))); reflexivity.
Defined.

(** ** Ranking *)

Section Ranking.

Context {V : Type}.

Lemma insert_deal_perm (d : Deal V) (l : list (Deal V)) :
  Permutation (d :: l) (insert_deal d l).
Proof.
  induction l as [|x l IH]; cbn [insert_deal]; [reflexivity |].
  destruct (price d <=? price x); [reflexivity |].
  rewrite perm_swap. now constructor.
Qed.

Lemma sort_by_price_perm (l : list (Deal V)) : Permutation l (sort_by_price l).
Proof.
  induction l as [|d l IH]; cbn [sort_by_price fold_right]; [constructor |].
  fold (sort_by_price l). rewrite <- insert_deal_perm. now constructor.
Qed.

Lemma insert_deal_sorted (d : Deal V) (l : list (Deal V)) :
  StronglySorted price_le l -> StronglySorted price_le (insert_deal d l).
Proof.
  induction 1 as [|x l Hs IH Hx]; cbn [insert_deal].
  - repeat constructor.
  - destruct (Z.leb_spec (price d) (price x)) as [Hle|Hgt].
    + constructor; [now constructor |].
      constructor; [exact Hle |].
      eapply Forall_impl; [| exact Hx]. unfold price_le. intros y Hy. lia.
    + constructor; [exact IH |].
      eapply Permutation_Forall; [apply insert_deal_perm |].
      constructor; [unfold price_le; lia | exact Hx].
Qed.

Lemma sort_by_price_sorted (l : list (Deal V)) :
  StronglySorted price_le (sort_by_price l).
Proof.
  induction l as [|d l IH]; cbn [sort_by_price fold_right]; [constructor |].
  now apply insert_deal_sorted.
Qed.

(** The deals of one price keep the order they had. *)
Lemma insert_deal_stable (p : Z) (d : Deal V) (l : list (Deal V)) :
  filter (same_price p) (insert_deal d l) = filter (same_price p) (d :: l).
Proof.
  induction l as [|x l IH]; cbn [insert_deal]; [reflexivity |].
  destruct (Z.leb_spec (price d) (price x)) as [Hle|Hgt]; [reflexivity |].
  cbn [filter] in *. rewrite IH. unfold same_price.
  destruct (Z.eqb_spec (price d) p), (Z.eqb_spec (price x) p);
    try reflexivity. lia.
Qed.

Lemma sort_by_price_stable (p : Z) (l : list (Deal V)) :
  filter (same_price p) (sort_by_price l) = filter (same_price p) l.
Proof.
  induction l as [|d l IH]; cbn [sort_by_price fold_right]; [reflexivity |].
  fold (sort_by_price l). rewrite insert_deal_stable. cbn [filter].
  now rewrite IH.
Qed.

Lemma sort_by_price_length (l : list (Deal V)) :
  List.length (sort_by_price l) = List.length l.
Proof. symmetry. apply Permutation_length, sort_by_price_perm. Qed.

Lemma sort_by_price_not_nil (l : list (Deal V)) :
  l <> [] -> sort_by_price l <> [].
Proof.
  intros Hl E. apply (f_equal (@List.length _)) in E.
  rewrite sort_by_price_length in E. destruct l; [congruence | discriminate].
Qed.

Variable V_eq_dec : forall a b : V, {a = b} + {a <> b}.
Variable str_of : V -> string.
Variable cfg : Config.
Variable checked_at : string.

Lemma format_results_message_list (deals : list (Deal V)) :
  fst (format_results_message V_eq_dec str_of cfg checked_at deals)
  = sort_by_price deals.
Proof. destruct deals; reflexivity. Qed.

(** C9: [format_results_message] leaves the list it was given sorted by
    price: the list after the call is a permutation of the list before it,
    in ascending order of price, the deals of equal price in the order
    they had; a list that was not in ascending order has changed. *)
Theorem format_results_message_sorts_in_place (deals : list (Deal V)) :
  let after :=
    fst (format_results_message V_eq_dec str_of cfg checked_at deals) in
  Permutation deals after /\
  StronglySorted price_le after /\
  (forall p, filter (same_price p) after = filter (same_price p) deals) /\
  (~ StronglySorted price_le deals -> after <> deals).
Proof.
  cbv zeta. rewrite format_results_message_list.
  split; [apply sort_by_price_perm |].
  split; [apply sort_by_price_sorted |].
  split; [intros p; apply sort_by_price_stable |].
  intros Hns E. apply Hns. rewrite <- E. apply sort_by_price_sorted.
Qed.

End Ranking.

(** ** The mean price is a float *)

Lemma digits2_pos_size (p : positive) : digits2_pos p = Pos.size p.
Proof. induction p; cbn; congruence. Qed.

Lemma Zdigits2_log2 (m : Z) : 0 < m -> Zdigits2 m = Z.log2 m + 1.
Proof.
  destruct m as [|p|p]; try lia. intros _. cbn [Zdigits2].
  rewrite digits2_pos_size. destruct p; cbn; lia.
Qed.

Lemma Zdigits2_le (m : Z) : 0 <= m -> Zdigits2 m <= Z.log2 m + 1.
Proof.
  intros H. destruct (Z.eq_dec m 0) as [->|N]; [cbn; lia |].
  rewrite Zdigits2_log2 by lia. lia.
Qed.

Lemma shr_1_m (r : shr_record) :
  0 <= shr_m r -> shr_m (shr_1 r) = shr_m r / 2.
Proof.
  destruct r as [m b s]. cbn [shr_m shr_1].
  destruct m as [|[p|p|]|p]; intros H; cbn [shr_m]; try lia.
  - reflexivity.
  - apply (Z.div_unique (Zpos p~1) 2 (Zpos p) 1); lia.
  - apply (Z.div_unique (Zpos p~0) 2 (Zpos p) 0); lia.
  - reflexivity.
Qed.

Lemma pow2_xO (p : positive) : 2 ^ Zpos p~0 = 2 ^ Zpos p * 2 ^ Zpos p.
Proof.
  replace (Zpos p~0) with (Zpos p + Zpos p) by lia.
  apply Z.pow_add_r; lia.
Qed.

Lemma pow2_xI (p : positive) :
  2 ^ Zpos p~1 = 2 * (2 ^ Zpos p * 2 ^ Zpos p).
Proof.
  replace (Zpos p~1) with (1 + Zpos p~0) by lia.
  rewrite Z.pow_add_r, pow2_xO by lia. reflexivity.
Qed.

Lemma iter_shr_1_m (p : positive) :
  forall r, 0 <= shr_m r ->
    shr_m (iter_pos shr_1 p r) = shr_m r / 2 ^ Zpos p.
Proof.
  assert (forall r, 0 <= shr_m r -> 0 <= shr_m (shr_1 r)) as Hnn.
  { intros r H. rewrite shr_1_m by exact H. apply Z.div_pos; lia. }
  induction p as [p IH|p IH|]; intros r Hr; cbn [iter_pos].
  - assert (0 < 2 ^ Zpos p) as Hp by (apply Z.pow_pos_nonneg; lia).
    assert (0 <= shr_m (iter_pos shr_1 p (shr_1 r))) as H1
      by (rewrite IH by auto; apply Z.div_pos; auto).
    rewrite IH, IH, shr_1_m by auto.
    rewrite !Z.div_div by lia.
    f_equal. symmetry. apply pow2_xI.
  - assert (0 < 2 ^ Zpos p) as Hp by (apply Z.pow_pos_nonneg; lia).
    assert (0 <= shr_m (iter_pos shr_1 p r)) as H1
      by (rewrite IH by auto; apply Z.div_pos; auto).
    rewrite IH, IH by auto.
    rewrite !Z.div_div by lia.
    f_equal. symmetry. apply pow2_xO.
  - rewrite shr_1_m by exact Hr. reflexivity.
Qed.

Lemma shr_fexp_spec (m e : Z) (l : location) :
  0 <= m ->
  let n := Z.max 0 (fexp prec emax (Zdigits2 m + e) - e) in
  shr_m (fst (shr_fexp prec emax m e l)) = m / 2 ^ n /\
  snd (shr_fexp prec emax m e l) = e + n.
Proof.
  intros Hm n. unfold shr_fexp, shr. subst n.
  assert (shr_m (shr_record_of_loc m l) = m) as Hrec
    by (destruct l as [|[]]; reflexivity).
  destruct (fexp prec emax (Zdigits2 m + e) - e) as [|p|p] eqn:E; cbn [fst snd].
  - rewrite Hrec. cbn. rewrite Z.div_1_r. lia.
  - rewrite iter_shr_1_m by (rewrite Hrec; exact Hm). rewrite Hrec.
    rewrite Z.max_r by lia. split; reflexivity.
  - rewrite Hrec. rewrite Z.max_l by lia. cbn. rewrite Z.div_1_r. lia.
Qed.

Lemma round_nearest_even_bounds (m : Z) (l : location) :
  m <= round_nearest_even m l <= m + 1.
Proof.
  unfold round_nearest_even. destruct l as [|[]]; try lia.
  destruct (Z.even m); lia.
Qed.

(** A rounded value that is small enough is zero or finite. *)
Lemma binary_round_aux_finite (sx : bool) (mx ex : Z) (lx : location) :
  0 <= mx -> ex <= 971 -> Zdigits2 mx + ex <= 1023 ->
  is_finite (binary_round_aux prec emax sx mx ex lx) = true.
Proof.
  intros Hm Hex Hd. unfold binary_round_aux.
  pose proof (shr_fexp_spec mx ex lx Hm) as [H1m H1e]. cbv zeta in H1m, H1e.
  destruct (shr_fexp prec emax mx ex lx) as [mrs' e'] eqn:E1.
  cbn [fst snd] in H1m, H1e.
  set (m1 := round_nearest_even (shr_m mrs') (loc_of_shr_record mrs')).
  pose proof (round_nearest_even_bounds (shr_m mrs') (loc_of_shr_record mrs'))
    as Hround. fold m1 in Hround.
  set (n1 := Z.max 0 (fexp prec emax (Zdigits2 mx + ex) - ex)) in *.
  assert (0 <= n1) as Hn1 by (unfold n1; lia).
  assert (0 < 2 ^ n1) as Hp1 by (apply Z.pow_pos_nonneg; lia).
  assert (0 <= shr_m mrs') as Hm' by (rewrite H1m; apply Z.div_pos; lia).
  assert (0 <= m1) as Hm1 by lia.
  pose proof (shr_fexp_spec m1 e' loc_Exact Hm1) as [H2m H2e].
  cbv zeta in H2m, H2e.
  destruct (shr_fexp prec emax m1 e' loc_Exact) as [mrs'' e''] eqn:E2.
  cbn [fst snd] in H2m, H2e.
  set (n2 := Z.max 0 (fexp prec emax (Zdigits2 m1 + e') - e')) in *.
  assert (0 < 2 ^ n2) as Hp2 by (apply Z.pow_pos_nonneg; unfold n2; lia).
  assert (0 <= shr_m mrs'') as Hm'' by (rewrite H2m; apply Z.div_pos; lia).
  destruct (shr_m mrs'') as [|m|m]; [reflexivity | | lia].
  assert (e'' <= 971) as He''.
  { pose proof (Zdigits2_le m1 Hm1) as Hdm1.
    assert (Z.log2 m1 <= Z.log2 (shr_m mrs') + 1) as Hl1.
    { destruct (Z.eq_dec m1 (shr_m mrs')) as [->|N]; [lia |].
      replace m1 with (Z.succ (shr_m mrs')) by lia.
      pose proof (Z.log2_succ_le (shr_m mrs')). lia. }
    assert (Z.log2 (shr_m mrs') <= Z.max 0 (Z.log2 mx - n1)) as Hl'.
    { destruct (Z.eq_dec mx 0) as [->|Nz].
      - rewrite Z.div_0_l in H1m by lia. rewrite H1m. cbn. lia.
      - rewrite H1m, <- Z.shiftr_div_pow2 by exact Hn1.
        rewrite Z.log2_shiftr by lia. lia. }
    assert (Zdigits2 mx <= Z.log2 mx + 1) as Hdx by now apply Zdigits2_le.
    assert (mx = 0 \/ Zdigits2 mx = Z.log2 mx + 1) as Hdx'.
    { destruct (Z.eq_dec mx 0); [now left | right].
      apply Zdigits2_log2. lia. }
    assert (mx = 0 -> Z.log2 mx = 0) as Hl0 by (intros ->; reflexivity).
    unfold n2, n1, fexp, emin, prec, emax in *.
    change IntDef.Z.max with Z.max in *.
    lia. }
  apply Z.leb_le in He''. unfold prec, emax.
  change (1024 - 53) with 971. rewrite He''. reflexivity.
Qed.

Lemma div_core_finite (sx : bool) (ma mb : positive) :
  Zpos ma < 2 ^ 1023 ->
  is_finite (SFdiv prec emax (S754_finite sx ma 0) (S754_finite false mb 0))
  = true.
Proof.
  intros Hma. cbn [SFdiv]. unfold SFdiv_core_binary.
  set (e' := Z.min (fexp prec emax
                      (Zdigits2 (Zpos ma) + 0 - (Zdigits2 (Zpos mb) + 0)))
               (0 - 0)).
  assert (e' <= 0) as He' by (unfold e'; lia).
  set (s := 0 - 0 - e').
  assert (0 <= s) as Hs by (unfold s; lia).
  set (m' := match s with
             | Z0 => Zpos ma
             | Zpos _ => Z.shiftl (Zpos ma) s
             | Zneg _ => 0
             end).
  assert (m' = Z.shiftl (Zpos ma) s) as Hm'.
  { unfold m'. destruct s; [reflexivity | reflexivity | lia]. }
  assert (0 < m') as Hpos.
  { rewrite Hm', Z.shiftl_mul_pow2 by exact Hs.
    apply Z.mul_pos_pos; [lia | apply Z.pow_pos_nonneg; lia]. }
  assert (Z.log2 m' = Z.log2 (Zpos ma) + s) as Hlog.
  { rewrite Hm'. apply Z.log2_shiftl; lia. }
  pose proof (Z_div_mod m' (Zpos mb) ltac:(lia)) as Hdiv.
  change IntDef.Z.div_eucl with Z.div_eucl.
  destruct (Z.div_eucl m' (Zpos mb)) as [q r]. destruct Hdiv as [Hq Hr].
  assert (0 <= q <= m') as Hqb by nia.
  apply binary_round_aux_finite; [lia | lia |].
  pose proof (Zdigits2_le q ltac:(lia)) as Hdq.
  pose proof (Z.log2_le_mono q m' ltac:(lia)) as Hmono.
  assert (Z.log2 (Zpos ma) < 1023) as Hl
    by (apply Z.log2_lt_pow2; lia).
  unfold s in *. lia.
Qed.

(** The quotient of two integers is a float when the dividend is below
    [2 ^ 1023] in absolute value and the divisor is positive. *)
Lemma int_truediv_finite (a b : Z) :
  0 < b -> Z.abs a < 2 ^ 1023 ->
  exists f, int_truediv a b = Ok f /\ is_finite f = true.
Proof.
  intros Hb Ha. unfold int_truediv.
  destruct b as [|pb|pb]; try lia.
  destruct a as [|pa|pa].
  - eexists. split; reflexivity.
  - cbn [Z.abs Z.to_pos Z.ltb Z.compare].
    pose proof (div_core_finite false pa pb Ha) as Hf.
    destruct (SFdiv _ _ _ _); try discriminate Hf; eexists; split;
      reflexivity.
  - cbn [Z.abs Z.to_pos Z.ltb Z.compare].
    pose proof (div_core_finite true pa pb Ha) as Hf.
    destruct (SFdiv _ _ _ _); try discriminate Hf; eexists; split;
      reflexivity.
Qed.

Lemma int_of_float_finite (f : float) :
  is_finite f = true -> exists n, int_of_float f = Ok n.
Proof. destruct f; try discriminate; intros _; eexists; reflexivity. Qed.

(** ** Reporting *)

Section ReportFacts.

Context {V : Type}.
Variable V_eq_dec : forall a b : V, {a = b} + {a <> b}.
Variable str_of : V -> string.
Variable cfg : Config.
Variable checked_at : string.

Lemma format_deal_valid (i : Z) (d : Deal V) :
  valid_date d -> exists entry, format_deal str_of cfg i d = Ok entry.
Proof.
  intros [ymd E]. unfold format_deal. rewrite E. cbn [bind]. eauto.
Qed.

Lemma format_deals_entries (top : list (Deal V)) :
  Forall valid_date top ->
  forall i message,
  exists entries,
    format_deals str_of cfg i top message = Ok (message ++ str_concat entries) /\
    Forall2 (is_entry str_of cfg) (enumerate_from i top) entries.
Proof.
  induction 1 as [|d top Hd _ IH]; intros i message.
  - exists []. split; [| constructor]. cbn. now rewrite str_app_nil_r.
  - destruct (format_deal_valid i d Hd) as [entry E].
    destruct (IH (i + 1) (message ++ entry)) as (entries & Hf & He).
    exists (entry :: entries). split.
    + cbn [format_deals]. rewrite E. cbn [bind]. rewrite Hf.
      cbn [str_concat fold_right]. now rewrite str_app_assoc.
    + constructor; assumption.
Qed.


Lemma sum_prices_from (l : list (Deal V)) (a : Z) :
  fold_left (fun acc d => acc + price d) l a
  = a + fold_right (fun d acc => price d + acc) 0 l.
Proof.
  revert a. induction l as [|d l IH]; intros a; cbn [fold_left fold_right];
    [lia |].
  rewrite IH. lia.
Qed.

Lemma sum_prices_perm (l l' : list (Deal V)) :
  Permutation l l' -> sum_prices l = sum_prices l'.
Proof.
  unfold sum_prices. rewrite !sum_prices_from.
  induction 1; cbn [fold_right]; lia.
Qed.

Lemma mean_price_sorted (deals : list (Deal V)) :
  mean_price (sort_by_price deals) = mean_price deals.
Proof.
  unfold mean_price.
  now rewrite sort_by_price_length,
    <- (sum_prices_perm _ _ (sort_by_price_perm deals)).
Qed.

(** The mean price of a collection that is not empty is computed without
    an exception when the prices add up to less than [2 ^ 1023]. *)
Lemma mean_price_total (deals : list (Deal V)) :
  deals <> [] -> Z.abs (sum_prices deals) < 2 ^ 1023 ->
  exists avg, mean_price deals = Ok avg.
Proof.
  intros Hne Hsum. unfold mean_price.
  destruct (int_truediv_finite (sum_prices deals)
              (Z.of_nat (List.length deals))) as (f & -> & Hf);
    [destruct deals; [congruence | cbn [List.length]; lia] | exact Hsum |].
  cbn [bind]. now apply int_of_float_finite.
Qed.

Lemma statistics_lines (best : Deal V) (deals : list (Deal V)) (avg : Z) :
  mean_price (best :: deals) = Ok avg ->
  statistics V_eq_dec str_of checked_at (best :: deals)
  = Ok (statistics_head str_of best avg
        ++ most_deals_line V_eq_dec str_of (best :: deals)
        ++ nonstop_line (best :: deals)
        ++ statistics_tail checked_at).
Proof.
  unfold mean_price, statistics. cbn [list_item nth_error bind].
  destruct (int_truediv _ _) as [f|]; cbn [bind]; [| discriminate].
  intros ->. cbn [bind]. unfold statistics_head, statistics_tail.
  f_equal. rewrite !str_app_assoc. reflexivity.
Qed.

(** The message of a collection that is not empty, with valid dates and a
    mean price that is a float: the head, one entry for each of the first
    15 deals of the sorted list, the note, the statistics. *)
Lemma render_sorted_parts (sorted : list (Deal V)) (avg : Z) :
  sorted <> [] ->
  Forall valid_date sorted ->
  mean_price sorted = Ok avg ->
  exists entries stats,
    render_sorted V_eq_dec str_of cfg checked_at sorted
    = Ok (report_header cfg sorted ++ str_concat entries
          ++ more_deals_note sorted ++ stats) /\
    Forall2 (is_entry str_of cfg) (enumerate_from 1 (firstn 15 sorted)) entries /\
    statistics V_eq_dec str_of checked_at sorted = Ok stats.
Proof.
  intros Hne Hdates Hmean.
  destruct sorted as [|best rest]; [congruence |].
  assert (Forall valid_date (firstn 15 (best :: rest))) as Htop.
  { rewrite <- (firstn_skipn 15 (best :: rest)) in Hdates.
    now apply Forall_app in Hdates. }
  destruct (format_deals_entries _ Htop 1 (report_header cfg (best :: rest)))
    as (entries & Hf & He).
  exists entries. eexists. split; [| split; [exact He |]].
  - unfold render_sorted. rewrite Hf. cbn [bind].
    rewrite (statistics_lines best rest avg Hmean). cbn [bind].
    f_equal. rewrite !str_app_assoc. reflexivity.
  - apply (statistics_lines best rest avg Hmean).
Qed.






End ReportFacts.

(** ** The most frequent airline *)

Section AirlineFacts.

Context {V : Type}.
Variable V_eq_dec : forall a b : V, {a = b} + {a <> b}.

Lemma occurrences_snoc (a : V) (l : list (Deal V)) (d : Deal V) :
  occurrences V_eq_dec a (l ++ [d])
  = occurrences V_eq_dec a l + (if V_eq_dec (airline d) a then 1 else 0).
Proof.
  unfold occurrences. rewrite filter_app, length_app. cbn [filter].
  unfold same_airline at 2. destruct (V_eq_dec (airline d) a); cbn; lia.
Qed.

Lemma filter_length_perm {A : Type} (f : A -> bool) (l l' : list A) :
  Permutation l l' -> List.length (filter f l) = List.length (filter f l').
Proof.
  induction 1 as [| x l l' _ IH | x y l | l l' l'' _ IH1 _ IH2]; cbn [filter].
  - reflexivity.
  - destruct (f x); cbn; now rewrite IH.
  - destruct (f x), (f y); reflexivity.
  - now rewrite IH1.
Qed.

Lemma occurrences_perm (a : V) (l l' : list (Deal V)) :
  Permutation l l' -> occurrences V_eq_dec a l = occurrences V_eq_dec a l'.
Proof.
  intros H. unfold occurrences. now rewrite (filter_length_perm _ _ _ H).
Qed.

Lemma airline_counts_snoc (l : list (Deal V)) (d : Deal V) :
  airline_counts V_eq_dec (l ++ [d])
  = count_airline V_eq_dec (airline d) (airline_counts V_eq_dec l).
Proof. unfold airline_counts. now rewrite fold_left_app. Qed.

(** The keys of the dictionary after one more count. *)
Lemma count_airline_keys (a : V) (counts : list (V * Z)) :
  map fst (count_airline V_eq_dec a counts)
  = if in_dec V_eq_dec a (map fst counts)
    then map fst counts
    else (map fst counts ++ [a])%list.
Proof.
  induction counts as [|[k c] counts IH]; [reflexivity |].
  cbn [count_airline map fst].
  destruct (V_eq_dec k a) as [->|N].
  - destruct (in_dec V_eq_dec a (a :: map fst counts)) as [_|Hn];
      [reflexivity |]. destruct Hn. now left.
  - cbn [map fst]. rewrite IH.
    destruct (in_dec V_eq_dec a (map fst counts)) as [Hin|Hn],
             (in_dec V_eq_dec a (k :: map fst counts)) as [Hin'|Hn'];
      try reflexivity.
    + destruct Hn'. now right.
    + destruct Hin' as [E|Hin']; [congruence | now destruct Hn].
Qed.

Lemma count_airline_nodup (a : V) (counts : list (V * Z)) :
  NoDup (map fst counts) -> NoDup (map fst (count_airline V_eq_dec a counts)).
Proof.
  intros H. rewrite count_airline_keys.
  destruct (in_dec V_eq_dec a (map fst counts)) as [Hin|Hn]; [exact H |].
  apply NoDup_app; [exact H | repeat constructor; intros [] | ].
  intros x Hx [<-|[]]. now destruct Hn.
Qed.

(** The counts after one more count, when each count was [f] of its key. *)
Lemma count_airline_values (f : V -> Z) (a : V) (counts : list (V * Z)) :
  NoDup (map fst counts) ->
  (forall k c, In (k, c) counts -> c = f k) ->
  (~ In a (map fst counts) -> f a = 0) ->
  forall k c,
    In (k, c) (count_airline V_eq_dec a counts) ->
    c = f k + (if V_eq_dec a k then 1 else 0).
Proof.
  induction counts as [|[k0 c0] counts IH]; intros Hnd Hf Ha k c Hin.
  - cbn in Hin. destruct Hin as [[= <- <-]|[]].
    rewrite Ha by (intros []). destruct (V_eq_dec a a); [lia | congruence].
  - cbn [map fst] in Hnd. inversion Hnd as [|? ? Hk0 Hnd']; subst.
    cbn [count_airline] in Hin. destruct (V_eq_dec k0 a) as [->|N].
    + destruct Hin as [[= <- <-]|Hin].
      * rewrite (Hf a c0) by now left.
        destruct (V_eq_dec a a); [lia | congruence].
      * rewrite (Hf k c) by now right.
        destruct (V_eq_dec a k) as [<-|_]; [| lia].
        destruct Hk0. apply (in_map fst) in Hin. exact Hin.
    + destruct Hin as [[= <- <-]|Hin].
      * rewrite (Hf k0 c0) by now left.
        destruct (V_eq_dec a k0); [congruence | lia].
      * apply IH; try assumption.
        -- intros k' c' H'. apply Hf. now right.
        -- intros Hn. apply Ha. intros [E|Hin']; [cbn in E; congruence | auto].
Qed.

(** The dictionary after the scan of [l]: its keys are distinct, every
    airline of [l] is a key, and every count is the number of deals of
    that airline. *)
Lemma airline_counts_spec (l : list (Deal V)) :
  NoDup (map fst (airline_counts V_eq_dec l)) /\
  (forall d, In d l -> In (airline d) (map fst (airline_counts V_eq_dec l))) /\
  (forall k c, In (k, c) (airline_counts V_eq_dec l) -> c = occurrences V_eq_dec k l).
Proof.
  induction l as [|d l (Hnd & Hkeys & Hvals)] using rev_ind.
  - split; [constructor |]. split; [intros d [] | intros k c []].
  - rewrite airline_counts_snoc. split; [now apply count_airline_nodup |].
    split.
    + intros x Hx. rewrite count_airline_keys.
      destruct (in_dec V_eq_dec (airline d) _) as [Hin|Hn];
        apply in_app_or in Hx as [Hx|[<-|[]]]; auto;
        apply in_or_app; [left; auto | right; now left].
    + intros k c Hin. rewrite occurrences_snoc.
      apply (count_airline_values (fun k => occurrences V_eq_dec k l)
               (airline d) (airline_counts V_eq_dec l)); try assumption.
      intros Hn. unfold occurrences.
      destruct (filter (same_airline V_eq_dec (airline d)) l) as [|x xs] eqn:E;
        [reflexivity |].
      assert (In x (filter (same_airline V_eq_dec (airline d)) l)) as Hx
        by (rewrite E; now left).
      apply filter_In in Hx as [Hx Hs]. unfold same_airline in Hs.
      destruct (V_eq_dec (airline x) (airline d)) as [Ex|]; [| discriminate].
      destruct Hn. rewrite <- Ex. now apply Hkeys.
Qed.

(** [max] keeps the first of the items with the greatest count. *)
Lemma max_by_count_first (items : list (V * Z)) :
  forall best,
  exists before after,
    best :: items = (before ++ max_by_count best items :: after)%list /\
    (forall x, In x before -> snd x < snd (max_by_count best items)) /\
    (forall x, In x after -> snd x <= snd (max_by_count best items)).
Proof.
  induction items as [|x items IH]; intros best.
  - exists [], []. cbn. split; [reflexivity |]. split; intros y [].
  - cbn [max_by_count]. destruct (Z.ltb_spec (snd best) (snd x)) as [Hlt|Hge].
    + destruct (IH x) as (before & after & E & Hb & Ha).
      exists (best :: before), after. split; [cbn; now rewrite E |].
      split; [| exact Ha].
      intros y [<-|Hy]; [| auto].
      destruct before as [|b before]; cbn in E.
      * injection E as E _. rewrite <- E. exact Hlt.
      * injection E as E _. subst b.
        specialize (Hb x (or_introl eq_refl)). lia.
    + destruct (IH best) as (before & after & E & Hb & Ha).
      destruct before as [|b before]; cbn in E.
      * injection E as E E'. exists [], (x :: after).
        split; [cbn; now rewrite <- E, E' |].
        split; [intros y [] |].
        intros y [<-|Hy]; [rewrite <- E; exact Hge | auto].
      * injection E as E E'. subst b.
        exists (best :: x :: before), after.
        split; [cbn [app]; f_equal; f_equal; exact E' |].
        split; [| exact Ha].
        intros y [<-|[<-|Hy]].
        -- apply Hb. now left.
        -- specialize (Hb best (or_introl eq_refl)). lia.
        -- apply Hb. now right.
Qed.

Lemma find_keys (P : V -> bool) (counts : list (V * Z)) :
  option_map fst (find (fun kc => P (fst kc)) counts)
  = find P (map fst counts).
Proof.
  induction counts as [|[k c] counts IH]; [reflexivity |].
  cbn [find map fst]. destruct (P k); [reflexivity | exact IH].
Qed.

Lemma find_snoc {A : Type} (P : A -> bool) (l : list A) (x : A) :
  find P (l ++ [x])
  = match find P l with
    | Some y => Some y
    | None => if P x then Some x else None
    end.
Proof.
  induction l as [|y l IH]; cbn [app find]; [reflexivity |].
  destruct (P y); [reflexivity | exact IH].
Qed.

Lemma find_split {A : Type} (P : A -> bool) (l : list A) (x : A) :
  find P l = Some x ->
  exists before after,
    l = (before ++ x :: after)%list /\
    P x = true /\ forall y, In y before -> P y = false.
Proof.
  induction l as [|y l IH]; cbn [find]; [discriminate |].
  destruct (P y) eqn:Py.
  - intros [= <-]. exists [], l. split; [reflexivity |].
    split; [exact Py | intros z []].
  - intros H. destruct (IH H) as (before & after & -> & Px & Hb).
    exists (y :: before), after. split; [reflexivity |].
    split; [exact Px |]. intros z [<-|Hz]; auto.
Qed.

(** The keys of the dictionary stand in the order in which the scan met
    the airlines first: the first key with a property is the airline of
    the first deal with it. *)
Lemma airline_counts_first_seen (P : V -> bool) (l : list (Deal V)) :
  find P (map fst (airline_counts V_eq_dec l))
  = option_map airline (find (fun d => P (airline d)) l).
Proof.
  induction l as [|d l IH] using rev_ind; [reflexivity |].
  rewrite airline_counts_snoc, count_airline_keys, find_snoc.
  destruct (find (fun d => P (airline d)) l) as [y|] eqn:E;
    cbn [option_map] in IH |- *.
  - destruct (in_dec V_eq_dec (airline d) _) as [Hin|Hn];
      [exact IH | now rewrite find_snoc, IH].
  - destruct (in_dec V_eq_dec (airline d) _) as [Hin|Hn].
    + rewrite IH. destruct (P (airline d)) eqn:Pd; [| reflexivity].
      apply (find_none _ _ IH) in Hin. congruence.
    + rewrite find_snoc, IH. destruct (P (airline d)); reflexivity.
Qed.

(** The item that [max] picks from the dictionary: its count is the number
    of deals of its airline, no airline has more deals, and its airline is
    that of the first deal, in the order of the scan, whose airline has
    that many. *)
Lemma most_frequent_airline (l : list (Deal V)) item items :
  airline_counts V_eq_dec l = item :: items ->
  let best := max_by_count item items in
  snd best = occurrences V_eq_dec (fst best) l /\
  (forall d, In d l -> occurrences V_eq_dec (airline d) l <= snd best) /\
  exists before d after,
    l = (before ++ d :: after)%list /\
    airline d = fst best /\
    forall x, In x before -> occurrences V_eq_dec (airline x) l < snd best.
Proof.
  intros E best.
  destruct (airline_counts_spec l) as (Hnd & Hkeys & Hvals).
  destruct (max_by_count_first items item) as (before & after & Es & Hb & Ha).
  fold best in Es, Hb, Ha. rewrite <- E in Es.
  assert (In best (airline_counts V_eq_dec l)) as Hbest.
  { rewrite Es. apply in_or_app. right. now left. }
  assert (snd best = occurrences V_eq_dec (fst best) l) as Hcount.
  { apply Hvals. now destruct best. }
  assert (forall d, In d l -> occurrences V_eq_dec (airline d) l <= snd best) as Hmax.
  { intros d Hd. apply Hkeys, in_map_iff in Hd as ([k c] & Ek & Hin).
    cbn [fst] in Ek. subst k. pose proof (Hvals _ _ Hin) as Hc.
    rewrite Es in Hin. apply in_app_or in Hin as [Hin|[Hin|Hin]].
    - specialize (Hb _ Hin). cbn [snd] in Hb. lia.
    - apply (f_equal snd) in Hin. cbn [snd] in Hin. lia.
    - specialize (Ha _ Hin). cbn [snd] in Ha. lia. }
  split; [exact Hcount |]. split; [exact Hmax |].
  set (P := fun k : V => occurrences V_eq_dec k l =? snd best).
  assert (find P (map fst (airline_counts V_eq_dec l)) = Some (fst best))
    as Hfind.
  { rewrite <- find_keys, Es.
    assert (forall pre, (forall x, In x pre -> snd x < snd best) ->
              incl pre (airline_counts V_eq_dec l) ->
              find (fun kc => P (fst kc)) (pre ++ best :: after)
              = Some best) as H.
    { induction pre as [|[k c] pre IHp]; intros Hlt Hincl; cbn [app find].
      - unfold P. rewrite <- Hcount, Z.eqb_refl. reflexivity.
      - cbn [fst]. unfold P at 1.
        rewrite <- (Hvals k c) by (apply Hincl; now left).
        specialize (Hlt (k, c) (or_introl eq_refl)) as Hkc. cbn [snd] in Hkc.
        destruct (Z.eqb_spec c (snd best)); [lia |].
        apply IHp.
        + intros x Hx. apply Hlt. now right.
        + intros x Hx. apply Hincl. now right. }
    rewrite H; [reflexivity | exact Hb |].
    intros x Hx. rewrite Es. apply in_or_app. now left. }
  rewrite airline_counts_first_seen in Hfind.
  destruct (find (fun d => P (airline d)) l) as [d|] eqn:Ed; [| discriminate].
  cbn [option_map] in Hfind. injection Hfind as Hd.
  destruct (find_split _ _ _ Ed) as (pre & post & El & _ & Hpre).
  exists pre, d, post. split; [exact El |]. split; [exact Hd |].
  intros x Hx. specialize (Hpre x Hx). unfold P in Hpre.
  apply Z.eqb_neq in Hpre.
  assert (In x l) as Hxl by (rewrite El; apply in_or_app; now left).
  specialize (Hmax x Hxl). lia.
Qed.

End AirlineFacts.

Section StatisticsFacts.

Context {V : Type}.
Variable V_eq_dec : forall a b : V, {a = b} + {a <> b}.
Variable str_of : V -> string.
Variable cfg : Config.
Variable checked_at : string.

Lemma nonstop_count_perm (l l' : list (Deal V)) :
  Permutation l l' -> nonstop_count l = nonstop_count l'.
Proof.
  intros H. unfold nonstop_count. now rewrite (filter_length_perm _ _ _ H).
Qed.

(** C7, amended: for a collection that is not empty (with valid dates and
    prices that add up to less than [2 ^ 1023]) the statistics block of
    the message names the airline with the most deals and its number of
    deals; among airlines with that number it is the one that the scan of
    the sorted list meets first; the line on the non-stop flights gives
    their number when there is at least one and is left out when there is
    none. *)
Theorem report_statistics_block (deals : list (Deal V)) :
  deals <> [] ->
  Forall valid_date deals ->
  Z.abs (sum_prices deals) < 2 ^ 1023 ->
  let sorted := sort_by_price deals in
  exists body cheapest avg best_airline count,
    snd (format_results_message V_eq_dec str_of cfg checked_at deals)
    = Ok (body
          ++ statistics_head str_of cheapest avg
          ++ ("✈️ Most deals: " ++ str_of best_airline ++ " ("
              ++ str_of_int count ++ " flights)" ++ nl)
          ++ (if 0 <? nonstop_count deals
              then "🚀 Non-stop flights: " ++ str_of_int (nonstop_count deals) ++ nl
              else EmptyString)
          ++ statistics_tail checked_at) /\
    count = occurrences V_eq_dec best_airline deals /\
    (forall d, In d deals -> occurrences V_eq_dec (airline d) deals <= count) /\
    (exists before d after,
       sorted = (before ++ d :: after)%list /\
       airline d = best_airline /\
       forall x, In x before ->
                 occurrences V_eq_dec (airline x) deals < count).
Proof.
  intros Hne Hdates Hsum. cbv zeta.
  destruct (mean_price_total deals Hne Hsum) as [avg Hmean].
  pose proof (sort_by_price_perm deals) as Hperm.
  pose proof (sort_by_price_not_nil deals Hne) as Hne'.
  pose proof (mean_price_sorted deals) as Hmean'. rewrite Hmean in Hmean'.
  assert (fst (format_results_message V_eq_dec str_of cfg checked_at deals)
          = sort_by_price deals) as Hlist
    by apply format_results_message_list.
  assert (snd (format_results_message V_eq_dec str_of cfg checked_at deals)
          = render_sorted V_eq_dec str_of cfg checked_at (sort_by_price deals))
    as Hmsg by (destruct deals; [congruence | reflexivity]).
  rewrite Hmsg. clear Hlist Hmsg.
  remember (sort_by_price deals) as sorted eqn:Esorted.
  assert (Forall valid_date sorted) as Hdates'
    by (eapply Permutation_Forall; eassumption).
  destruct (render_sorted_parts V_eq_dec str_of cfg checked_at sorted avg
              Hne' Hdates' Hmean')
    as (entries & stats & Hr & _ & Hs).
  destruct sorted as [|cheapest rest]; [congruence |].
  rewrite (statistics_lines V_eq_dec str_of checked_at cheapest rest avg Hmean')
    in Hs.
  apply Ok_inj in Hs. subst stats.
  destruct (airline_counts V_eq_dec (cheapest :: rest)) as [|item items] eqn:Ec.
  { destruct (airline_counts_spec V_eq_dec (cheapest :: rest)) as (_ & Hk & _).
    specialize (Hk cheapest (or_introl eq_refl)). rewrite Ec in Hk.
    destruct Hk. }
  destruct (most_frequent_airline V_eq_dec _ _ _ Ec) as (Hcount & Hmax & Hfirst).
  exists (report_header cfg (cheapest :: rest) ++ str_concat entries
          ++ more_deals_note (cheapest :: rest)),
    cheapest, avg, (fst (max_by_count item items)),
    (snd (max_by_count item items)).
  split; [| split; [| split]].
  - rewrite Hr. f_equal.
    unfold most_deals_line, nonstop_line. rewrite Ec.
    rewrite <- (nonstop_count_perm _ _ Hperm).
    rewrite !str_app_assoc. reflexivity.
  - rewrite Hcount. symmetry. now apply occurrences_perm.
  - intros d Hd. rewrite (occurrences_perm V_eq_dec _ _ _ Hperm).
    apply Hmax. eapply Permutation_in; eassumption.
  - destruct Hfirst as (before & d & after & El & Hd & Hb).
    exists before, d, after. split; [exact El |]. split; [exact Hd |].
    intros x Hx. rewrite (occurrences_perm V_eq_dec _ _ _ Hperm). now apply Hb.
Qed.

End StatisticsFacts.

(** ** The code on concrete collections *)


Lemma three_deals_valid : Forall valid_date three_deals.
Proof. repeat constructor; eexists; vm_compute; reflexivity. Qed.


Lemma three_deals_sum : Z.abs (sum_prices three_deals) < 2 ^ 1023.
Proof. apply Z.ltb_lt. vm_compute. reflexivity. Qed.


Lemma report_statistics_block_witness :
  three_deals <> [] /\
  Forall valid_date three_deals /\
  Z.abs (sum_prices three_deals) < 2 ^ 1023 /\
  exists best_airline count,
    count = occurrences string_dec best_airline three_deals /\
    forall d, In d three_deals ->
              occurrences string_dec (airline d) three_deals <= count.
Proof.
  assert (three_deals <> []) as Hne by discriminate.
  split; [exact Hne |]. split; [exact three_deals_valid |].
  split; [exact three_deals_sum |].
  destruct (report_statistics_block string_dec (fun s => s)
              sample_config sample_time three_deals
              Hne three_deals_valid three_deals_sum)
    as (body & cheapest & avg & best_airline & count & _ & Hc & Hmax & _).
  now exists best_airline, count.
Defined.

(** The statistics of the three deals: airline A with 2 deals, and no line
    on non-stop flights. *)
Example three_deals_report :
  exists report,
    format_results_message string_dec (fun s => s) sample_config
      sample_time three_deals
    = ([sample_deal "2026-02-01" 100 "A" 2;
        sample_deal "2026-02-02" 200 "A" 1;
        sample_deal "2026-02-03" 300 "B" 1], Ok report) /\
    str_in "Most deals: A (2 flights)" report = true /\
    str_in "Average: ₹200" report = true.
Proof. eexists. split; [vm_compute; reflexivity |]. split; vm_compute; reflexivity. Qed.

(** C7 as stated fails: none of the three deals is non-stop, and the
    message does not mention non-stop flights at all. *)
Lemma zero_nonstop_count_is_not_reported :
  nonstop_count three_deals = 0 /\
  exists report,
    snd (format_results_message string_dec (fun s => s) sample_config
           sample_time three_deals) = Ok report /\
    str_in "Non-stop" report = false.
Proof.
  split; [reflexivity |]. eexists. split; [vm_compute; reflexivity |].
  vm_compute. reflexivity.
Qed.

(** The report of the twenty deals: the cheapest deal has rank 1, the
    fifteenth cheapest rank 15; there is no rank 16, and the sixteenth
    cheapest deal is not shown. *)
Example twenty_deals_report_ranks :
  exists report,
    snd (format_results_message string_dec (fun s => s) sample_config
           sample_time twenty_deals) = Ok report /\
    str_in "*1. ₹410/person* (Feb 01, Sun)" report = true /\
    str_in "*15. ₹850/person* (Feb 01, Sun)" report = true /\
    str_in "*16. " report = false /\
    str_in "₹875/person" report = false.
Proof.
  eexists. split; [vm_compute; reflexivity |].
  split; [| split; [| split]]; vm_compute; reflexivity.
Qed.

(** The list of the three deals is not the same after the call. *)
Example three_deals_reordered :
  fst (format_results_message string_dec (fun s => s) sample_config
         sample_time three_deals) <> three_deals.
Proof. vm_compute. discriminate. Qed.

(** * Properties of the rest of the module *)

(** ** The calendar *)

Lemma days_in_month_bounds (y m : Z) : 28 <= days_in_month y m <= 31.
Proof.
  unfold days_in_month.
  destruct (m =? 2); [destruct (is_leap y); lia |].
  destruct ((m =? 4) || (m =? 6) || (m =? 9) || (m =? 11)); lia.
Qed.

Lemma days_before_year_succ (y : Z) :
  days_before_year (y + 1)
  = days_before_year y + (if is_leap y then 366 else 365).
Proof.
  unfold days_before_year, is_leap.
  replace (y + 1 - 1) with y by lia.
  destruct (Z.eqb_spec (y mod 4) 0), (Z.eqb_spec (y mod 100) 0),
           (Z.eqb_spec (y mod 400) 0); cbn [negb andb orb];
    Z.div_mod_to_equations; lia.
Qed.

Lemma days_before_month_to_mono (y : Z) (j k : nat) :
  (j <= k)%nat -> days_before_month_to y j <= days_before_month_to y k.
Proof.
  induction 1 as [|k _ IH]; [lia |]. cbn [days_before_month_to].
  pose proof (days_in_month_bounds y (Z.of_nat (S k))). lia.
Qed.

Lemma days_before_month_step (y m : Z) :
  1 <= m ->
  days_before_month_to y (Z.to_nat m)
  = days_before_month_to y (Z.to_nat (m - 1)) + days_in_month y m.
Proof.
  intros Hm. replace (Z.to_nat m) with (S (Z.to_nat (m - 1))) by lia.
  cbn [days_before_month_to]. f_equal. f_equal. lia.
Qed.

Lemma days_in_year (y : Z) :
  days_before_month_to y 12 = if is_leap y then 366 else 365.
Proof.
  unfold days_before_month_to, days_in_month. cbn.
  destruct (is_leap y); reflexivity.
Qed.

Lemma days_before_year_mono (y1 y2 : Z) :
  y1 <= y2 -> days_before_year y1 <= days_before_year y2.
Proof.
  intros H. replace y2 with (y1 + Z.of_nat (Z.to_nat (y2 - y1))) by lia.
  induction (Z.to_nat (y2 - y1)) as [|k IH]; [rewrite Z.add_0_r; lia |].
  replace (y1 + Z.of_nat (S k)) with (y1 + Z.of_nat k + 1) by lia.
  rewrite days_before_year_succ. destruct (is_leap _); lia.
Qed.

(** The day of the year of a valid date lies within its year. *)
Lemma day_of_year_bounds (y m d : Z) :
  valid_ymd (y, m, d) ->
  1 <= days_before_month_to y (Z.to_nat (m - 1)) + d
    <= days_before_month_to y 12.
Proof.
  intros (_ & Hm & Hd). split.
  - pose proof (days_before_month_to_mono y 0 (Z.to_nat (m - 1))) as H.
    cbn [days_before_month_to] in H. lia.
  - pose proof (days_before_month_step y m) as Hs.
    pose proof (days_before_month_to_mono y (Z.to_nat m) 12). lia.
Qed.


Lemma date_ltb_ordinal (a b : calendar_day) :
  valid_ymd a -> valid_ymd b ->
  date_ltb a b = true -> ordinal a < ordinal b.
Proof.
  destruct a as [[y1 m1] d1], b as [[y2 m2] d2]. intros Ha Hb.
  unfold date_ltb, date_leb, ordinal, ymd2ord.
  pose proof (day_of_year_bounds _ _ _ Ha) as Ba.
  pose proof (day_of_year_bounds _ _ _ Hb) as Bb.
  destruct Ha as (_ & Hm1 & Hd1), Hb as (_ & Hm2 & Hd2).
  destruct (Z.ltb_spec y2 y1) as [Hy|Hy]; cbn [orb negb]; [discriminate |].
  destruct (Z.eqb_spec y2 y1) as [->|Ny]; cbn [andb].
  - destruct (Z.ltb_spec m2 m1) as [Hm|Hm]; cbn [orb negb]; [discriminate |].
    destruct (Z.eqb_spec m2 m1) as [->|Nm]; cbn [andb].
    + destruct (Z.leb_spec d2 d1); [discriminate | lia].
    + intros _.
      pose proof (days_before_month_step y1 m1 ltac:(lia)) as Hs.
      pose proof (days_before_month_to_mono y1 (Z.to_nat m1)
                    (Z.to_nat (m2 - 1)) ltac:(lia)). lia.
  - intros _.
    pose proof (days_before_year_succ y1) as Hs.
    pose proof (days_before_year_mono (y1 + 1) y2 ltac:(lia)) as Hmono.
    rewrite days_in_year in Ba. destruct (is_leap y1); lia.
Qed.

Lemma date_leb_refl (a : calendar_day) : date_leb a a = true.
Proof.
  destruct a as [[y m] d]. unfold date_leb.
  rewrite !Z.eqb_refl, Z.leb_refl. cbn. now rewrite !orb_true_r.
Qed.

Lemma date_leb_antisym (a b : calendar_day) :
  date_leb a b = true -> date_leb b a = true -> a = b.
Proof.
  destruct a as [[y1 m1] d1], b as [[y2 m2] d2]. unfold date_leb.
  destruct (Z.ltb_spec y1 y2), (Z.ltb_spec y2 y1), (Z.eqb_spec y1 y2),
           (Z.eqb_spec y2 y1), (Z.ltb_spec m1 m2), (Z.ltb_spec m2 m1),
           (Z.eqb_spec m1 m2), (Z.eqb_spec m2 m1), (Z.leb_spec d1 d2),
           (Z.leb_spec d2 d1); cbn; try discriminate; try lia;
    intros _ _; f_equal; try f_equal; lia.
Qed.

(** On valid dates the comparison of the fields is that of the ordinals. *)
Lemma date_leb_ordinal (a b : calendar_day) :
  valid_ymd a -> valid_ymd b ->
  date_leb a b = true <-> ordinal a <= ordinal b.
Proof.
  intros Ha Hb. split.
  - intros Hle. destruct (date_leb b a) eqn:E.
    + rewrite (date_leb_antisym a b Hle E). lia.
    + pose proof (date_ltb_ordinal a b Ha Hb) as H.
      unfold date_ltb in H. rewrite E in H. specialize (H eq_refl). lia.
  - intros Hle. destruct (date_leb a b) eqn:E; [reflexivity |].
    pose proof (date_ltb_ordinal b a Hb Ha) as H.
    unfold date_ltb in H. rewrite E in H. specialize (H eq_refl). lia.
Qed.

Lemma ordinal_inj (a b : calendar_day) :
  valid_ymd a -> valid_ymd b -> ordinal a = ordinal b -> a = b.
Proof.
  intros Ha Hb E. apply date_leb_antisym;
    apply date_leb_ordinal; auto; lia.
Qed.

(** The last day of the calendar of [datetime]. *)

Lemma last_day_valid : valid_ymd last_day.
Proof. cbv. repeat split; discriminate. Qed.

Lemma ordinal_last_day (a : calendar_day) :
  valid_ymd a -> ordinal a <= ordinal last_day.
Proof.
  intros Ha. apply date_leb_ordinal; [exact Ha | exact last_day_valid |].
  destruct a as [[y m] d]. destruct Ha as (Hy & Hm & Hd).
  pose proof (days_in_month_bounds y m). unfold date_leb, last_day.
  destruct (Z.ltb_spec y 9999), (Z.eqb_spec y 9999), (Z.ltb_spec m 12),
           (Z.eqb_spec m 12), (Z.leb_spec d 31); cbn; try reflexivity; lia.
Qed.

(** The day after a valid date is valid and has the next ordinal; only the
    last day of the calendar has no day after it. *)
Lemma add_one_day_spec (a : calendar_day) :
  valid_ymd a ->
  (a = last_day /\ add_one_day a = Raise OverflowError) \/
  (exists next, add_one_day a = Ok next /\ valid_ymd next /\
                ordinal next = ordinal a + 1).
Proof.
  destruct a as [[y m] d]. intros (Hy & Hm & Hd).
  unfold add_one_day, ordinal, ymd2ord.
  pose proof (days_in_month_bounds y m) as Bm.
  destruct (Z.ltb_spec d (days_in_month y m)) as [Hlt|Hge].
  - right. eexists. split; [reflexivity |]. split; [| lia].
    repeat split; lia.
  - destruct (Z.ltb_spec m 12) as [Hm12|Hm12].
    + right. eexists. split; [reflexivity |]. split.
      * pose proof (days_in_month_bounds y (m + 1)). repeat split; lia.
      * replace (m + 1 - 1) with m by lia.
        rewrite (days_before_month_step y m) by lia. lia.
    + assert (m = 12) as -> by lia.
      assert (d = 31) as -> by (cbn in Hd, Hge; lia).
      destruct (Z.ltb_spec y 9999) as [Hy9|Hy9].
      * right. eexists. split; [reflexivity |]. split.
        -- repeat split; try lia; cbn; lia.
        -- rewrite days_before_year_succ.
           pose proof (days_in_year y) as Hdy.
           change (days_before_month_to y 12)
             with (days_before_month_to y 11 + days_in_month y 12) in Hdy.
           change (days_in_month y 12) with 31 in Hdy.
           change (Z.to_nat (12 - 1)) with 11%nat.
           change (days_before_month_to (y + 1) (Z.to_nat (1 - 1))) with 0.
           destruct (is_leap y); lia.
      * left. assert (y = 9999) as -> by lia. split; reflexivity.
Qed.

(** ** Dates as text *)

Lemma digit_of_ascii_bounds (c : ascii) (k : Z) :
  digit_of_ascii c = Some k -> 0 <= k <= 9.
Proof.
  unfold digit_of_ascii.
  destruct ((48 <=? nat_of_ascii c)%nat && (nat_of_ascii c <=? 57)%nat) eqn:E;
    [| discriminate].
  apply andb_true_iff in E as [E1 E2].
  apply Nat.leb_le in E1. apply Nat.leb_le in E2. intros H. assert (k = Z.of_nat (nat_of_ascii c) - 48) by congruence. lia.
Qed.

Lemma Some_inj {A : Type} (x y : A) : Some x = Some y -> x = y.
Proof. congruence. Qed.

Lemma year_field_bounds (s : string) (y : Z) :
  year_field s = Some y -> 0 <= y <= 9999.
Proof.
  unfold year_field.
  destruct s as [|a [|b [|c [|d [|e s]]]]]; try discriminate.
  unfold is_digit. cbn [int_digits].
  destruct (digit_of_ascii a) as [ka|] eqn:Ea; [| discriminate].
  destruct (digit_of_ascii b) as [kb|] eqn:Eb; [| discriminate].
  destruct (digit_of_ascii c) as [kc|] eqn:Ec; [| discriminate].
  destruct (digit_of_ascii d) as [kd|] eqn:Ed; [| discriminate].
  cbn [andb]. intros Hs. apply Some_inj in Hs.
  apply digit_of_ascii_bounds in Ea. apply digit_of_ascii_bounds in Eb.
  apply digit_of_ascii_bounds in Ec. apply digit_of_ascii_bounds in Ed. lia.
Qed.

Lemma month_field_bounds (s : string) (m : Z) :
  month_field s = Some m -> 1 <= m <= 12.
Proof.
  unfold month_field.
  destruct s as [|a [|b [|c s]]]; try discriminate.
  - destruct (digit_of_ascii a) as [ka|] eqn:Ea; [| discriminate].
    apply digit_of_ascii_bounds in Ea.
    destruct (Z.leb_spec 1 ka); [| discriminate].
      intros Hs; apply Some_inj in Hs; lia.
  - destruct (digit_of_ascii a) as [ka|] eqn:Ea; [| discriminate].
    destruct (digit_of_ascii b) as [kb|] eqn:Eb;
      [| destruct ka as [|[]|]; discriminate].
    apply digit_of_ascii_bounds in Eb.
    destruct ka as [|[p|p|]|]; try discriminate.
    + destruct (Z.leb_spec 1 kb); [| discriminate].
      intros Hs; apply Some_inj in Hs; lia.
    + destruct (Z.leb_spec kb 2); [| discriminate].
      intros Hs; apply Some_inj in Hs; lia.
Qed.

Lemma day_field_bounds (s : string) (d : Z) :
  day_field s = Some d -> 1 <= d.
Proof.
  unfold day_field.
  destruct s as [|a [|b [|c s]]]; try discriminate.
  - destruct (digit_of_ascii a) as [ka|] eqn:Ea; [| discriminate].
    destruct (Z.leb_spec 1 ka); [| discriminate].
      intros Hs; apply Some_inj in Hs; lia.
  - destruct (digit_of_ascii b) as [kb|] eqn:Eb; [| discriminate].
    apply digit_of_ascii_bounds in Eb.
    destruct (Ascii.eqb a " ").
    + destruct (Z.leb_spec 1 kb); [| discriminate].
      intros Hs; apply Some_inj in Hs; lia.
    + destruct (digit_of_ascii a) as [ka|] eqn:Ea; [| discriminate].
      destruct ka as [|[[p|p|]|[p|p|]|]|]; try discriminate;
        try (intros Hs; apply Some_inj in Hs; lia).
      * destruct (Z.leb_spec 1 kb); [| discriminate].
        intros Hs; apply Some_inj in Hs; lia.
      * destruct (Z.leb_spec kb 1); [| discriminate].
        intros Hs; apply Some_inj in Hs; lia.
Qed.

(** [strptime] returns dates of the calendar only. *)
Lemma strptime_ymd_valid (s : string) (day : calendar_day) :
  strptime_ymd s = Ok day -> valid_ymd day.
Proof.
  unfold strptime_ymd.
  destruct (str_split "-" s) as [|ys [|ms [|ds [|x l]]]]; try discriminate.
  destruct (year_field ys) as [y|] eqn:Ey; [| discriminate].
  destruct (month_field ms) as [m|] eqn:Em; [| discriminate].
  destruct (day_field ds) as [d|] eqn:Ed; [| discriminate].
  destruct (Z.leb_spec 1 y); [| discriminate].
  destruct (Z.leb_spec d (days_in_month y m)); [| discriminate].
  cbn [andb]. intros [= <-].
  apply year_field_bounds in Ey. apply month_field_bounds in Em.
  apply day_field_bounds in Ed. repeat split; lia.
Qed.



Lemma forallb_range (P : Z -> bool) (lo len : Z) :
  forallb P (map (fun k => lo + Z.of_nat k) (seq 0 (Z.to_nat len))) = true ->
  forall n, lo <= n < lo + len -> P n = true.
Proof.
  intros H n Hn. rewrite forallb_forall in H. apply H.
  apply in_map_iff. exists (Z.to_nat (n - lo)). split; [lia |].
  apply in_seq. lia.
Qed.

Lemma year_text (y : Z) : 1000 <= y <= 9999 -> year_text_ok y = true.
Proof.
  intros H. apply (forallb_range year_text_ok 1000 9000); [| lia].
  vm_compute. reflexivity.
Qed.

Lemma field_text (n : Z) : 1 <= n <= 31 -> field_text_ok n = true.
Proof.
  intros H. apply (forallb_range field_text_ok 1 31); [| lia].
  vm_compute. reflexivity.
Qed.

(** [strptime(strftime(day))] is [day], for a date of the calendar from the
    year 1000 on. *)
Lemma strptime_strftime (day : calendar_day) :
  valid_ymd day -> 1000 <= year_of day ->
  strptime_ymd (strftime_ymd day) = Ok day.
Proof.
  destruct day as [[y m] d]. intros (Hy & Hm & Hd) Hy'. cbn [year_of fst] in Hy'.
  pose proof (days_in_month_bounds y m) as Bm.
  pose proof (year_text y ltac:(lia)) as Ty.
  pose proof (field_text m ltac:(lia)) as Tm.
  pose proof (field_text d ltac:(lia)) as Td.
  unfold year_text_ok in Ty. unfold field_text_ok in Tm, Td.
  apply andb_true_iff in Ty as [Fy Ty].
  apply andb_true_iff in Tm as [Tm Tmm]. apply andb_true_iff in Tm as [Fm _].
  apply andb_true_iff in Td as [Td _]. apply andb_true_iff in Td as [Fd Td].
  destruct (Z.ltb_spec 12 m); [lia |]. cbn [orb] in Tmm.
  unfold strptime_ymd, strftime_ymd.
  change (str_of_int y ++ "-" ++ pad2 m ++ "-" ++ pad2 d)
    with (str_of_int y ++ String "-" (pad2 m ++ String "-" (pad2 d))).
  rewrite (str_split_at _ _ _ Fy), (str_split_at _ _ _ Fm),
    (str_split_absent _ _ Fd).
  destruct (year_field (str_of_int y)) as [y'|]; [| discriminate].
  destruct (month_field (pad2 m)) as [m'|]; [| discriminate].
  destruct (day_field (pad2 d)) as [d'|]; [| discriminate].
  apply Z.eqb_eq in Ty, Tmm, Td. subst y' m' d'.
  destruct (Z.leb_spec 1 y); [| lia].
  destruct (Z.leb_spec d (days_in_month y m)); [| lia]. reflexivity.
Qed.

Lemma strptime_ymd_raises (s : string) (e : exn) :
  strptime_ymd s = Raise e -> e = ValueError.
Proof.
  unfold strptime_ymd.
  destruct (str_split "-" s) as [|ys [|ms [|ds [|x l]]]]; try congruence.
  destruct (year_field ys), (month_field ms), (day_field ds); try congruence.
  destruct ((1 <=? z) && (z1 <=? days_in_month z z0)); congruence.
Qed.

(** ** The loop over the dates *)

Lemma valid_not_last (a b : calendar_day) :
  valid_ymd a -> ordinal a <= ordinal b -> ordinal b < ordinal last_day ->
  exists next,
    add_one_day a = Ok next /\ valid_ymd next /\ ordinal next = ordinal a + 1.
Proof.
  intros Ha Hab Hb.
  destruct (add_one_day_spec a Ha) as [[-> _] | H]; [lia | exact H].
Qed.

(** Past the end the loop stops at once and adds nothing. *)
Lemma dates_loop_past (fuel : nat) (current end_ : calendar_day)
    (dates : list string) :
  valid_ymd current -> valid_ymd end_ -> ordinal end_ < ordinal current ->
  dates_loop (S fuel) current end_ dates = Some (Ok dates).
Proof.
  intros Hc He Hlt. cbn [dates_loop].
  destruct (date_leb current end_) eqn:E; [| reflexivity].
  apply (date_leb_ordinal current end_ Hc He) in E. lia.
Qed.

(** With one unit of fuel more than there are days, the loop appends the
    text of every day from [current] to [end_]. *)
Lemma dates_loop_run (n : nat) :
  forall (fuel : nat) (current end_ : calendar_day) (dates : list string),
    valid_ymd current -> valid_ymd end_ ->
    ordinal end_ < ordinal last_day ->
    Z.of_nat n = ordinal end_ - ordinal current + 1 ->
    (n < fuel)%nat ->
    dates_loop fuel current end_ dates
    = Some (Ok (dates ++ map strftime_ymd (days_from n current))%list).
Proof.
  induction n as [|n IH]; intros fuel current end_ dates Hc He Hl Hn Hf.
  - destruct fuel as [|fuel]; [lia |].
    rewrite dates_loop_past by (assumption || lia).
    cbn [days_from map]. rewrite app_nil_r. reflexivity.
  - destruct fuel as [|fuel]; [lia |]. cbn [dates_loop].
    assert (E : date_leb current end_ = true)
      by (apply (date_leb_ordinal current end_ Hc He); lia).
    rewrite E.
    destruct (valid_not_last current end_ Hc ltac:(lia) Hl)
      as (next & Hnext & Hv & Ho).
    rewrite Hnext. rewrite (IH fuel next end_) by (assumption || lia).
    cbn [days_from map]. rewrite Hnext, <- app_assoc. reflexivity.
Qed.

(** When the range ends on the last day of the calendar, the step after it
    raises. *)
Lemma dates_loop_overflow (n : nat) :
  forall (fuel : nat) (current : calendar_day) (dates : list string),
    valid_ymd current ->
    Z.of_nat n = ordinal last_day - ordinal current ->
    (n < fuel)%nat ->
    dates_loop fuel current last_day dates = Some (Raise OverflowError).
Proof.
  induction n as [|n IH]; intros fuel current dates Hc Hn Hf.
  - destruct fuel as [|fuel]; [lia |].
    assert (current = last_day)
      by (apply ordinal_inj; [assumption | exact last_day_valid | lia]).
    subst current. reflexivity.
  - destruct fuel as [|fuel]; [lia |]. cbn [dates_loop].
    assert (E : date_leb current last_day = true)
      by (apply (date_leb_ordinal current last_day Hc last_day_valid); lia).
    rewrite E.
    destruct (add_one_day_spec current Hc) as [[-> _] | (next & Hnext & Hv & Ho)];
      [lia |].
    rewrite Hnext. apply IH; [assumption | lia | lia].
Qed.

(** The days counted from [start]: one after the other, all of the
    calendar. *)
Lemma days_from_spec (n : nat) :
  forall start : calendar_day,
    valid_ymd start ->
    ordinal start + Z.of_nat n - 1 <= ordinal last_day ->
    List.length (days_from n start) = n /\
    forall (k : nat) (day : calendar_day),
      nth_error (days_from n start) k = Some day ->
      valid_ymd day /\ ordinal day = ordinal start + Z.of_nat k.
Proof.
  induction n as [|n IH]; intros start Hs Hl.
  - split; [reflexivity |]. intros [|k] day; discriminate.
  - cbn [days_from].
    destruct (add_one_day_spec start Hs) as [[-> Hr] | (next & Hnext & Hv & Ho)].
    + assert (n = 0%nat) by lia. subst n. rewrite Hr.
      split; [reflexivity |].
      intros [|[|k]] day; cbn [nth_error]; try discriminate.
      intros H; apply Some_inj in H; subst day.
      split; [exact last_day_valid | lia].
    + rewrite Hnext. destruct (IH next Hv ltac:(lia)) as [Hlen Hnth].
      split; [cbn [List.length]; rewrite Hlen; reflexivity |].
      intros [|k] day; cbn [nth_error].
      * intros H; apply Some_inj in H; subst day. split; [assumption | lia].
      * intros H. destruct (Hnth k day H) as [Hd Hk]. split; [assumption | lia].
Qed.

Lemma nth_error_last {A : Type} (l : list A) (d : A) :
  l <> [] -> nth_error l (Nat.pred (List.length l)) = Some (last l d).
Proof.
  induction l as [|x [|y l] IH]; intros H; [congruence | reflexivity |].
  change (nth_error (y :: l) (Nat.pred (List.length (y :: l)))
          = Some (last (y :: l) d)).
  apply IH. discriminate.
Qed.

Lemma year_le_of_ordinal (a b : calendar_day) :
  valid_ymd a -> valid_ymd b -> ordinal a <= ordinal b -> year_of a <= year_of b.
Proof.
  intros Ha Hb H. apply (date_leb_ordinal a b Ha Hb) in H.
  destruct a as [[y1 m1] d1], b as [[y2 m2] d2]. unfold date_leb in H.
  cbn [year_of fst].
  destruct (Z.ltb_spec y1 y2); [lia |].
  destruct (Z.eqb_spec y1 y2); [lia | discriminate].
Qed.

(** ** The dates of the range *)

Lemma ordinal_bounds (day : calendar_day) :
  valid_ymd day -> 1 <= ordinal day <= ordinal last_day.
Proof.
  intros H. split.
  - change 1 with (ordinal (1, 1, 1)).
    assert (V1 : valid_ymd (1, 1, 1)) by (cbv; intuition congruence).
    apply (date_leb_ordinal (1, 1, 1) day V1 H).
    destruct day as [[y m] d]. destruct H as (Hy & Hm & Hd). unfold date_leb.
    destruct (Z.ltb_spec 1 y); [reflexivity |].
    destruct (Z.eqb_spec 1 y); [| lia].
    destruct (Z.ltb_spec 1 m); [reflexivity |].
    destruct (Z.eqb_spec 1 m); [| lia].
    destruct (Z.leb_spec 1 d); [reflexivity | lia].
  - apply (date_leb_ordinal day last_day H last_day_valid).
    destruct day as [[y m] d]. destruct H as (Hy & Hm & Hd).
    unfold date_leb, last_day.
    pose proof (days_in_month_bounds y m).
    destruct (Z.ltb_spec y 9999); [reflexivity |].
    destruct (Z.eqb_spec y 9999); [| lia].
    destruct (Z.ltb_spec m 12); [reflexivity |].
    destruct (Z.eqb_spec m 12); [| lia].
    destruct (Z.leb_spec d 31); [reflexivity | lia].
Qed.

(** X1.  A range whose end lies before its start gives no date and no
    error: the loop of [generate_dates_in_range] is left at its first test,
    whatever the fuel (one unit is enough). *)
Theorem generate_dates_in_range_reversed (cfg : Config)
    (start end_ : calendar_day) (fuel : nat) :
  strptime_ymd (DATE_RANGE_START cfg) = Ok start ->
  strptime_ymd (DATE_RANGE_END cfg) = Ok end_ ->
  ordinal end_ < ordinal start ->
  generate_dates_in_range (S fuel) cfg = Some (Ok []).
Proof.
  intros Hs He Hlt. unfold generate_dates_in_range. rewrite Hs, He.
  apply dates_loop_past; [| | exact Hlt].
  - exact (strptime_ymd_valid _ _ Hs).
  - exact (strptime_ymd_valid _ _ He).
Qed.

Lemma generate_dates_in_range_reversed_witness :
  generate_dates_in_range 1 reversed_config = Some (Ok []).
Proof.
  apply (generate_dates_in_range_reversed reversed_config
           (2026, 2, 15) (2026, 2, 1) 0).
  - reflexivity.
  - reflexivity.
  - vm_compute. reflexivity.
Defined.

(** X2.  A range that starts no later than it ends, from the year 1000 on
    and before the last day of the calendar, gives the dates from the start
    to the end, both included, one for each day and in the order of the
    calendar: with more fuel than there are days, the result is the text of
    [ordinal end_ - ordinal start + 1] days, the first one the start, the
    last one the end, the [k]-th one [k] days after the start, and
    [strptime] reads each text back as its day. *)
Theorem generate_dates_in_range_enumerates (cfg : Config)
    (start end_ : calendar_day) (fuel : nat) :
  strptime_ymd (DATE_RANGE_START cfg) = Ok start ->
  strptime_ymd (DATE_RANGE_END cfg) = Ok end_ ->
  ordinal start <= ordinal end_ < ordinal last_day ->
  1000 <= year_of start ->
  ordinal end_ - ordinal start + 1 < Z.of_nat fuel ->
  let days :=
    days_from (Z.to_nat (ordinal end_ - ordinal start + 1)) start in
  generate_dates_in_range fuel cfg = Some (Ok (map strftime_ymd days)) /\
  Z.of_nat (List.length days) = ordinal end_ - ordinal start + 1 /\
  hd_error days = Some start /\
  last days start = end_ /\
  (forall (k : nat) (day : calendar_day),
     nth_error days k = Some day ->
     valid_ymd day /\ ordinal day = ordinal start + Z.of_nat k) /\
  Forall (fun day => strptime_ymd (strftime_ymd day) = Ok day) days.
Proof.
  intros Hs He Hord Hyear Hfuel days.
  pose proof (strptime_ymd_valid _ _ Hs) as Vs.
  pose proof (strptime_ymd_valid _ _ He) as Ve.
  set (n := Z.to_nat (ordinal end_ - ordinal start + 1)) in *.
  destruct (days_from_spec n start Vs ltac:(lia)) as [Hlen Hnth].
  fold days in Hlen, Hnth.
  split.
  { unfold generate_dates_in_range. rewrite Hs, He.
    rewrite (dates_loop_run n) by (assumption || lia). reflexivity. }
  split; [lia |].
  split.
  { assert (Hn : exists j, n = S j) by (exists (Nat.pred n); lia).
    destruct Hn as [j Hj]. unfold days. rewrite Hj. reflexivity. }
  split.
  { assert (Hne : days <> [])
      by (intros E; rewrite E in Hlen; cbn in Hlen; lia).
    pose proof (nth_error_last days start Hne) as Hlast.
    destruct (Hnth _ _ Hlast) as [Vl Ol].
    apply ordinal_inj; [assumption | assumption | lia]. }
  split; [exact Hnth |].
  apply Forall_forall. intros day Hin.
  apply In_nth_error in Hin as [k Hk]. destruct (Hnth k day Hk) as [Vk Ok_].
  apply strptime_strftime; [exact Vk |].
  pose proof (year_le_of_ordinal start day Vs Vk ltac:(lia)). lia.
Qed.

Lemma generate_dates_in_range_enumerates_witness :
  generate_dates_in_range 16 sample_config
  = Some (Ok ["2026-02-01"; "2026-02-02"; "2026-02-03"; "2026-02-04";
              "2026-02-05"; "2026-02-06"; "2026-02-07"; "2026-02-08";
              "2026-02-09"; "2026-02-10"; "2026-02-11"; "2026-02-12";
              "2026-02-13"; "2026-02-14"; "2026-02-15"]).
Proof.
  assert (H1 : ordinal (2026, 2, 1) <= ordinal (2026, 2, 15) < ordinal last_day)
    by (vm_compute; split; congruence).
  assert (H2 : 1000 <= year_of (2026, 2, 1)) by (vm_compute; congruence).
  assert (H3 : ordinal (2026, 2, 15) - ordinal (2026, 2, 1) + 1 < Z.of_nat 16)
    by (vm_compute; reflexivity).
  exact (proj1 (generate_dates_in_range_enumerates sample_config
                  (2026, 2, 1) (2026, 2, 15) 16 eq_refl eq_refl H1 H2 H3)).
Defined.

(** X3.  A range that ends on the last day of the calendar, 9999-12-31,
    raises: after that day is added, [current += timedelta(days=1)] leaves
    the calendar with [OverflowError], and the dates gathered so far are
    lost. *)
Theorem generate_dates_in_range_overflow (cfg : Config)
    (start : calendar_day) (fuel : nat) :
  strptime_ymd (DATE_RANGE_START cfg) = Ok start ->
  strptime_ymd (DATE_RANGE_END cfg) = Ok last_day ->
  ordinal last_day - ordinal start < Z.of_nat fuel ->
  generate_dates_in_range fuel cfg = Some (Raise OverflowError).
Proof.
  intros Hs He Hfuel. unfold generate_dates_in_range. rewrite Hs, He.
  pose proof (strptime_ymd_valid _ _ Hs) as Vs.
  pose proof (ordinal_bounds start Vs).
  apply (dates_loop_overflow (Z.to_nat (ordinal last_day - ordinal start)));
    [assumption | lia | lia].
Qed.

Lemma generate_dates_in_range_overflow_witness :
  generate_dates_in_range 3 end_of_calendar_config
  = Some (Raise OverflowError).
Proof.
  apply (generate_dates_in_range_overflow end_of_calendar_config
           (9999, 12, 30) 3).
  - reflexivity.
  - reflexivity.
  - vm_compute. reflexivity.
Defined.

(** X4.  The loop of [generate_dates_in_range] ends for every
    configuration: the calendar has 3652059 days, and with more fuel than
    that the function returns, with the dates, with [ValueError] for a bound
    that is not a date, or with [OverflowError] at the end of the
    calendar. *)
Theorem generate_dates_in_range_terminates (cfg : Config) (fuel : nat) :
  3652059 < Z.of_nat fuel ->
  (exists dates, generate_dates_in_range fuel cfg = Some (Ok dates)) \/
  generate_dates_in_range fuel cfg = Some (Raise ValueError) \/
  generate_dates_in_range fuel cfg = Some (Raise OverflowError).
Proof.
  intros Hfuel. unfold generate_dates_in_range.
  destruct (strptime_ymd (DATE_RANGE_START cfg)) as [start|e] eqn:Hs.
  2:{ right; left. apply strptime_ymd_raises in Hs. subst e. reflexivity. }
  destruct (strptime_ymd (DATE_RANGE_END cfg)) as [end_|e] eqn:He.
  2:{ right; left. apply strptime_ymd_raises in He. subst e. reflexivity. }
  pose proof (strptime_ymd_valid _ _ Hs) as Vs.
  pose proof (strptime_ymd_valid _ _ He) as Ve.
  pose proof (ordinal_bounds start Vs) as Bs.
  pose proof (ordinal_bounds end_ Ve) as Be.
  assert (Ol : ordinal last_day = 3652059) by (vm_compute; reflexivity).
  destruct (Z_lt_le_dec (ordinal end_) (ordinal start)) as [Hlt | Hle].
  - left. exists []. destruct fuel as [|fuel]; [lia |].
    apply dates_loop_past; assumption.
  - destruct (Z.eq_dec (ordinal end_) (ordinal last_day)) as [Heq | Hneq].
    + right; right.
      assert (end_ = last_day)
        by (apply ordinal_inj; [assumption | exact last_day_valid | assumption]).
      subst end_.
      apply (dates_loop_overflow (Z.to_nat (ordinal last_day - ordinal start)));
        [assumption | lia | lia].
    + left. eexists.
      apply (dates_loop_run (Z.to_nat (ordinal end_ - ordinal start + 1)));
        [assumption | assumption | lia | lia | lia].
Qed.

Lemma generate_dates_in_range_terminates_witness :
  (exists dates,
     generate_dates_in_range (Z.to_nat 3652060) sample_config
     = Some (Ok dates)) \/
  generate_dates_in_range (Z.to_nat 3652060) sample_config
  = Some (Raise ValueError) \/
  generate_dates_in_range (Z.to_nat 3652060) sample_config
  = Some (Raise OverflowError).
Proof.
  apply (generate_dates_in_range_terminates sample_config (Z.to_nat 3652060)).
  rewrite Z2Nat.id; lia.
Defined.

(** ** Validation of the credentials *)

Lemma unset_or_placeholder_false (v : option string) (placeholder : string) :
  unset_or_placeholder v placeholder = false <-> credential_set v placeholder.
Proof.
  unfold unset_or_placeholder, credential_set. split.
  - destruct v as [s|]; [| discriminate]. intros H.
    apply orb_false_iff in H as [H1 H2].
    apply String.eqb_neq in H1. apply String.eqb_neq in H2. eauto.
  - intros (s & -> & H1 & H2).
    apply String.eqb_neq in H1. apply String.eqb_neq in H2.
    now rewrite H1, H2.
Qed.

(** X5.  [Config.validate()] returns no error exactly when each of the four
    credentials is set to a string that is neither empty nor the
    placeholder of the sample file. *)
Theorem validate_accepts_iff (c : Credentials) :
  validate c = [] <->
  credential_set (TELEGRAM_BOT_TOKEN c) "your_bot_token_here" /\
  credential_set (TELEGRAM_CHAT_ID c) "your_chat_id_here" /\
  credential_set (AMADEUS_API_KEY c) "your_amadeus_api_key_here" /\
  credential_set (AMADEUS_API_SECRET c) "your_amadeus_api_secret_here".
Proof.
  rewrite <- !unset_or_placeholder_false. unfold validate.
  destruct (unset_or_placeholder (TELEGRAM_BOT_TOKEN c) _),
    (unset_or_placeholder (TELEGRAM_CHAT_ID c) _),
    (unset_or_placeholder (AMADEUS_API_KEY c) _),
    (unset_or_placeholder (AMADEUS_API_SECRET c) _);
    cbn [app]; split; intros H;
    try discriminate H; try (repeat split; reflexivity);
    destruct H as (H1 & H2 & H3 & H4); discriminate.
Qed.

(** X6.  The list of [Config.validate()] holds one message for each
    credential that is missing and nothing else: the message of a
    credential is in the list exactly when the credential is unset, empty or
    the placeholder; no message comes twice, and the messages stand in the
    order token, chat, key, secret. *)
Theorem validate_reports_missing (c : Credentials) :
  validate c
  = filter (fun e => credential_missing c e) credential_errors /\
  NoDup (validate c) /\
  (In bot_token_error (validate c) <->
   ~ credential_set (TELEGRAM_BOT_TOKEN c) "your_bot_token_here") /\
  (In chat_id_error (validate c) <->
   ~ credential_set (TELEGRAM_CHAT_ID c) "your_chat_id_here") /\
  (In api_key_error (validate c) <->
   ~ credential_set (AMADEUS_API_KEY c) "your_amadeus_api_key_here") /\
  (In api_secret_error (validate c) <->
   ~ credential_set (AMADEUS_API_SECRET c) "your_amadeus_api_secret_here").
Proof.
  rewrite <- !unset_or_placeholder_false.
  unfold validate, credential_errors, credential_missing.
  destruct (unset_or_placeholder (TELEGRAM_BOT_TOKEN c) _),
    (unset_or_placeholder (TELEGRAM_CHAT_ID c) _),
    (unset_or_placeholder (AMADEUS_API_KEY c) _),
    (unset_or_placeholder (AMADEUS_API_SECRET c) _);
    (split; [vm_compute; reflexivity |]);
    (split; [cbn [app]; repeat constructor; cbn [In];
             intuition discriminate |]);
    cbn [app In]; repeat split; intros H;
    try congruence; try (intuition discriminate); try (now left);
    auto 6.
Qed.

(** ** The search over the dates *)

Section SearchFacts.

Variable float_of_str : string -> pyresult float.
Variable cfg : Config.
Variable provider : nat -> string -> search_outcome.

(** The loop of [search_all_dates]: the deals of each date are appended in
    the order of the dates, each search is recorded, and a pause follows
    every search but the last. *)
Lemma search_dates_from_spec (dates : list string) :
  forall (i n : nat) (all_deals : list (Deal pyval)) (trace : list event),
    (1 <= i)%nat -> (i + List.length dates = S n)%nat ->
    search_dates_from float_of_str cfg provider i n dates all_deals trace
    = ((all_deals
        ++ flat_map
             (fun kd => search_flights_amadeus float_of_str cfg provider
                          (fst kd) (snd kd))
             (combine (seq (Nat.pred i) (List.length dates)) dates))%list,
       (trace ++ queries_with_pauses dates)%list).
Proof.
  induction dates as [|date rest IH]; intros i n all_deals trace Hi Hn.
  - cbn. now rewrite !app_nil_r.
  - cbn [search_dates_from]. cbn [List.length] in Hn.
    assert (Hn' : (S i + List.length rest = S n)%nat) by lia.
    rewrite (IH (S i) n _ _ ltac:(lia) Hn').
    destruct i as [|i]; [lia |]. cbn [Nat.pred List.length seq combine flat_map fst snd].
    f_equal.
    + now rewrite <- app_assoc.
    + destruct rest as [|date' rest'].
      * cbn [List.length] in Hn. assert (n = S i) by lia. subst n.
        rewrite Nat.ltb_irrefl. rewrite <- app_assoc. reflexivity.
      * cbn [List.length] in Hn.
        assert (E : (S i <? n)%nat = true) by (apply Nat.ltb_lt; lia).
        rewrite E. cbn [queries_with_pauses flat_map app].
        rewrite <- !app_assoc. reflexivity.
Qed.

Lemma search_dates_spec (dates : list string) :
  search_dates float_of_str cfg provider dates
  = (flat_map
       (fun kd => search_flights_amadeus float_of_str cfg provider
                    (fst kd) (snd kd))
       (numbered dates),
     queries_with_pauses dates).
Proof.
  unfold search_dates.
  rewrite (search_dates_from_spec dates 1 (List.length dates))
    by (cbn; lia).
  reflexivity.
Qed.

Lemma queries_with_pauses_counts (dates : list string) :
  searches (queries_with_pauses dates) = List.length dates /\
  pauses (queries_with_pauses dates) = Nat.pred (List.length dates).
Proof.
  destruct dates as [|date rest]; [split; reflexivity |].
  unfold searches, pauses, queries_with_pauses.
  cbn [filter is_search negb List.length Nat.pred].
  induction rest as [|d rest [IH1 IH2]]; [split; reflexivity |].
  cbn [flat_map app filter is_search negb List.length].
  split; [now rewrite <- IH1 | now rewrite <- IH2].
Qed.

Lemma py_len_truthy (v : pyval) (n : Z) :
  py_truthy v = true -> py_len v = Ok n -> 1 <= n.
Proof.
  destruct v as [| b | z | f | s | l | d]; cbn [py_truthy py_len];
    try discriminate.
  - destruct s; [discriminate |]. intros _ H. apply Ok_inj in H. subst n.
    cbn [String.length]. lia.
  - destruct l; [discriminate |]. intros _ H. apply Ok_inj in H. subst n.
    cbn [List.length]. lia.
  - destruct d; [discriminate |]. intros _ H. apply Ok_inj in H. subst n.
    cbn [List.length]. lia.
Qed.

(** The deal built for an offer: the date is that of the request, the
    source is fixed, the price is within the budget, the number of stops is
    not negative, and the airline is what [get_airline_name] makes of the
    carrier code. *)
Lemma parse_offer_fields (day : string) (offer : pyval) (deal : Deal pyval) :
  parse_offer float_of_str cfg day offer = Ok (Some deal) ->
  deal_of_request cfg day deal.
Proof.
  intros H. pose proof (parse_offer_within_budget _ _ _ _ _ H) as Hp.
  unfold parse_offer in H. bind_inv H.
  apply Ok_inj in H. apply Some_inj in H. subst deal.
  unfold deal_of_request.
  cbn [date source price stops carrier_code airline] in *.
  split; [reflexivity |]. split; [reflexivity |]. split; [exact Hp |].
  split; [| assumption].
  match goal with
  | Ht : negb (py_truthy ?v) = false, Hl : py_len ?v = Ok ?n |- _ =>
      apply negb_false_iff in Ht; pose proof (py_len_truthy v n Ht Hl)
  end.
  lia.
Qed.

(** The stops of the deal are counted on the segments of the offer. *)
Lemma parse_offer_reads (day : string) (offer : pyval) (deal : Deal pyval) :
  parse_offer float_of_str cfg day offer = Ok (Some deal) ->
  deal_of_offer cfg day offer deal.
Proof.
  intros H. split; [exact (parse_offer_fields day offer deal H) |].
  unfold parse_offer in H. bind_inv H.
  apply Ok_inj in H. apply Some_inj in H. subst deal. cbn [stops].
  match goal with
  | Ht : negb (py_truthy ?v) = false, Hl : py_len ?v = Ok ?n |- _ =>
      exists v, n; split; [| split; [exact Hl | reflexivity]]
  end.
  unfold first_segments.
  repeat match goal with
         | Hm : ?m = Ok _ |- context [?m] => rewrite Hm; cbn [bind]
         end.
  reflexivity.
Qed.

(** Every deal that the loop appends stems from an offer of the batch. *)
Lemma parse_offers_sources (day : string) (batch : list pyval) :
  forall offers deals,
    (forall offer, In offer offers -> In offer batch) ->
    Forall (fun deal => exists offer,
              In offer batch /\ deal_of_offer cfg day offer deal) deals ->
    Forall (fun deal => exists offer,
              In offer batch /\ deal_of_offer cfg day offer deal)
      (fst (parse_offers float_of_str cfg day offers deals)).
Proof.
  induction offers as [|offer offers IH]; intros deals Hin Hdeals;
    cbn [parse_offers]; [exact Hdeals |].
  destruct (parse_offer float_of_str cfg day offer) as [[deal|]|e] eqn:E;
    cbn [fst]; [| | exact Hdeals].
  - apply IH; [intros o Ho; apply Hin; now right |].
    apply Forall_app. split; [exact Hdeals |]. constructor; [| constructor].
    exists offer. split; [apply Hin; now left | now apply parse_offer_reads].
  - apply IH; [intros o Ho; apply Hin; now right | exact Hdeals].
Qed.

Lemma parse_amadeus_response_fields (data : pyval) (day : string) :
  Forall (deal_of_request cfg day)
    (parse_amadeus_response float_of_str cfg data day).
Proof.
  unfold parse_amadeus_response, parse_amadeus_response_try.
  destruct (py_iter data) as [offers|e]; [| constructor].
  apply parse_offers_invariant; [| constructor].
  intros offer deal. apply parse_offer_fields.
Qed.

Lemma search_flights_amadeus_fields (k : nat) (day : string) :
  Forall (deal_of_request cfg day)
    (search_flights_amadeus float_of_str cfg provider k day).
Proof.
  unfold search_flights_amadeus.
  destruct (provider k day); try constructor.
  apply parse_amadeus_response_fields.
Qed.

Lemma search_dates_fields (dates : list string) :
  Forall (fun deal => exists day, In day dates /\ deal_of_request cfg day deal)
    (fst (search_dates float_of_str cfg provider dates)).
Proof.
  rewrite search_dates_spec. cbn [fst]. apply Forall_forall.
  intros deal Hin. apply in_flat_map in Hin as ([k day] & Hkd & Hdeal).
  cbn [fst snd] in Hdeal. exists day. split.
  - unfold numbered in Hkd. now apply in_combine_r in Hkd.
  - pose proof (search_flights_amadeus_fields k day) as HF.
    rewrite Forall_forall in HF. now apply HF.
Qed.

End SearchFacts.

(** X7.  The loop of [search_all_dates] searches every date once, in the
    order of the list, and sleeps after every search but the last, whatever
    the searches return: a run over [n] dates makes [n] searches and [n - 1]
    pauses, and none over an empty list. *)
Theorem search_dates_pauses
  (float_of_str : string -> pyresult float) (cfg : Config)
  (provider : nat -> string -> search_outcome) (dates : list string) :
  let trace := snd (search_dates float_of_str cfg provider dates) in
  trace = queries_with_pauses dates /\
  searches trace = List.length dates /\
  pauses trace = Nat.pred (List.length dates).
Proof.
  cbv zeta. rewrite search_dates_spec. cbn [snd].
  split; [reflexivity | apply queries_with_pauses_counts].
Qed.

(** X8.  The deals of a run are the deals of the searches put together in
    the order of the dates; a search that fails (no client, an error of the
    API, any other exception) contributes nothing and stops nothing.  Every
    deal carries one of the dates searched, a price within the budget, the
    source [Amadeus], a number of stops that is not negative and the airline
    that its carrier code resolves to. *)
Theorem search_dates_deals
  (float_of_str : string -> pyresult float) (cfg : Config)
  (provider : nat -> string -> search_outcome) (dates : list string) :
  let all_deals := fst (search_dates float_of_str cfg provider dates) in
  all_deals
  = flat_map
      (fun kd => search_flights_amadeus float_of_str cfg provider
                   (fst kd) (snd kd))
      (numbered dates) /\
  (forall k day,
     (forall data, provider k day <> SearchData data) ->
     search_flights_amadeus float_of_str cfg provider k day = []) /\
  Forall (fun deal => exists day, In day dates /\ deal_of_request cfg day deal)
    all_deals.
Proof.
  cbv zeta. split; [now rewrite search_dates_spec |].
  split; [| apply search_dates_fields].
  intros k day H. unfold search_flights_amadeus.
  destruct (provider k day) as [| data | |]; try reflexivity.
  now destruct (H data).
Qed.

(** X9.  Every deal that [parse_amadeus_response] returns was built from
    an offer of the batch: it carries the date of the request and the source
    [Amadeus]; its price is within the budget; its number of stops is
    [len(segments) - 1] for the segments of the first itinerary of that
    offer, and it is not negative; its airline is what [get_airline_name]
    returns for its carrier code.  This holds for every batch, also one
    that ends with an exception. *)
Theorem parse_amadeus_response_deal_fields
  (float_of_str : string -> pyresult float) (cfg : Config)
  (data : pyval) (day : string) :
  Forall (fun deal => exists offer,
            batch_member data offer /\ deal_of_offer cfg day offer deal)
    (parse_amadeus_response float_of_str cfg data day).
Proof.
  unfold parse_amadeus_response, parse_amadeus_response_try, batch_member.
  destruct (py_iter data) as [offers|e]; [| constructor].
  apply parse_offers_sources; [auto | constructor].
Qed.

(** X10.  From a valid range to the report: when the range starts no later
    than it ends, from the year 1000 on and before the last day of the
    calendar, [search_all_dates] returns (with more fuel than there are
    days); it makes one search for each day of the range and one pause less;
    every deal it returns has a price within the budget and a date that
    [format_results_message] can parse. *)
Theorem search_all_dates_scans_range
  (float_of_str : string -> pyresult float) (cfg : Config)
  (provider : nat -> string -> search_outcome)
  (start end_ : calendar_day) (fuel : nat) :
  strptime_ymd (DATE_RANGE_START cfg) = Ok start ->
  strptime_ymd (DATE_RANGE_END cfg) = Ok end_ ->
  ordinal start <= ordinal end_ < ordinal last_day ->
  1000 <= year_of start ->
  ordinal end_ - ordinal start + 1 < Z.of_nat fuel ->
  exists deals trace,
    search_all_dates float_of_str cfg provider fuel = Some (Ok (deals, trace)) /\
    Forall (fun deal => valid_date deal /\ price deal <= MAX_PRICE cfg) deals /\
    Z.of_nat (searches trace) = ordinal end_ - ordinal start + 1 /\
    Z.of_nat (pauses trace) = ordinal end_ - ordinal start.
Proof.
  intros Hs He Hord Hyear Hfuel.
  pose proof (strptime_ymd_valid _ _ Hs) as Vs.
  pose proof (strptime_ymd_valid _ _ He) as Ve.
  set (n := Z.to_nat (ordinal end_ - ordinal start + 1)).
  destruct (days_from_spec n start Vs ltac:(lia)) as [Hlen Hnth].
  set (dates := map strftime_ymd (days_from n start)).
  assert (Hgen : generate_dates_in_range fuel cfg = Some (Ok dates)).
  { unfold generate_dates_in_range. rewrite Hs, He.
    rewrite (dates_loop_run n) by (assumption || lia). reflexivity. }
  assert (Hlen' : List.length dates = n)
    by (unfold dates; now rewrite length_map).
  exists (fst (search_dates float_of_str cfg provider dates)),
    (snd (search_dates float_of_str cfg provider dates)).
  split; [| split].
  - unfold search_all_dates. rewrite Hgen.
    now destruct (search_dates float_of_str cfg provider dates).
  - pose proof (search_dates_fields float_of_str cfg provider dates) as HF.
    rewrite Forall_forall in HF. apply Forall_forall. intros deal Hin.
    destruct (HF deal Hin) as (day & Hday & Hd & _ & Hp & _).
    split; [| exact Hp].
    unfold dates in Hday. apply in_map_iff in Hday as (ymd & <- & Hymd).
    apply In_nth_error in Hymd as [k Hk].
    destruct (Hnth k ymd Hk) as [Vk Ok_].
    exists ymd. rewrite Hd. apply strptime_strftime; [exact Vk |].
    pose proof (year_le_of_ordinal start ymd Vs Vk ltac:(lia)). lia.
  - rewrite search_dates_spec. cbn [snd].
    destruct (queries_with_pauses_counts dates) as [-> ->]. lia.
Qed.

Lemma search_all_dates_scans_range_witness :
  exists deals trace,
    search_all_dates float_of_decimal sample_config flaky_provider 16
    = Some (Ok (deals, trace)) /\
    Forall (fun deal => valid_date deal /\ price deal <= 1000) deals /\
    Z.of_nat (searches trace) = 15 /\
    Z.of_nat (pauses trace) = 14.
Proof.
  assert (H1 : ordinal (2026, 2, 1) <= ordinal (2026, 2, 15) < ordinal last_day)
    by (vm_compute; split; congruence).
  assert (H2 : 1000 <= year_of (2026, 2, 1)) by (vm_compute; congruence).
  assert (H3 : ordinal (2026, 2, 15) - ordinal (2026, 2, 1) + 1 < Z.of_nat 16)
    by (vm_compute; reflexivity).
  exact (search_all_dates_scans_range float_of_decimal sample_config
           flaky_provider (2026, 2, 1) (2026, 2, 15) 16
           eq_refl eq_refl H1 H2 H3).
Defined.

(** ** A batch without a failing offer *)

(** X11.  When the body of the loop raises for no offer of a batch,
    [parse_amadeus_response] leaves its [try] block without an exception and
    returns the deal of every offer that has one, in the order of the
    batch. *)
Theorem parse_amadeus_response_all_offers
  (float_of_str : string -> pyresult float) (cfg : Config) (day : string)
  (offers : list pyval) :
  Forall (fun o => ~ raises float_of_str cfg day o) offers ->
  parse_amadeus_response_try float_of_str cfg (VList offers) day
  = (isolated_deals float_of_str cfg day offers, None) /\
  parse_amadeus_response float_of_str cfg (VList offers) day
  = isolated_deals float_of_str cfg day offers.
Proof.
  intros H. unfold parse_amadeus_response, parse_amadeus_response_try.
  cbn [py_iter]. rewrite parse_offers_no_failure by exact H.
  split; reflexivity.
Qed.

Lemma parse_amadeus_response_all_offers_witness :
  parse_amadeus_response float_of_decimal sample_config
    (VList [cheap_offer; sample_offer "9500.00" "UK"; cheap_offer])
    "2026-02-01"
  = isolated_deals float_of_decimal sample_config "2026-02-01"
      [cheap_offer; sample_offer "9500.00" "UK"; cheap_offer].
Proof.
  apply (parse_amadeus_response_all_offers float_of_decimal sample_config
           "2026-02-01"
           [cheap_offer; sample_offer "9500.00" "UK"; cheap_offer]).
  repeat constructor; intros [e He]; vm_compute in He; discriminate He.
Defined.

(** ** The report: the cheapest deal and the dates *)

Lemma filter_head_split {A : Type} (f : A -> bool) (l : list A) (x : A)
    (r : list A) :
  filter f l = x :: r ->
  exists before after,
    l = (before ++ x :: after)%list /\
    forall y, In y before -> f y = false.
Proof.
  induction l as [|y l IH]; cbn [filter]; [discriminate |].
  destruct (f y) eqn:Fy.
  - intros H. assert (y = x) by congruence. subst y.
    exists [], l. split; [reflexivity | intros z []].
  - intros H. destruct (IH H) as (before & after & -> & Hb).
    exists (y :: before), after. split; [reflexivity |].
    intros z [<-|Hz]; auto.
Qed.

Section ReportEdges.

Context {V : Type}.
Variable V_eq_dec : forall a b : V, {a = b} + {a <> b}.
Variable str_of : V -> string.
Variable cfg : Config.
Variable checked_at : string.

(** The first deal of the sorted list: its price is the least one, and it
    stood before every other deal of that price. *)
Lemma sort_by_price_head (deals : list (Deal V)) (cheapest : Deal V)
    (rest : list (Deal V)) :
  sort_by_price deals = cheapest :: rest ->
  (forall d, In d deals -> price cheapest <= price d) /\
  exists before after,
    deals = (before ++ cheapest :: after)%list /\
    forall d, In d before -> price cheapest < price d.
Proof.
  intros E.
  pose proof (sort_by_price_sorted deals) as Hs. rewrite E in Hs.
  pose proof (sort_by_price_perm deals) as Hp. rewrite E in Hp.
  apply StronglySorted_inv in Hs as [_ Hle]. rewrite Forall_forall in Hle.
  assert (Hmin : forall d, In d deals -> price cheapest <= price d).
  { intros d Hd. apply (Permutation_in _ Hp) in Hd as [<- | Hd]; [lia |].
    exact (Hle d Hd). }
  split; [exact Hmin |].
  pose proof (sort_by_price_stable (price cheapest) deals) as Hst.
  rewrite E in Hst. cbn [filter] in Hst. unfold same_price at 1 in Hst.
  rewrite Z.eqb_refl in Hst. symmetry in Hst.
  destruct (filter_head_split _ _ _ _ Hst) as (before & after & -> & Hb).
  exists before, after. split; [reflexivity |].
  intros d Hd. specialize (Hb d Hd). unfold same_price in Hb.
  apply Z.eqb_neq in Hb.
  assert (price cheapest <= price d)
    by (apply Hmin, in_or_app; now left).
  lia.
Qed.

(** A deal whose date is not a date ends the loop over the highlighted
    deals with [ValueError]. *)
Lemma format_deals_invalid (top : list (Deal V)) :
  ~ Forall valid_date top ->
  forall i message,
    format_deals str_of cfg i top message = Raise ValueError.
Proof.
  induction top as [|d top IH]; intros Hn i message.
  - destruct Hn. constructor.
  - cbn [format_deals]. unfold format_deal.
    destruct (strptime_ymd (date d)) as [ymd|e] eqn:E; cbn [bind].
    + apply IH. intros Htop. apply Hn. constructor; [| exact Htop].
      now exists ymd.
    + apply strptime_ymd_raises in E. now subst e.
Qed.

End ReportEdges.

(** X12.  The line [Cheapest] of the report shows the least price of the
    collection and the airline of the first deal, in the order in which the
    deals were found, that has this price. *)
Theorem report_cheapest_is_first_minimum {V : Type}
  (V_eq_dec : forall a b : V, {a = b} + {a <> b}) (str_of : V -> string)
  (cfg : Config) (checked_at : string) (deals : list (Deal V)) :
  deals <> [] ->
  Forall valid_date deals ->
  Z.abs (sum_prices deals) < 2 ^ 1023 ->
  exists cheapest before after body avg closing,
    deals = (before ++ cheapest :: after)%list /\
    (forall d, In d deals -> price cheapest <= price d) /\
    (forall d, In d before -> price cheapest < price d) /\
    snd (format_results_message V_eq_dec str_of cfg checked_at deals)
    = Ok (body
          ++ ("🏆 Cheapest: ₹" ++ str_of_int (price cheapest) ++ " ("
              ++ str_of (airline cheapest) ++ ")" ++ nl)
          ++ ("📊 Average: ₹" ++ str_of_int avg ++ nl)
          ++ closing).
Proof.
  intros Hne Hdates Hsum.
  destruct (mean_price_total deals Hne Hsum) as [avg Hmean].
  pose proof (sort_by_price_perm deals) as Hperm.
  pose proof (sort_by_price_not_nil deals Hne) as Hne'.
  pose proof (mean_price_sorted deals) as Hmean'. rewrite Hmean in Hmean'.
  assert (snd (format_results_message V_eq_dec str_of cfg checked_at deals)
          = render_sorted V_eq_dec str_of cfg checked_at (sort_by_price deals))
    as Hmsg by (destruct deals; [congruence | reflexivity]).
  rewrite Hmsg. clear Hmsg.
  assert (Forall valid_date (sort_by_price deals)) as Hdates'
    by (eapply Permutation_Forall; eassumption).
  destruct (render_sorted_parts V_eq_dec str_of cfg checked_at
              (sort_by_price deals) avg Hne' Hdates' Hmean')
    as (entries & stats & Hr & _ & Hs).
  destruct (sort_by_price deals) as [|cheapest rest] eqn:Esorted;
    [congruence |].
  rewrite (statistics_lines V_eq_dec str_of checked_at cheapest rest avg Hmean')
    in Hs.
  apply Ok_inj in Hs. subst stats.
  destruct (sort_by_price_head deals cheapest rest Esorted)
    as (Hmin & before & after & Hsplit & Hbefore).
  exists cheapest, before, after.
  exists (report_header cfg (cheapest :: rest) ++ str_concat entries
          ++ more_deals_note (cheapest :: rest)
          ++ nl ++ "━━━━━━━━━━━━━━━━━━━━" ++ nl
          ++ "*📊 STATISTICS:*" ++ nl ++ nl),
    avg,
    (most_deals_line V_eq_dec str_of (cheapest :: rest)
     ++ nonstop_line (cheapest :: rest) ++ statistics_tail checked_at).
  split; [exact Hsplit |]. split; [exact Hmin |]. split; [exact Hbefore |].
  rewrite Hr. f_equal. unfold statistics_head.
  rewrite !str_app_assoc. reflexivity.
Qed.

Lemma report_cheapest_is_first_minimum_witness :
  exists cheapest before after body avg closing,
    three_deals = (before ++ cheapest :: after)%list /\
    (forall d, In d three_deals -> price cheapest <= price d) /\
    (forall d, In d before -> price cheapest < price d) /\
    snd (format_results_message string_dec (fun s => s) sample_config
           sample_time three_deals)
    = Ok (body
          ++ ("🏆 Cheapest: ₹" ++ str_of_int (price cheapest) ++ " ("
              ++ airline cheapest ++ ")" ++ nl)
          ++ ("📊 Average: ₹" ++ str_of_int avg ++ nl)
          ++ closing).
Proof.
  assert (three_deals <> []) as Hne by discriminate.
  exact (report_cheapest_is_first_minimum string_dec (fun s => s)
           sample_config sample_time three_deals
           Hne three_deals_valid three_deals_sum).
Defined.

(** X13.  [format_results_message] parses the dates of the highlighted
    deals only, the 15 cheapest ones: for a collection that is not empty
    (whose prices add up to less than [2 ^ 1023], and whose dates are ASCII
    texts, the digits that the embedding of [strptime] knows) it returns a
    report when each of these dates is a date, and raises [ValueError] when
    one of them is not; the dates of the other deals are never looked
    at. *)
Theorem format_results_message_date_errors {V : Type}
  (V_eq_dec : forall a b : V, {a = b} + {a <> b}) (str_of : V -> string)
  (cfg : Config) (checked_at : string) (deals : list (Deal V)) :
  deals <> [] ->
  Z.abs (sum_prices deals) < 2 ^ 1023 ->
  Forall (fun d => ascii_text (date d)) deals ->
  let top := firstn 15 (sort_by_price deals) in
  (Forall valid_date top ->
   exists report,
     snd (format_results_message V_eq_dec str_of cfg checked_at deals)
     = Ok report) /\
  (~ Forall valid_date top ->
   snd (format_results_message V_eq_dec str_of cfg checked_at deals)
   = Raise ValueError).
Proof.
  intros Hne Hsum _ top.
  destruct (mean_price_total deals Hne Hsum) as [avg Hmean].
  pose proof (sort_by_price_not_nil deals Hne) as Hne'.
  pose proof (mean_price_sorted deals) as Hmean'. rewrite Hmean in Hmean'.
  assert (snd (format_results_message V_eq_dec str_of cfg checked_at deals)
          = render_sorted V_eq_dec str_of cfg checked_at (sort_by_price deals))
    as Hmsg by (destruct deals; [congruence | reflexivity]).
  rewrite Hmsg. clear Hmsg. unfold render_sorted. fold top.
  split.
  - intros Htop.
    destruct (format_deals_entries str_of cfg top Htop 1
                (report_header cfg (sort_by_price deals)))
      as (entries & Hf & _).
    rewrite Hf. cbn [bind].
    destruct (sort_by_price deals) as [|best rest]; [congruence |].
    rewrite (statistics_lines V_eq_dec str_of checked_at best rest avg Hmean').
    cbn [bind]. eauto.
  - intros Htop. rewrite (format_deals_invalid str_of cfg top Htop).
    reflexivity.
Qed.

Lemma format_results_message_date_errors_witness :
  snd (format_results_message string_dec (fun s => s) sample_config
         sample_time undated_deals)
  = Raise ValueError.
Proof.
  assert (undated_deals <> []) as Hne by discriminate.
  assert (Z.abs (sum_prices undated_deals) < 2 ^ 1023) as Hsum
    by (apply Z.ltb_lt; vm_compute; reflexivity).
  assert (Forall (fun d => ascii_text (date d)) undated_deals) as Hascii
    by (repeat constructor).
  apply (format_results_message_date_errors string_dec (fun s => s)
           sample_config sample_time undated_deals Hne Hsum Hascii).
  intros H. apply Forall_inv in H. destruct H as [ymd H].
  vm_compute in H. discriminate H.
Defined.

(** ** Message delivery: the first part and the result *)

Lemma line_with_newline_not_empty (line : string) : line ++ nl <> EmptyString.
Proof. destruct line; discriminate. Qed.

(** Once the current part is not empty, every part that the loop closes is
    not empty, and the current part stays so. *)
Lemma chunk_loop_not_empty (lines : list string) :
  forall (parts : list string) (cur : string),
    cur <> EmptyString ->
    exists new cur',
      fold_left chunk_step lines (parts, cur) = ((parts ++ new)%list, cur') /\
      Forall (fun part => part <> EmptyString) new /\
      cur' <> EmptyString.
Proof.
  induction lines as [|line lines IH]; intros parts cur Hcur.
  - exists [], cur. rewrite app_nil_r. repeat split; [constructor | exact Hcur].
  - cbn [fold_left chunk_step].
    destruct (max_length <? _)%nat.
    + destruct (IH (parts ++ [cur])%list (line ++ nl)
                  (line_with_newline_not_empty line))
        as (new & cur' & E & Hnew & Hcur').
      exists (cur :: new), cur'. rewrite E, <- app_assoc.
      repeat split; [constructor; assumption | exact Hcur'].
    + destruct (IH parts (cur ++ line ++ nl)) as (new & cur' & E & Hnew & Hcur').
      { destruct cur; [congruence | discriminate]. }
      exists new, cur'. repeat split; assumption.
Qed.

(** X14.  The chunking of [send_long_message] starts with an empty part
    exactly when the first line of the message has 4000 characters or more:
    the loop then closes the current part before anything was put into it,
    and this empty text is the first one posted.  Every other part holds at
    least one line. *)
Theorem message_parts_first_part (message : string) :
  let first_line := hd EmptyString (str_split LF message) in
  ((4000 <= String.length first_line)%nat ->
   exists rest, message_parts message = EmptyString :: rest) /\
  ((String.length first_line < 4000)%nat ->
   Forall (fun part => part <> EmptyString) (message_parts message)) /\
  Forall (fun part => part <> EmptyString) (tl (message_parts message)).
Proof.
  cbv zeta. unfold message_parts.
  destruct (str_split LF message) as [|line lines] eqn:E;
    [now destruct (str_split_not_nil LF message) |].
  cbn [hd fold_left chunk_step String.length Nat.add]. unfold max_length.
  destruct (Nat.ltb_spec 4000 (String.length line + 1)) as [Hlong | Hshort];
    cbv iota; cbn [app].
  - destruct (chunk_loop_not_empty lines [EmptyString] (line ++ nl)
                (line_with_newline_not_empty line))
      as (new & cur' & -> & Hnew & Hcur').
    apply String.eqb_neq in Hcur' as Hb. rewrite Hb. cbn [negb app tl].
    split; [intros _; eauto |]. split; [intros H; lia |].
    apply Forall_app. split; [exact Hnew |].
    constructor; [now apply String.eqb_neq | constructor].
  - destruct (chunk_loop_not_empty lines [] (EmptyString ++ line ++ nl)
                (line_with_newline_not_empty line))
      as (new & cur' & -> & Hnew & Hcur').
    apply String.eqb_neq in Hcur' as Hb. rewrite Hb. cbn [negb app].
    assert (Hall : Forall (fun part => part <> EmptyString)
                     (new ++ [cur'])%list).
    { apply Forall_app. split; [exact Hnew |].
      constructor; [exact Hcur' | constructor]. }
    split; [intros H; lia |]. split; [intros _; exact Hall |].
    destruct (new ++ [cur'])%list; [constructor |].
    now apply Forall_inv_tail in Hall.
Qed.

(** X15.  What [send_long_message] returns and posts: a message of at most
    4000 characters is posted once, unchanged, and the result tells whether
    the endpoint answered with status 200; a longer message is posted in its
    parts.  So the function returns [False] only for a message within the
    limit that was not accepted. *)
Theorem send_long_message_result
  (post : nat -> string -> post_outcome) (message : string)
  (calls : list string) :
  (fst (send_long_message post message calls) = false <->
   (String.length message <= 4000)%nat /\
   accepted (post (List.length calls) message) = false) /\
  snd (send_long_message post message calls)
  = (calls ++ (if (String.length message <=? 4000)%nat then [message]
               else message_parts message))%list.
Proof.
  unfold send_long_message, max_length.
  destruct (Nat.leb_spec (String.length message) 4000) as [Hle | Hgt].
  - rewrite send_telegram_message_result, send_telegram_message_calls.
    split; [| reflexivity]. split; [intros H; split; [lia | exact H] |].
    now intros [_ H].
  - rewrite send_parts_calls. cbn [fst snd]. split; [| reflexivity].
    split; [discriminate | intros [H _]; lia].
Qed.
